(** * equi-exchange: the negotiation core, embedded and verified

    Shallow embedding of [backend/app/agents.py], [backend/app/explainer.py],
    [backend/app/theory_of_mind_agent.py] and [backend/app/unified_agent.py].

    Numbers.  Python floats are idealised as exact rationals ([Q]); integer
    arguments ([quantity], [max_rounds], round indices) are [Z].  [math.log]
    is the real logarithm, so the proportional fairness lives in [R].
    Python's [max(a, b)] returns [b] exactly when [b > a], which is [Qmax a b];
    [min(a, b)] returns [b] exactly when [b < a], which is [Qmin a b].

    Objects.  An agent object handed to the loop is either a plain
    [BaseAgent] or an instance of its subclass [TheoryOfMindAgent]; methods
    that assign to [self] return the updated object next to their result. *)

From Stdlib Require Import String QArith Qabs Qminmax Qreals ZArith List Bool.
From Stdlib Require Import Reals Psatz Lia.
Import ListNotations.
Open Scope Q_scope.

(** ** Python values *)

(** Strict comparison of two floats, [x < y]. *)
Definition Qltb (x y : Q) : bool := negb (Qle_bool y x).

(** Truth value of an optional float in a condition such as
    [if self.market_price:] -- [None] and [0.0] are both falsy.  The result
    is the float itself when the condition holds. *)
Definition truthy (m : option Q) : option Q :=
  match m with
  | Some v => if Qeq_bool v 0 then None else Some v
  | None => None
  end.

(** [a or b] on optional floats. *)
Definition py_or (a b : option Q) : option Q :=
  match truthy a with
  | Some v => Some v
  | None => b
  end.

Inductive PyException : Set :=
| TypeError.

Inductive PyResult (A : Type) : Type :=
| Return (a : A)
| Raise (e : PyException).
Arguments Return {A} a.
Arguments Raise {A} e.

(** [sum(xs)] and [np.mean(xs)] on a list of floats. *)
Definition Qsum (xs : list Q) : Q := fold_right Qplus 0 xs.

Definition np_mean (xs : list Q) : Q := Qsum xs / inject_Z (Z.of_nat (length xs)).

(** ** agents.py: BaseAgent *)

Inductive Role : Set := buyer | seller.

Record BaseAgent : Type := mkBaseAgent {
  address : string;
  target_price : Q;
  min_price : Q;
  max_price : Q;
  quantity : Z;
  fairness_weight : Q;
  concession_rate : Q;
  aggressiveness : Q;
  market_price : option Q;
  agent_type : Role
}.

(** [BaseAgent.__init__]: stores its arguments and derives the role.  There
    is no check on the arguments. *)
Definition BaseAgent_init (address : string) (target_price min_price max_price : Q)
    (quantity : Z) (fairness_weight concession_rate aggressiveness : Q)
    (market_price : option Q) : BaseAgent :=
  mkBaseAgent address target_price min_price max_price quantity
    fairness_weight concession_rate aggressiveness market_price
    (if Qltb target_price ((min_price + max_price) / 2) then buyer else seller).

(** Defaults of the keyword arguments of [BaseAgent.__init__]. *)
Definition default_fairness_weight : Q := 0.5.
Definition default_concession_rate : Q := 0.05.
Definition default_aggressiveness : Q := 0.5.

(** [max(self.min_price, min(self.max_price, proposed))]. *)
Definition clamp (self : BaseAgent) (proposed : Q) : Q :=
  Qmax (min_price self) (Qmin (max_price self) proposed).

(** [BaseAgent.propose]. *)
Definition BaseAgent_propose (self : BaseAgent) (last_offer_price : option Q) : Q :=
  match last_offer_price with
  | None =>
      match truthy (market_price self) with
      | Some market =>
          let proposed :=
            match agent_type self with
            | buyer =>
                target_price self
                - (target_price self - market) * (1 - aggressiveness self) * 0.3
            | seller =>
                target_price self
                + (market - target_price self) * (1 - aggressiveness self) * 0.3
            end in
          clamp self proposed
      | None => target_price self
      end
  | Some last =>
      let delta := last - target_price self in
      let concession_factor := 0.5 + (1 - aggressiveness self) * 0.3 in
      let concession_factor :=
        match truthy (market_price self) with
        | Some market =>
            match agent_type self with
            | buyer =>
                if Qltb market last then concession_factor * 0.9
                else concession_factor
            | seller =>
                if Qltb last market then concession_factor * 0.9
                else concession_factor
            end
        | None => concession_factor
        end in
      let proposed := target_price self + delta * concession_factor in
      clamp self proposed
  end.

(** [BaseAgent.utility]. *)
Definition utility (self : BaseAgent) (price : Q) : Q :=
  1 - Qabs (price - target_price self)
      / Qmax 1 (Qabs (max_price self - min_price self)).

(** [1.0 - abs(buyer_util - seller_util)], as written in the loop. *)
Definition simple_fairness (buyer_util seller_util : Q) : Q :=
  1 - Qabs (buyer_util - seller_util).

Definition epsilon : Q := 1e-6.

(** [calculate_proportional_fairness]. *)
Definition calculate_proportional_fairness (buyer_util seller_util : Q) : R :=
  let buyer_log := ln (Q2R (Qmax epsilon buyer_util)) in
  let seller_log := ln (Q2R (Qmax epsilon seller_util)) in
  (buyer_log + seller_log)%R.

(** The declared valid domain of a party configuration. *)
Definition valid_config (a : BaseAgent) : Prop :=
  min_price a <= target_price a /\ target_price a <= max_price a.

(** ** explainer.py *)

(** Names of the opponent classes; the source uses the strings
    ['cooperative'], ['stubborn'] and ['moderate']. *)
Inductive Behavior : Set := cooperative | stubborn | moderate.

(** The dictionary returned by [get_opponent_model_summary]. *)
Record ModelSummary : Type := mkModelSummary {
  sum_target_price_estimate : option Q;
  sum_strategy_type : option Behavior;
  sum_concession_rate_estimate : Q;
  sum_patience_level : Q;
  sum_belief_confidence : Q;
  sum_rounds_observed : nat
}.

(** The sentence chosen by [explain_offer], with the numbers that are
    formatted into it; one constructor per [return] of the source, in source
    order.  Only the rendering of the numbers as text is left out. *)
Inductive Explanation : Type :=
| StartingAdjustedTowardMarket (price market : Q)
| OpeningAtTarget (price : Q)
| OpponentStubbornHoldingFirm (price : Q)
| OpponentCooperativeFairConcession (price : Q)
| AggressivelyPushingDown (price : Q)
| AggressivelyPushingUp (price : Q)
| GenerousConcession (price : Q)
| ConcededToImproveFairness (price fairness : Q)
| MaintainingStrongPosition (price fairness : Q)
| OfferingBelowMarket (price market : Q)
| OfferingAboveMarket (price market : Q)
| ConcededPercent (pct_change price : Q)
| ProposingBalance (price : Q).

(** [explain_offer]. *)
Definition explain_offer (agent_type : Role) (price : Q)
    (last_opponent_offer : option Q)
    (target_price concession_rate aggressiveness fairness : Q)
    (market_price : option Q) (tom_insights : option ModelSummary)
    : Explanation :=
  match last_opponent_offer with
  | None =>
      match truthy market_price with
      | Some market =>
          if Qltb (Qabs (price - market)) (Qabs (target_price - market))
          then StartingAdjustedTowardMarket price market
          else OpeningAtTarget price
      | None => OpeningAtTarget price
      end
  | Some last =>
      let movement :=
        match agent_type with
        | buyer => last - price
        | seller => price - last
        end in
      let strategy :=
        match tom_insights with
        | Some ins => sum_strategy_type ins
        | None => None
        end in
      match strategy with
      | Some stubborn => OpponentStubbornHoldingFirm price
      | Some cooperative => OpponentCooperativeFairConcession price
      | _ =>
          if Qltb 0.7 aggressiveness then
            match agent_type with
            | buyer => AggressivelyPushingDown price
            | seller => AggressivelyPushingUp price
            end
          else if Qltb aggressiveness 0.3 then GenerousConcession price
          else if Qltb fairness 0.5 then ConcededToImproveFairness price fairness
          else if Qltb 0.8 fairness then MaintainingStrongPosition price fairness
          else
            let fallback :=
              if Qltb 0.01 (Qabs movement)
              then ConcededPercent (Qabs movement / Qmax (Qabs last) 1 * 100) price
              else ProposingBalance price in
            match truthy market_price with
            | Some market =>
                match agent_type with
                | buyer =>
                    if Qltb price market then OfferingBelowMarket price market
                    else fallback
                | seller =>
                    if Qltb market price then OfferingAboveMarket price market
                    else fallback
                end
            | None => fallback
            end
      end
  end.

(** ** numpy *)

(** [np.arange(n)] as floats. *)
Definition np_arange (n : nat) : list Q :=
  map (fun i => inject_Z (Z.of_nat i)) (seq 0 n).

Definition Qsum_prod (xs ys : list Q) : Q :=
  Qsum (map (fun p => fst p * snd p) (combine xs ys)).

(** [np.polyfit(xs, ys, 1)]: the coefficients [(slope, intercept)] of the
    least-squares line through the points, by the normal equations. *)
Definition np_polyfit1 (xs ys : list Q) : Q * Q :=
  let n := inject_Z (Z.of_nat (length xs)) in
  let sx := Qsum xs in
  let sy := Qsum ys in
  let sxx := Qsum_prod xs xs in
  let sxy := Qsum_prod xs ys in
  let det := n * sxx - sx * sx in
  ((n * sxy - sx * sy) / det, (sy * sxx - sx * sxy) / det).

(** Sum of squared residuals of the line [y = a * x + b]. *)
Definition sq_residuals (a b : Q) (xs ys : list Q) : Q :=
  Qsum (map (fun p => (snd p - (a * fst p + b)) * (snd p - (a * fst p + b)))
            (combine xs ys)).

(** [xs[-k:]] for a positive [k]. *)
Definition last_k {A : Type} (k : nat) (xs : list A) : list A :=
  skipn (length xs - k) xs.

(** [[abs(xs[i] - xs[i+1]) for i in range(len(xs) - 1)]]. *)
Fixpoint successive_abs_diffs (xs : list Q) : list Q :=
  match xs with
  | x :: (y :: _) as tl => Qabs (x - y) :: successive_abs_diffs tl
  | _ => []
  end.

(** ** theory_of_mind_agent.py *)

Module ToM.

Record OpponentModel : Type := mkOpponentModel {
  target_price_estimate : option Q;
  min_price_estimate : option Q;
  max_price_estimate : option Q;
  concession_rate_estimate : Q;
  patience_level : Q;
  fairness_preference : Q;
  risk_aversion : Q;
  strategy_type : option Behavior;
  belief_confidence : Q
}.

Definition set_target_price_estimate (v : option Q) (m : OpponentModel) :=
  mkOpponentModel v (min_price_estimate m) (max_price_estimate m)
    (concession_rate_estimate m) (patience_level m) (fairness_preference m)
    (risk_aversion m) (strategy_type m) (belief_confidence m).

Definition set_concession_rate_estimate (v : Q) (m : OpponentModel) :=
  mkOpponentModel (target_price_estimate m) (min_price_estimate m)
    (max_price_estimate m) v (patience_level m) (fairness_preference m)
    (risk_aversion m) (strategy_type m) (belief_confidence m).

Definition set_patience_level (v : Q) (m : OpponentModel) :=
  mkOpponentModel (target_price_estimate m) (min_price_estimate m)
    (max_price_estimate m) (concession_rate_estimate m) v
    (fairness_preference m) (risk_aversion m) (strategy_type m)
    (belief_confidence m).

Definition set_strategy_type (v : option Behavior) (m : OpponentModel) :=
  mkOpponentModel (target_price_estimate m) (min_price_estimate m)
    (max_price_estimate m) (concession_rate_estimate m) (patience_level m)
    (fairness_preference m) (risk_aversion m) v (belief_confidence m).

Definition set_belief_confidence (v : Q) (m : OpponentModel) :=
  mkOpponentModel (target_price_estimate m) (min_price_estimate m)
    (max_price_estimate m) (concession_rate_estimate m) (patience_level m)
    (fairness_preference m) (risk_aversion m) (strategy_type m) v.

(** An instance of [TheoryOfMindAgent]: the inherited [BaseAgent] attributes
    and the attributes the subclass adds. *)
Record TheoryOfMindAgent : Type := mkTheoryOfMindAgent {
  base : BaseAgent;
  tom_level : Z;
  opponent_model : OpponentModel;
  opponent_offer_history : list Q;
  my_offer_history : list Q;
  round_count : Z
}.

Definition initial_opponent_model : OpponentModel :=
  mkOpponentModel None None None 0.05 0.5 0.5 0.5 None 0.0.

(** [TheoryOfMindAgent.__init__]; the superclass is initialised with the six
    positional arguments only, so the remaining ones take their defaults. *)
Definition init (address : string) (target_price min_price max_price : Q)
    (quantity : Z) (fairness_weight : Q) (tom_level : Z) : TheoryOfMindAgent :=
  mkTheoryOfMindAgent
    (BaseAgent_init address target_price min_price max_price quantity
       fairness_weight default_concession_rate default_aggressiveness None)
    tom_level initial_opponent_model [] [] 0%Z.

Definition default_tom_level : Z := 2%Z.

(** First block of [update_opponent_model]: concession rate and strategy. *)
Definition classify_strategy (history : list Q) (m : OpponentModel) : OpponentModel :=
  if (2 <=? length history)%nat then
    match successive_abs_diffs history with
    | [] => m
    | concessions =>
        let avg_concession := np_mean concessions in
        let m := set_concession_rate_estimate avg_concession m in
        if Qltb 0.1 avg_concession then set_strategy_type (Some cooperative) m
        else if Qltb avg_concession 0.02 then set_strategy_type (Some stubborn) m
        else set_strategy_type (Some moderate) m
    end
  else m.

(** [offers = np.array(self.opponent_offer_history[-5:])]. *)
Definition fit_window (history : list Q) : list Q := last_k 5 history.

(** [coeffs[1]] of [np.polyfit(np.arange(len(offers)), offers, 1)]. *)
Definition estimated_target (offers : list Q) : Q :=
  snd (np_polyfit1 (np_arange (length offers)) offers).

(** [min(1.0, len(offers) / 10.0)]. *)
Definition fit_confidence (offers : list Q) : Q :=
  Qmin 1 (inject_Z (Z.of_nat (length offers)) / 10).

(** Second block of [update_opponent_model]: the target-price estimate. *)
Definition estimate_target (history : list Q) (m : OpponentModel) : OpponentModel :=
  if (3 <=? length history)%nat then
    let offers := fit_window history in
    if (1 <? length offers)%nat then
      let confidence := fit_confidence offers in
      let m :=
        match target_price_estimate m with
        | None => set_target_price_estimate (Some (estimated_target offers)) m
        | Some prior =>
            set_target_price_estimate
              (Some (confidence * estimated_target offers + (1 - confidence) * prior)) m
        end in
      set_belief_confidence confidence m
    else m
  else m.

(** Third block of [update_opponent_model]: the patience estimate. *)
Definition estimate_patience (self_base : BaseAgent) (round_count : Z)
    (history : list Q) (m : OpponentModel) : OpponentModel :=
  if (2 <=? length history)%nat then
    let total_movement := Qabs (hd 0 history - last history 0) in
    let expected_movement :=
      inject_Z round_count * 0.05 * (max_price self_base - min_price self_base) in
    if Qltb total_movement (expected_movement * 0.5) then set_patience_level 0.8 m
    else if Qltb (expected_movement * 1.5) total_movement then set_patience_level 0.2 m
    else m
  else m.

(** [TheoryOfMindAgent.update_opponent_model]. *)
Definition update_opponent_model (self : TheoryOfMindAgent) (opponent_offer : Q)
    (my_last_offer : option Q) : TheoryOfMindAgent :=
  let history := opponent_offer_history self ++ [opponent_offer] in
  let mine :=
    match my_last_offer with
    | Some o => my_offer_history self ++ [o]
    | None => my_offer_history self
    end in
  let rc := (round_count self + 1)%Z in
  let m := classify_strategy history (opponent_model self) in
  let m := estimate_target history m in
  let m := estimate_patience (base self) rc history m in
  mkTheoryOfMindAgent (base self) (tom_level self) m history mine rc.

(** [self.my_offer_history[-1] if self.my_offer_history else None]. *)
Definition my_last (self : TheoryOfMindAgent) : option Q :=
  match my_offer_history self with
  | [] => None
  | o :: os => Some (last (o :: os) 0)
  end.

(** [TheoryOfMindAgent.propose]: the offer and the object after the call. *)
Definition propose (self : TheoryOfMindAgent) (last_offer_price : option Q)
    : Q * TheoryOfMindAgent :=
  match last_offer_price with
  | None => (target_price (base self), self)
  | Some last =>
      let self := update_opponent_model self last (my_last self) in
      let target := target_price (base self) in
      let strategy := strategy_type (opponent_model self) in
      let confidence := belief_confidence (opponent_model self) in
      if Qltb confidence 0.3 then
        let delta := last - target in
        (target + delta * 0.5, self)
      else
        let delta := last - target in
        let concession_factor :=
          match strategy with
          | Some cooperative => 0.4
          | Some stubborn => 0.7
          | _ => 0.5
          end in
        let proposed := target + delta * concession_factor in
        let proposed :=
          match target_price_estimate (opponent_model self) with
          | Some opponent_target =>
              let midpoint := (target + opponent_target) / 2 in
              if Qltb 0.5 (fairness_weight (base self))
              then (1 - fairness_weight (base self)) * proposed
                   + fairness_weight (base self) * midpoint
              else proposed
          | None => proposed
          end in
        let patience := patience_level (opponent_model self) in
        let proposed :=
          if Qltb 0.7 patience then 0.7 * proposed + 0.3 * target
          else if Qltb patience 0.3 then 0.9 * proposed + 0.1 * target
          else proposed in
        let proposed := clamp (base self) proposed in
        (proposed,
         mkTheoryOfMindAgent (base self) (tom_level self) (opponent_model self)
           (opponent_offer_history self) (my_offer_history self ++ [proposed])
           (round_count self))
  end.

(** [get_opponent_model_summary]. *)
Definition get_opponent_model_summary (self : TheoryOfMindAgent) : ModelSummary :=
  mkModelSummary
    (target_price_estimate (opponent_model self))
    (strategy_type (opponent_model self))
    (concession_rate_estimate (opponent_model self))
    (patience_level (opponent_model self))
    (belief_confidence (opponent_model self))
    (length (opponent_offer_history self)).

(** The object after a sequence of [propose] calls, oldest offer first. *)
Definition after_offers (self : TheoryOfMindAgent) (offers : list Q)
    : TheoryOfMindAgent :=
  fold_left (fun s o => snd (propose s (Some o))) offers self.

End ToM.

(** ** unified_agent.py *)

Module UCNA.

Record RiskWeights : Type := mkRiskWeights {
  w_amount : Q;
  w_age_days : Q;
  w_tx_count : Q
}.

Record OptWeights : Type := mkOptWeights {
  w_utility : Q;
  w_fairness : Q;
  w_risk : Q;
  w_stubbornness : Q
}.

Definition default_risk_weights : RiskWeights := mkRiskWeights 0.001 (-0.01) 0.0001.
Definition default_opt_weights : OptWeights := mkOptWeights 0.4 0.3 0.2 0.1.

Record Beliefs : Type := mkBeliefs {
  belief_target_price : option Q;
  belief_stubbornness : Q;
  belief_patience : Q
}.

Record UnifiedNegotiationAgent : Type := mkUnifiedNegotiationAgent {
  base : BaseAgent;
  risk_weights : RiskWeights;
  opt_weights : OptWeights;
  beliefs : Beliefs;
  opponent_offer_history : list Q;
  my_offer_history : list Q;
  round_count : Z;
  cached_cluster : option Behavior;
  cached_cluster_score : option Q
}.

(** [UnifiedNegotiationAgent.__init__]; [None] for either weight table
    selects the default one. *)
Definition init (address : string) (target_price min_price max_price : Q)
    (quantity : Z) (fairness_weight concession_rate aggressiveness : Q)
    (market_price : option Q) (risk_weights : option RiskWeights)
    (optimization_weights : option OptWeights) : UnifiedNegotiationAgent :=
  mkUnifiedNegotiationAgent
    (BaseAgent_init address target_price min_price max_price quantity
       fairness_weight concession_rate aggressiveness market_price)
    (match risk_weights with Some w => w | None => default_risk_weights end)
    (match optimization_weights with Some w => w | None => default_opt_weights end)
    (mkBeliefs None 0.5 0.5) [] [] 0%Z None None.

(** *** Module 2: behaviour clustering *)

Record ClusterResult : Type := mkClusterResult {
  cluster : Behavior;
  cluster_score : Q;
  avg_concession_pct : Q
}.

Definition default_cluster : ClusterResult := mkClusterResult moderate 0.5 0.0.

(** The list [concessions] built by the loop of [cluster_behavior]: one
    percentage per consecutive pair whose first offer is positive. *)
Fixpoint concession_pcts (offer_history : list Q) : list Q :=
  match offer_history with
  | prev_offer :: (curr_offer :: _) as tl =>
      if Qltb 0 prev_offer
      then Qabs (curr_offer - prev_offer) / prev_offer * 100 :: concession_pcts tl
      else concession_pcts tl
  | _ => []
  end.

(** [cluster_behavior]; it reads no attribute of [self]. *)
Definition cluster_behavior (offer_history : list Q) : ClusterResult :=
  if (length offer_history <? 2)%nat then default_cluster
  else
    match concession_pcts offer_history with
    | [] => default_cluster
    | concessions =>
        let avg := np_mean concessions in
        if Qltb avg 2.0 then mkClusterResult stubborn 0.9 avg
        else if Qltb avg 7.0 then mkClusterResult moderate 0.5 avg
        else mkClusterResult cooperative 0.1 avg
    end.

(** *** Module 3: acceptance prediction *)

Inductive Prediction : Set := reject | likely_accept | overpay_accept | unknown.

Record AcceptanceResult : Type := mkAcceptanceResult {
  prediction : Prediction;
  acceptance_probability : Q;
  fair_low : Q;
  fair_high : Q
}.

(** [predict_acceptance]. *)
Definition predict_acceptance (offer target_price : Q) : AcceptanceResult :=
  let fair_low := target_price * 0.95 in
  let fair_high := target_price * 1.05 in
  if Qltb offer fair_low then mkAcceptanceResult reject 0.2 fair_low fair_high
  else if Qle_bool fair_low offer && Qle_bool offer fair_high
       then mkAcceptanceResult likely_accept 0.8 fair_low fair_high
       else mkAcceptanceResult overpay_accept 0.95 fair_low fair_high.

(** *** Module 4: belief engine *)

(** [update_beliefs]. *)
Definition update_beliefs (self : UnifiedNegotiationAgent) (opponent_offer : Q)
    : UnifiedNegotiationAgent :=
  let history := opponent_offer_history self ++ [opponent_offer] in
  let rc := (round_count self + 1)%Z in
  let b := beliefs self in
  let target :=
    match belief_target_price b with
    | None => opponent_offer
    | Some old => 0.7 * old + 0.3 * opponent_offer
    end in
  let two := (2 <=? length history)%nat in
  let cluster_result := cluster_behavior history in
  let stubbornness :=
    if two then cluster_score cluster_result else belief_stubbornness b in
  let patience :=
    if two then
      let first_offer := hd 0 history in
      let last_offer := last history 0 in
      let total_movement := Qabs (last_offer - first_offer) in
      let price_range := max_price (base self) - min_price (base self) in
      let expected_movement_patient := price_range * 0.1 * inject_Z rc in
      if Qltb total_movement expected_movement_patient then 0.8
      else if Qltb (expected_movement_patient * 2) total_movement then 0.2
      else 0.5
    else belief_patience b in
  mkUnifiedNegotiationAgent (base self) (risk_weights self) (opt_weights self)
    (mkBeliefs (Some target) stubbornness patience) history
    (my_offer_history self) rc
    (if two then Some (cluster cluster_result) else cached_cluster self)
    (if two then Some (cluster_score cluster_result) else cached_cluster_score self).

(** *** Module 5: optimisation *)

(** [np.linspace(start, stop, num)]. *)
Definition np_linspace (start stop : Q) (num : nat) : list Q :=
  map (fun i => start + inject_Z (Z.of_nat i)
                        * ((stop - start) / inject_Z (Z.of_nat (num - 1))))
      (seq 0 num).

Record ScoreDetails : Type := mkScoreDetails {
  d_utility : Q;
  d_fairness : Q;
  d_risk_penalty : Q;
  d_stubbornness_penalty : Q
}.

(** The three variables the search loop of [optimize_offer] carries;
    [None] as [max_score] is [float('-inf')] and [None] as details is the
    empty dictionary. *)
Record Best : Type := mkBest {
  best_price : Q;
  max_score : option Q;
  score_details : option ScoreDetails
}.

(** The opponent target assumed by [optimize_offer]. *)
Definition assumed_opponent_target (self : UnifiedNegotiationAgent)
    (opponent_offer : option Q) : Q :=
  match opponent_offer, belief_target_price (beliefs self) with
  | Some _, Some t => t
  | _, _ =>
      let midpoint := (min_price (base self) + max_price (base self)) / 2 in
      midpoint + (midpoint - target_price (base self))
  end.

(** One iteration of the search loop for the candidate [price]. *)
Definition consider (self : UnifiedNegotiationAgent) (opponent_target : Q)
    (risk_score stubbornness : Q) (best : Best) (price : Q) : Best :=
  let u := utility (base self) price in
  let opponent_max := max_price (base self) in
  let opponent_min := min_price (base self) in
  let opponent_util :=
    1 - Qabs (price - opponent_target) / Qmax 1 (Qabs (opponent_max - opponent_min)) in
  let fairness := 1 - Qabs (u - opponent_util) in
  let score :=
    w_utility (opt_weights self) * u
    + w_fairness (opt_weights self) * fairness
    - w_risk (opt_weights self) * risk_score
    - w_stubbornness (opt_weights self) * stubbornness in
  let better :=
    match max_score best with
    | None => true
    | Some m => Qltb m score
    end in
  if better then
    mkBest price (Some score)
      (Some (mkScoreDetails u fairness
               (w_risk (opt_weights self) * risk_score)
               (w_stubbornness (opt_weights self) * stubbornness)))
  else best.

(** [optimize_offer]. *)
Definition optimize_offer (self : UnifiedNegotiationAgent)
    (opponent_offer : option Q) (risk_score stubbornness : Q) : Best :=
  let candidate_prices :=
    np_linspace (min_price (base self)) (max_price (base self)) 20 in
  fold_left
    (consider self (assumed_opponent_target self opponent_offer)
       risk_score stubbornness)
    candidate_prices
    (mkBest (target_price (base self)) None None).

(** *** Module 1 and the main proposal method *)

Inductive RiskLabel : Set := low | medium | high.

Record RiskEvaluation : Type := mkRiskEvaluation {
  risk_score : Q;
  risk_label : RiskLabel
}.

Record Proposal : Type := mkProposal {
  price : Q;
  risk_evaluation : RiskEvaluation;
  behavior_cluster : ClusterResult;
  acceptance_prediction : AcceptanceResult;
  proposal_beliefs : Beliefs;
  optimization : Best
}.

Section WithSigmoid.

(** [utils.sigmoid] clips its argument and goes through [np.exp]; the
    strategy is embedded for an arbitrary float function in its place. *)
Variable sigmoid : Q -> Q.

(** [evaluate_risk] on the three entries of [tx_data]. *)
Definition evaluate_risk (self : UnifiedNegotiationAgent)
    (amount age_days tx_count : Q) : RiskEvaluation :=
  let linear_combination :=
    w_amount (risk_weights self) * amount
    + w_age_days (risk_weights self) * age_days
    + w_tx_count (risk_weights self) * tx_count in
  let risk_score := sigmoid linear_combination in
  mkRiskEvaluation risk_score
    (if Qltb risk_score 0.33 then low
     else if Qltb risk_score 0.67 then medium
     else high).

(** [UnifiedNegotiationAgent.propose]: the result dictionary (its
    [explanation] string apart) and the object after the call. *)
Definition propose (self : UnifiedNegotiationAgent) (last_offer : option Q)
    : Proposal * UnifiedNegotiationAgent :=
  let risk_eval :=
    evaluate_risk self
      (Qabs (target_price (base self) * inject_Z (quantity (base self)))) 30.0 10 in
  let behavior_cluster :=
    match last_offer, opponent_offer_history self with
    | Some _, _ :: _ => cluster_behavior (opponent_offer_history self)
    | _, _ => default_cluster
    end in
  let self :=
    match last_offer with
    | Some o => update_beliefs self o
    | None => self
    end in
  let b := beliefs self in
  let stubbornness := belief_stubbornness b in
  let acceptance_pred :=
    match belief_target_price b with
    | Some t => predict_acceptance (target_price (base self)) t
    | None =>
        mkAcceptanceResult unknown 0.5
          (min_price (base self)) (max_price (base self))
    end in
  let optimization :=
    optimize_offer self last_offer (risk_score risk_eval) stubbornness in
  let proposed_price := best_price optimization in
  (mkProposal proposed_price risk_eval behavior_cluster acceptance_pred b
     optimization,
   mkUnifiedNegotiationAgent (base self) (risk_weights self) (opt_weights self)
     (beliefs self) (opponent_offer_history self)
     (my_offer_history self ++ [proposed_price]) (round_count self)
     (cached_cluster self) (cached_cluster_score self)).

(** [propose_price]. *)
Definition propose_price (self : UnifiedNegotiationAgent) (last_offer : option Q)
    : Q * UnifiedNegotiationAgent :=
  let (result, self) := propose self last_offer in
  (price result, self).

End WithSigmoid.

End UCNA.

(** ** agents.py: run_negotiation_loop *)

(** An agent object as the loop receives it: declared as [BaseAgent], it
    may be an instance of the subclass, whose [propose] then runs. *)
Inductive AgentObj : Type :=
| Plain (a : BaseAgent)
| Modeling (t : ToM.TheoryOfMindAgent).

(** The [BaseAgent] attributes of an object. *)
Definition attrs (o : AgentObj) : BaseAgent :=
  match o with
  | Plain a => a
  | Modeling t => ToM.base t
  end.

(** [o.propose(last)] by dynamic dispatch: the offer and the object after
    the call. *)
Definition obj_propose (o : AgentObj) (last : option Q) : Q * AgentObj :=
  match o with
  | Plain a => (BaseAgent_propose a last, Plain a)
  | Modeling t => let (p, t') := ToM.propose t last in (p, Modeling t')
  end.

(** The insights recorded for an active agent when [use_tom] is set. *)
Definition obj_summary (o : AgentObj) : option ModelSummary :=
  match o with
  | Plain _ => None
  | Modeling t => Some (ToM.get_opponent_model_summary t)
  end.

(** One entry of the timeline. *)
Record RoundRecord : Type := mkRoundRecord {
  rr_round : Z;
  rr_buyer_offer : Q;
  rr_seller_offer : Q;
  rr_buyer_util : Q;
  rr_seller_util : Q;
  rr_fairness : Q;
  rr_proportional_fairness : R;
  rr_buyer_explanation : Explanation;
  rr_seller_explanation : Explanation;
  rr_buyer_tom_insights : option ModelSummary;
  rr_seller_tom_insights : option ModelSummary;
  rr_market_price : option Q
}.

(** The agreement dictionary. *)
Record Agreement : Type := mkAgreement {
  ag_price : Q;
  ag_quantity : Z;
  ag_fairness : Q;
  ag_proportional_fairness : R;
  ag_buyer_utility : Q;
  ag_seller_utility : Q
}.

(** The finalisation code, which the source repeats after the stop test and
    after the loop: the mean of the two offers, and utilities and fairness
    computed at that mean. *)
Definition finalize (buyer_agent seller_agent : BaseAgent) (bprice sprice : Q)
    : Agreement :=
  let final_price := (bprice + sprice) / 2 in
  let final_buyer_util := utility buyer_agent final_price in
  let final_seller_util := utility seller_agent final_price in
  mkAgreement final_price (quantity buyer_agent)
    (simple_fairness final_buyer_util final_seller_util)
    (calculate_proportional_fairness final_buyer_util final_seller_util)
    final_buyer_util final_seller_util.

(** [abs(bprice - sprice) <= 1.0 or simple_fairness >= 0.9]. *)
Definition stop_condition (bprice sprice fairness : Q) : bool :=
  Qle_bool (Qabs (bprice - sprice)) 1 || Qle_bool 0.9 fairness.

Definition record_stops (rec : RoundRecord) : bool :=
  stop_condition (rr_buyer_offer rec) (rr_seller_offer rec) (rr_fairness rec).

(** What the loop carries from one round to the next: the two active agent
    objects and the seller's last offer ([last_buyer] is only read after the
    loop). *)
Record LoopState : Type := mkLoopState {
  active_buyer : AgentObj;
  active_seller : AgentObj;
  last_buyer : option Q;
  last_seller : option Q
}.

(** The body of the [for] loop up to [timeline.append]: the record of round
    [r] and the state after it. *)
Definition negotiation_round (buyer_agent seller_agent : BaseAgent)
    (use_tom : bool) (r : Z) (st : LoopState) : RoundRecord * LoopState :=
  let (bprice, ab) := obj_propose (active_buyer st) (last_seller st) in
  let buyer_util := utility buyer_agent bprice in
  let (sprice, asl) := obj_propose (active_seller st) (Some bprice) in
  let seller_util := utility seller_agent sprice in
  let fairness := simple_fairness buyer_util seller_util in
  let proportional_fairness :=
    calculate_proportional_fairness buyer_util seller_util in
  let buyer_tom_insights := if use_tom then obj_summary ab else None in
  let seller_tom_insights := if use_tom then obj_summary asl else None in
  let buyer_explanation :=
    explain_offer buyer bprice (last_seller st) (target_price buyer_agent)
      (concession_rate buyer_agent) (aggressiveness buyer_agent)
      fairness (market_price buyer_agent) buyer_tom_insights in
  let seller_explanation :=
    explain_offer seller sprice (Some bprice) (target_price seller_agent)
      (concession_rate seller_agent) (aggressiveness seller_agent)
      fairness (market_price seller_agent) seller_tom_insights in
  (mkRoundRecord r bprice sprice buyer_util seller_util fairness
     proportional_fairness buyer_explanation seller_explanation
     buyer_tom_insights seller_tom_insights
     (py_or (market_price buyer_agent) (market_price seller_agent)),
   mkLoopState ab asl (Some bprice) (Some sprice)).

(** The [for] loop with [n] iterations left, and the code after it.  The
    result carries the active objects as the call leaves them. *)
Fixpoint negotiation_rounds (buyer_agent seller_agent : BaseAgent)
    (use_tom : bool) (n : nat) (r : Z) (st : LoopState)
    (timeline : list RoundRecord)
    : PyResult (list RoundRecord * Agreement) * LoopState :=
  match n with
  | O =>
      match last_buyer st, last_seller st with
      | Some lb, Some ls =>
          (Return (timeline, finalize buyer_agent seller_agent lb ls), st)
      | _, _ => (Raise TypeError, st)
      end
  | S n' =>
      let (rec, st') := negotiation_round buyer_agent seller_agent use_tom r st in
      let timeline := timeline ++ [rec] in
      if record_stops rec then
        (Return (timeline,
                 finalize buyer_agent seller_agent
                   (rr_buyer_offer rec) (rr_seller_offer rec)),
         st')
      else negotiation_rounds buyer_agent seller_agent use_tom n' (r + 1)%Z st' timeline
  end.

(** The objects the loop negotiates with: fresh opponent-modelling agents
    built from six attributes of the arguments when [use_tom] is set, the
    arguments themselves otherwise.  (The [ImportError] fallback does not
    arise: the imported module is part of the package.) *)
Definition activate (use_tom : bool) (agent : AgentObj) : AgentObj :=
  if use_tom then
    Modeling (ToM.init (address (attrs agent)) (target_price (attrs agent))
                (min_price (attrs agent)) (max_price (attrs agent))
                (quantity (attrs agent)) (fairness_weight (attrs agent))
                ToM.default_tom_level)
  else agent.

(** The state in which the loop is entered. *)
Definition initial_state (buyer_agent seller_agent : AgentObj) (use_tom : bool)
    : LoopState :=
  mkLoopState (activate use_tom buyer_agent) (activate use_tom seller_agent)
    None None.

(** [run_negotiation_loop] on two agent objects: its result, and the two
    argument objects as the call leaves them.  With [use_tom] the active
    agents are local to the call; without it they are the arguments. *)
Definition run_negotiation_loop_obj (buyer_agent seller_agent : AgentObj)
    (max_rounds : Z) (use_tom : bool)
    : PyResult (list RoundRecord * Agreement) * (AgentObj * AgentObj) :=
  let (res, st) :=
    negotiation_rounds (attrs buyer_agent) (attrs seller_agent) use_tom
      (Z.to_nat max_rounds) 1%Z
      (initial_state buyer_agent seller_agent use_tom) [] in
  (res,
   if use_tom then (buyer_agent, seller_agent)
   else (active_buyer st, active_seller st)).

(** [run_negotiation_loop] on two plain [BaseAgent]s. *)
Definition run_negotiation_loop (buyer_agent seller_agent : BaseAgent)
    (max_rounds : Z) (use_tom : bool)
    : PyResult (list RoundRecord * Agreement) :=
  fst (run_negotiation_loop_obj (Plain buyer_agent) (Plain seller_agent)
         max_rounds use_tom).

(** The negotiation continued for [k] rounds from [st0] with no stop test:
    the state after round [k]. *)
Fixpoint state_after (buyer_agent seller_agent : BaseAgent) (use_tom : bool)
    (st0 : LoopState) (k : nat) : LoopState :=
  match k with
  | O => st0
  | S k' =>
      snd (negotiation_round buyer_agent seller_agent use_tom (Z.of_nat k)
             (state_after buyer_agent seller_agent use_tom st0 k'))
  end.

(** The record of round [k], for [k >= 1], of that continued negotiation. *)
Definition round_record (buyer_agent seller_agent : BaseAgent) (use_tom : bool)
    (st0 : LoopState) (k : nat) : RoundRecord :=
  fst (negotiation_round buyer_agent seller_agent use_tom (Z.of_nat k)
         (state_after buyer_agent seller_agent use_tom st0 (k - 1))).

(** The records of the rounds of a negotiation between two plain agents. *)
Definition nth_round (buyer_agent seller_agent : BaseAgent) (use_tom : bool)
    (k : nat) : RoundRecord :=
  round_record buyer_agent seller_agent use_tom
    (initial_state (Plain buyer_agent) (Plain seller_agent) use_tom) k.

(** The stop condition as the specification words it:
    [|buyer_offer - seller_offer| <= 1.0] or [simple_fairness >= 0.9]. *)
Definition triggers (rec : RoundRecord) : Prop :=
  Qabs (rr_buyer_offer rec - rr_seller_offer rec) <= 1 \/ 0.9 <= rr_fairness rec.

(** ** agents.py: the auxiliary classes *)

Section WashTrade.

(** The entries of [recent_pairs]: any hashable values. *)
Variable A : Type.
Variable A_eq_dec : forall x y : A, {x = y} + {x <> y}.

(** [WashTradeDetector.suspicious]; [len(set(l))] is the number of distinct
    entries of [l]. *)
Definition WashTradeDetector_suspicious (recent_pairs : list A) : bool :=
  if (length recent_pairs <? 4)%nat then false
  else (length (nodup A_eq_dec (last_k 4 recent_pairs)) <? 4)%nat.

End WashTrade.

(** [Reputation.scores]: a dictionary from addresses to scores, kept as the
    list of its items in insertion order. *)
Definition Scores : Type := list (string * Q).

Fixpoint scores_lookup (scores : Scores) (addr : string) : option Q :=
  match scores with
  | [] => None
  | (k, v) :: rest => if String.eqb k addr then Some v else scores_lookup rest addr
  end.

(** [scores[addr] = v]: an existing key keeps its place. *)
Fixpoint scores_store (scores : Scores) (addr : string) (v : Q) : Scores :=
  match scores with
  | [] => [(addr, v)]
  | (k, w) :: rest =>
      if String.eqb k addr then (k, v) :: rest
      else (k, w) :: scores_store rest addr v
  end.

(** [Reputation.__init__]. *)
Definition Reputation_init : Scores := [].

(** [Reputation.get]: [self.scores.get(addr, 0.5)]. *)
Definition Reputation_get (self : Scores) (addr : string) : Q :=
  match scores_lookup self addr with
  | Some v => v
  | None => 0.5
  end.

(** [Reputation.update]. *)
Definition Reputation_update (self : Scores) (addr : string) (delta : Q) : Scores :=
  scores_store self addr (Qmax 0.0 (Qmin 1.0 (Reputation_get self addr + delta))).

(** ** theory_of_mind_agent.py: run_tom_negotiation_loop *)

(** One entry of the timeline of [run_tom_negotiation_loop]. *)
Record TomRound : Type := mkTomRound {
  tr_round : Z;
  tr_buyer_offer : Q;
  tr_seller_offer : Q;
  tr_buyer_util : Q;
  tr_seller_util : Q;
  tr_fairness : Q;
  tr_buyer_tom_insights : ModelSummary;
  tr_seller_tom_insights : ModelSummary
}.

(** Its agreement dictionary. *)
Record TomAgreement : Type := mkTomAgreement {
  ta_price : Q;
  ta_quantity : Z;
  ta_fairness : Q;
  ta_rounds : Z
}.

(** The two argument objects and the two variables the loop carries. *)
Record TomLoopState : Type := mkTomLoopState {
  tl_buyer : ToM.TheoryOfMindAgent;
  tl_seller : ToM.TheoryOfMindAgent;
  tl_last_buyer : option Q;
  tl_last_seller : option Q
}.

(** The body of its [for] loop up to [timeline.append]. *)
Definition tom_round (r : Z) (st : TomLoopState) : TomRound * TomLoopState :=
  let (bprice, buyer_agent) := ToM.propose (tl_buyer st) (tl_last_seller st) in
  let buyer_util := utility (ToM.base buyer_agent) bprice in
  let buyer_tom := ToM.get_opponent_model_summary buyer_agent in
  let (sprice, seller_agent) := ToM.propose (tl_seller st) (Some bprice) in
  let seller_util := utility (ToM.base seller_agent) sprice in
  let seller_tom := ToM.get_opponent_model_summary seller_agent in
  let fairness := simple_fairness buyer_util seller_util in
  (mkTomRound r bprice sprice buyer_util seller_util fairness buyer_tom seller_tom,
   mkTomLoopState buyer_agent seller_agent (Some bprice) (Some sprice)).

(** [timeline[-1]["fairness"] if timeline else 1.0]. *)
Definition last_fairness (timeline : list TomRound) : Q :=
  match timeline with
  | [] => 1.0
  | rec :: rest => tr_fairness (last (rec :: rest) rec)
  end.

(** The [for] loop with [n] iterations left, [max_rounds] being the loop
    bound, and the code after it; the result carries the two agent objects
    as the call leaves them. *)
Fixpoint tom_rounds (max_rounds : Z) (n : nat) (r : Z) (st : TomLoopState)
    (timeline : list TomRound)
    : PyResult (list TomRound * TomAgreement) * TomLoopState :=
  match n with
  | O =>
      match tl_last_buyer st, tl_last_seller st with
      | Some lb, Some ls =>
          (Return (timeline,
                   mkTomAgreement ((lb + ls) / 2) (quantity (ToM.base (tl_buyer st)))
                     (last_fairness timeline) max_rounds),
           st)
      | _, _ => (Raise TypeError, st)
      end
  | S n' =>
      let (rec, st') := tom_round r st in
      let timeline := timeline ++ [rec] in
      if stop_condition (tr_buyer_offer rec) (tr_seller_offer rec) (tr_fairness rec)
      then
        (Return (timeline,
                 mkTomAgreement ((tr_buyer_offer rec + tr_seller_offer rec) / 2)
                   (quantity (ToM.base (tl_buyer st'))) (tr_fairness rec) r),
         st')
      else tom_rounds max_rounds n' (r + 1)%Z st' timeline
  end.

(** [run_tom_negotiation_loop]. *)
Definition run_tom_negotiation_loop (buyer_agent seller_agent : ToM.TheoryOfMindAgent)
    (max_rounds : Z)
    : PyResult (list TomRound * TomAgreement) * TomLoopState :=
  tom_rounds max_rounds (Z.to_nat max_rounds) 1%Z
    (mkTomLoopState buyer_agent seller_agent None None) [].

(** ** routes.py: the agents of run_auto *)

(** The attributes of a session row that [run_auto] hands to the agents,
    taken as present (a missing number fails in [float()] or [int()]). *)
Record SessionRow : Type := mkSessionRow {
  s_role : string;
  s_buyer_address : option string;
  s_seller_address : option string;
  s_target_price : Q;
  s_min_price : Q;
  s_max_price : Q;
  s_quantity : Z;
  s_fairness_weight : Q;
  s_max_rounds : Z;
  s_concession_rate : Q;
  s_aggressiveness : Q
}.

(** [addr or default] on an optional string: [None] and [""] are falsy. *)
Definition address_or (addr : option string) (default : string) : string :=
  match addr with
  | Some a => if String.eqb a "" then default else a
  | None => default
  end.

(** The buyer and seller agents [run_auto] builds: the user's parameters for
    the user's side, and a counterparty whose target sits at 80% (seller) or
    20% (buyer) of the user's price range. *)
Definition run_auto_agents (s : SessionRow) (market_price : option Q)
    : BaseAgent * BaseAgent :=
  let buyer_address :=
    address_or (s_buyer_address s) "0x0000000000000000000000000000000000000000" in
  let seller_address :=
    address_or (s_seller_address s) "0x1111111111111111111111111111111111111111" in
  let agent addr target :=
    BaseAgent_init addr target (s_min_price s) (s_max_price s) (s_quantity s)
      (s_fairness_weight s) (s_concession_rate s) (s_aggressiveness s)
      market_price in
  if String.eqb (s_role s) "buyer" then
    let buyer_agent := agent buyer_address (s_target_price s) in
    let seller_target :=
      s_min_price s + (s_max_price s - s_min_price s) * 0.8 in
    (buyer_agent, agent seller_address seller_target)
  else
    let seller_agent := agent seller_address (s_target_price s) in
    let buyer_target :=
      s_min_price s + (s_max_price s - s_min_price s) * 0.2 in
    (agent buyer_address buyer_target, seller_agent).

(** The negotiation [run_auto] runs on them. *)
Definition run_auto_negotiation (s : SessionRow) (market_price : option Q)
    : PyResult (list RoundRecord * Agreement) :=
  let (buyer_agent, seller_agent) := run_auto_agents s market_price in
  run_negotiation_loop buyer_agent seller_agent (s_max_rounds s) false.

(** ** agents.py: AdaptiveAgent *)

(** The errors its [update] can raise. *)
Inductive UpdateError : Set := ValueError | IndexError.

(** [table[i]] on an array with [n] rows: a negative index counts from the
    end, an index outside [[-n, n)] is an [IndexError]. *)
Definition np_index (n : nat) (i : Z) : option nat :=
  if ((0 <=? i) && (i <? Z.of_nat n))%Z then Some (Z.to_nat i)
  else if ((- Z.of_nat n <=? i) && (i <? 0))%Z then Some (Z.to_nat (i + Z.of_nat n))
  else None.

(** [np.max(row)]; it raises on an empty row. *)
Definition np_max (row : list Q) : option Q :=
  match row with
  | [] => None
  | x :: rest => Some (fold_left Qmax rest x)
  end.

(** [l[i] = v] for an index inside the list. *)
Fixpoint list_set {A : Type} (l : list A) (i : nat) (v : A) : list A :=
  match l, i with
  | [], _ => []
  | _ :: rest, O => v :: rest
  | x :: rest, S i' => x :: list_set rest i' v
  end.

Section Adaptive.

(** The actions: any values with an equality. *)
Variable Action : Type.
Variable Action_eq_dec : forall x y : Action, {x = y} + {x <> y}.

(** [actions.index(action)]; [None] is the [ValueError] of a missing
    value. *)
Fixpoint list_index (action : Action) (actions : list Action) : option nat :=
  match actions with
  | [] => None
  | a :: rest =>
      if Action_eq_dec a action then Some O
      else match list_index action rest with
           | Some i => Some (S i)
           | None => None
           end
  end.

Record AdaptiveAgent : Type := mkAdaptiveAgent {
  aa_agent_id : string;
  aa_actions : list Action;
  aa_state_space_size : nat;
  aa_q_table : list (list Q);
  aa_epsilon : Q;
  aa_alpha : Q;
  aa_gamma : Q;
  aa_target_price : Q;
  aa_min_price : Q;
  aa_max_price : Q;
  aa_quantity : Z
}.

(** [AdaptiveAgent.__init__], for a non-negative [state_space_size]. *)
Definition AdaptiveAgent_init (agent_id : string) (actions : list Action)
    (state_space_size : nat) (target_price min_price max_price : Q) (quantity : Z)
    : AdaptiveAgent :=
  mkAdaptiveAgent agent_id actions state_space_size
    (repeat (repeat 0.0 (length actions)) state_space_size)
    0.1 0.5 0.9 target_price min_price max_price quantity.

(** [AdaptiveAgent.update]: the error raised, or the agent after the call. *)
Definition AdaptiveAgent_update (self : AdaptiveAgent) (state : Z) (action : Action)
    (reward : Q) (next_state : Z) : UpdateError + AdaptiveAgent :=
  let table := aa_q_table self in
  match list_index action (aa_actions self) with
  | None => inl ValueError
  | Some a_idx =>
      match np_index (length table) next_state with
      | None => inl IndexError
      | Some ns =>
          match np_max (nth ns table []) with
          | None => inl ValueError
          | Some best_next =>
              match np_index (length table) state with
              | None => inl IndexError
              | Some st =>
                  match nth_error (nth st table []) a_idx with
                  | None => inl IndexError
                  | Some old =>
                      let updated :=
                        old + aa_alpha self
                              * (reward + aa_gamma self * best_next - old) in
                      inr (mkAdaptiveAgent (aa_agent_id self) (aa_actions self)
                             (aa_state_space_size self)
                             (list_set table st
                                (list_set (nth st table []) a_idx updated))
                             (aa_epsilon self) (aa_alpha self) (aa_gamma self)
                             (aa_target_price self) (aa_min_price self)
                             (aa_max_price self) (aa_quantity self))
                  end
              end
          end
      end
  end.

(** A sequence of [update] calls [(state, action, reward, next_state)], up
    to the first one that raises. *)
Fixpoint AdaptiveAgent_updates (self : AdaptiveAgent)
    (steps : list (Z * Action * Q * Z)) : UpdateError + AdaptiveAgent :=
  match steps with
  | [] => inr self
  | (state, action, reward, next_state) :: rest =>
      match AdaptiveAgent_update self state action reward next_state with
      | inl e => inl e
      | inr self' => AdaptiveAgent_updates self' rest
      end
  end.

(** Every entry of the table lies in [[lo, hi]]. *)
Definition table_within (lo hi : Q) (table : list (list Q)) : Prop :=
  Forall (Forall (fun q => lo <= q /\ q <= hi)) table.

End Adaptive.

Arguments list_index {Action} Action_eq_dec action actions.
Arguments AdaptiveAgent_init {Action} agent_id actions state_space_size target_price min_price max_price quantity.
Arguments AdaptiveAgent_update {Action} Action_eq_dec self state action reward next_state.
Arguments AdaptiveAgent_updates {Action} Action_eq_dec self steps.
Arguments aa_agent_id {Action} a.
Arguments aa_actions {Action} a.
Arguments aa_state_space_size {Action} a.
Arguments aa_q_table {Action} a.
Arguments aa_epsilon {Action} a.
Arguments aa_alpha {Action} a.
Arguments aa_gamma {Action} a.
Arguments aa_target_price {Action} a.
Arguments aa_min_price {Action} a.
Arguments aa_max_price {Action} a.
Arguments aa_quantity {Action} a.

(** ** routes.py: the offers of run_auto and get_timeline *)

(** A row of the [Offer] table, without its keys and its JSON payload. *)
Record OfferRow : Type := mkOfferRow {
  o_round : Z;
  o_made_by : string;
  o_price : Q;
  o_quantity : Z;
  o_fairness : Q;
  o_proportional_fairness : option R;
  o_utility : Q;
  o_explanation : option Explanation;
  o_tom_insights : option ModelSummary
}.

(** The two rows [run_auto] adds for one entry of the timeline. *)
Definition buyer_row (quantity : Z) (round_data : RoundRecord) : OfferRow :=
  mkOfferRow (rr_round round_data) "buyer" (rr_buyer_offer round_data) quantity
    (rr_fairness round_data) (Some (rr_proportional_fairness round_data))
    (rr_buyer_util round_data) (Some (rr_buyer_explanation round_data))
    (rr_buyer_tom_insights round_data).

Definition seller_row (quantity : Z) (round_data : RoundRecord) : OfferRow :=
  mkOfferRow (rr_round round_data) "seller" (rr_seller_offer round_data) quantity
    (rr_fairness round_data) (Some (rr_proportional_fairness round_data))
    (rr_seller_util round_data) (Some (rr_seller_explanation round_data))
    (rr_seller_tom_insights round_data).

(** The rows [run_auto] stores, in the order it adds them. *)
Definition stored_offers (quantity : Z) (timeline : list RoundRecord) : list OfferRow :=
  flat_map (fun round_data =>
              [buyer_row quantity round_data; seller_row quantity round_data])
           timeline.

(** An entry of the timeline [get_timeline] rebuilds. *)
Record TimelineRow : Type := mkTimelineRow {
  t_round : Z;
  t_buyer_offer : option Q;
  t_seller_offer : option Q;
  t_buyer_util : option Q;
  t_seller_util : option Q;
  t_fairness : Q;
  t_proportional_fairness : option R;
  t_buyer_explanation : option Explanation;
  t_seller_explanation : option Explanation
}.

(** [rounds_data]: a dictionary from round numbers to entries, kept as the
    list of its items in insertion order. *)
Definition RoundsData : Type := list (Z * TimelineRow).

Fixpoint rounds_member (d : RoundsData) (k : Z) : bool :=
  match d with
  | [] => false
  | (k', _) :: rest => if (k' =? k)%Z then true else rounds_member rest k
  end.

(** [d[k][field] = ...]: the entry under an existing key is changed in
    place. *)
Fixpoint rounds_modify (d : RoundsData) (k : Z) (f : TimelineRow -> TimelineRow)
    : RoundsData :=
  match d with
  | [] => []
  | (k', v) :: rest =>
      if (k' =? k)%Z then (k', f v) :: rest
      else (k', v) :: rounds_modify rest k f
  end.

(** The body of the grouping loop of [get_timeline] for one offer. *)
Definition group_offer (rounds_data : RoundsData) (offer : OfferRow) : RoundsData :=
  let round_num := o_round offer in
  let rounds_data :=
    if rounds_member rounds_data round_num then rounds_data
    else rounds_data
         ++ [(round_num,
              mkTimelineRow round_num None None None None (o_fairness offer)
                (o_proportional_fairness offer) None None)] in
  if String.eqb (o_made_by offer) "buyer" then
    rounds_modify rounds_data round_num
      (fun row =>
         mkTimelineRow (t_round row) (Some (o_price offer)) (t_seller_offer row)
           (Some (o_utility offer)) (t_seller_util row) (t_fairness row)
           (t_proportional_fairness row) (o_explanation offer)
           (t_seller_explanation row))
  else
    rounds_modify rounds_data round_num
      (fun row =>
         mkTimelineRow (t_round row) (t_buyer_offer row) (Some (o_price offer))
           (t_buyer_util row) (Some (o_utility offer)) (t_fairness row)
           (t_proportional_fairness row) (t_buyer_explanation row)
           (o_explanation offer)).

(** The timeline [get_timeline] returns for the offers its query yields. *)
Definition get_timeline (offers : list OfferRow) : list TimelineRow :=
  map snd (fold_left group_offer offers []).

(** What [get_timeline] should give back for an entry of the timeline. *)
Definition shown (round_data : RoundRecord) : TimelineRow :=
  mkTimelineRow (rr_round round_data)
    (Some (rr_buyer_offer round_data)) (Some (rr_seller_offer round_data))
    (Some (rr_buyer_util round_data)) (Some (rr_seller_util round_data))
    (rr_fairness round_data) (Some (rr_proportional_fairness round_data))
    (Some (rr_buyer_explanation round_data))
    (Some (rr_seller_explanation round_data)).

(** The stored rows in an order a query sorted by round may yield: the two
    rows of a round in either order. *)
Definition offers_by_round (quantity : Z) (seller_first : RoundRecord -> bool)
    (timeline : list RoundRecord) : list OfferRow :=
  flat_map (fun round_data =>
              if seller_first round_data
              then [seller_row quantity round_data; buyer_row quantity round_data]
              else [buyer_row quantity round_data; seller_row quantity round_data])
           timeline.


(** ** routes.py: finalize_agreement *)

(** [int(x)] on a float: truncation toward zero. *)
Definition py_int (x : Q) : Z := Z.quot (Qnum x) (Zpos (Qden x)).

(** The arguments [finalize_agreement] passes to [agreement_hash]. *)
Record HashArguments : Type := mkHashArguments {
  h_buyer : string;
  h_seller : string;
  h_price : Z;
  h_qty : Z
}.

(** What [finalize_agreement] returns, with the arguments of the hash in
    the place of the hash. *)
Record Finalized : Type := mkFinalized {
  f_hash_arguments : HashArguments;
  f_price : Q;
  f_quantity : Z;
  f_buyer_address : option string;
  f_seller_address : option string;
  f_final_fairness : option Q;
  f_final_proportional_fairness : option R;
  f_buyer_utility : option Q;
  f_seller_utility : option Q
}.

(** The loop over [latest_offers] that picks the two utilities. *)
Definition pick_utilities (latest_offers : list OfferRow) : option Q * option Q :=
  fold_left (fun acc offer =>
               if String.eqb (o_made_by offer) "buyer"
               then (Some (o_utility offer), snd acc)
               else (fst acc, Some (o_utility offer)))
            latest_offers (None, None).

(** The body of the [try] block of [finalize_agreement], for the session
    and the offers its two queries yield: the status code of the
    [HTTPException] it raises, or its result. *)
Definition finalize_agreement_body (session : option SessionRow)
    (latest_offers : list OfferRow) : Z + Finalized :=
  match session with
  | None => inl 404%Z
  | Some session =>
      match latest_offers with
      | [] => inl 400%Z
      | first :: others =>
          let final_price :=
            match others with
            | second :: _ => (o_price first + o_price second) / 2
            | [] => o_price first
            end in
          let hash_arguments :=
            mkHashArguments
              (address_or (s_buyer_address session)
                 "0x0000000000000000000000000000000000000000")
              (address_or (s_seller_address session)
                 "0x0000000000000000000000000000000000000000")
              (py_int final_price)
              (if (s_quantity session =? 0)%Z then 1%Z else s_quantity session) in
          let (buyer_utility, seller_utility) := pick_utilities latest_offers in
          inr (mkFinalized hash_arguments final_price (s_quantity session)
                 (s_buyer_address session) (s_seller_address session)
                 (Some (o_fairness first)) (o_proportional_fairness first)
                 buyer_utility seller_utility)
      end
  end.

(** [finalize_agreement]: the [except Exception] clause around the body
    catches the body's own [HTTPException]s and raises status 500. *)
Definition finalize_agreement (session : option SessionRow)
    (latest_offers : list OfferRow) : Z + Finalized :=
  match finalize_agreement_body session latest_offers with
  | inl _ => inl 500%Z
  | inr result => inr result
  end.

(** The two newest rows after [run_auto], as a query sorted by descending
    round and limited to two may yield them. *)
Definition latest_rows (quantity : Z) (seller_first : bool) (rec : RoundRecord)
    : list OfferRow :=
  if seller_first then [seller_row quantity rec; buyer_row quantity rec]
  else [buyer_row quantity rec; seller_row quantity rec].

(** ** Notions used in the statements *)

(** What a record of a negotiation between two valid configurations
    satisfies under the base strategy. *)
Definition record_in_bounds (b s : BaseAgent) (rec : RoundRecord) : Prop :=
  (min_price b <= rr_buyer_offer rec /\ rr_buyer_offer rec <= max_price b)
  /\ (min_price s <= rr_seller_offer rec /\ rr_seller_offer rec <= max_price s)
  /\ (0 <= rr_buyer_util rec /\ rr_buyer_util rec <= 1)
  /\ (0 <= rr_seller_util rec /\ rr_seller_util rec <= 1)
  /\ (0 <= rr_fairness rec /\ rr_fairness rec <= 1).

(** [self.concession_rate = c] on an otherwise unchanged configuration. *)
Definition with_concession_rate (c : Q) (a : BaseAgent) : BaseAgent :=
  mkBaseAgent (address a) (target_price a) (min_price a) (max_price a)
    (quantity a) (fairness_weight a) c (aggressiveness a)
    (market_price a) (agent_type a).

(** [self.aggressiveness = g] and [self.market_price = m] on an otherwise
    unchanged configuration. *)
Definition with_style (g : Q) (m : option Q) (a : BaseAgent) : BaseAgent :=
  mkBaseAgent (address a) (target_price a) (min_price a) (max_price a)
    (quantity a) (fairness_weight a) (concession_rate a) g m (agent_type a).

(** The numbers and insights of a record: everything but the two
    explanations and the market price. *)
Definition record_figures (rec : RoundRecord)
    : Z * Q * Q * Q * Q * Q * R * option ModelSummary * option ModelSummary :=
  (rr_round rec, rr_buyer_offer rec, rr_seller_offer rec, rr_buyer_util rec,
   rr_seller_util rec, rr_fairness rec, rr_proportional_fairness rec,
   rr_buyer_tom_insights rec, rr_seller_tom_insights rec).

(** The entries a record of [run_negotiation_loop] shares with one of
    [run_tom_negotiation_loop]. *)
Definition shared_figures (rec : RoundRecord)
    : Z * Q * Q * Q * Q * Q * option ModelSummary * option ModelSummary :=
  (rr_round rec, rr_buyer_offer rec, rr_seller_offer rec, rr_buyer_util rec,
   rr_seller_util rec, rr_fairness rec,
   rr_buyer_tom_insights rec, rr_seller_tom_insights rec).

Definition tom_round_figures (rec : TomRound)
    : Z * Q * Q * Q * Q * Q * option ModelSummary * option ModelSummary :=
  (tr_round rec, tr_buyer_offer rec, tr_seller_offer rec, tr_buyer_util rec,
   tr_seller_util rec, tr_fairness rec,
   Some (tr_buyer_tom_insights rec), Some (tr_seller_tom_insights rec)).

Definition same_prices (a a' : BaseAgent) : Prop :=
  target_price a = target_price a' /\ min_price a = min_price a'
  /\ max_price a = max_price a'.

Definition paired (b s : BaseAgent) (st : LoopState) (ts : TomLoopState) : Prop :=
  active_buyer st = Modeling (tl_buyer ts)
  /\ active_seller st = Modeling (tl_seller ts)
  /\ last_buyer st = tl_last_buyer ts /\ last_seller st = tl_last_seller ts
  /\ same_prices b (ToM.base (tl_buyer ts))
  /\ same_prices s (ToM.base (tl_seller ts))
  /\ quantity b = quantity (ToM.base (tl_buyer ts)).

(** [min(1.0, k / 10.0)] for the window of a history of [n] offers; 0.0, the
    initial confidence, while fewer than three offers have been seen. *)
Definition confidence_after (n : nat) : Q :=
  if (n <? 3)%nat then 0.0
  else Qmin 1 (inject_Z (Z.of_nat (Nat.min 5 n)) / 10).

(** Offers that start at [c] and move by [d] each round. *)
Definition steady_offers (c d : Q) (n : nat) : list Q :=
  map (fun i => c + inject_Z (Z.of_nat i) * d) (seq 0 n).

(** The belief about the opponent's target lies in [[lo, hi]], if there is
    one. *)
Definition belief_within (lo hi : Q) (self : UCNA.UnifiedNegotiationAgent) : Prop :=
  match UCNA.belief_target_price (UCNA.beliefs self) with
  | Some e => lo <= e /\ e <= hi
  | None => True
  end.

(** The score [optimize_offer] gives to a candidate price. *)
Definition objective (self : UCNA.UnifiedNegotiationAgent) (opponent_target : Q)
    (risk_score stubbornness : Q) (price : Q) : Q :=
  let u := utility (UCNA.base self) price in
  let opponent_util :=
    1 - Qabs (price - opponent_target)
        / Qmax 1 (Qabs (max_price (UCNA.base self) - min_price (UCNA.base self))) in
  let fairness := 1 - Qabs (u - opponent_util) in
  UCNA.w_utility (UCNA.opt_weights self) * u
  + UCNA.w_fairness (UCNA.opt_weights self) * fairness
  - UCNA.w_risk (UCNA.opt_weights self) * risk_score
  - UCNA.w_stubbornness (UCNA.opt_weights self) * stubbornness.

(** The state of the search after the candidates [done]: nothing chosen
    yet, or the first candidate of maximal score among them. *)
Definition first_maximum (f : Q -> Q) (done : list Q) (best : UCNA.Best) : Prop :=
  (done = [] /\ UCNA.max_score best = None)
  \/ exists i,
       nth_error done i = Some (UCNA.best_price best)
       /\ UCNA.max_score best = Some (f (UCNA.best_price best))
       /\ (forall c, In c done -> f c <= f (UCNA.best_price best))
       /\ (forall j c, (j < i)%nat -> nth_error done j = Some c ->
                       f c < f (UCNA.best_price best)).

(** The scores after a sequence of [update] calls on a new [Reputation]. *)
Definition reputation_after (updates : list (string * Q)) : Scores :=
  fold_left (fun scores u => Reputation_update scores (fst u) (snd u))
    updates Reputation_init.

(** ** Concrete configurations *)

(** The two agents of [backend/test_negotiation.py]. *)
Definition test_buyer : BaseAgent :=
  BaseAgent_init "0x1234567890123456789012345678901234567890"
    85 50 100 60 0.5 0.05 0.5 None.

Definition test_seller : BaseAgent :=
  BaseAgent_init "0x0987654321098765432109876543210987654321"
    95 50 100 60 0.5 0.05 0.5 None.

(** A buyer and a seller whose price ranges differ. *)
Definition low_buyer : BaseAgent :=
  BaseAgent_init "0xb" 50 40 100 10 0.5 0.05 0.5 None.

Definition high_seller : BaseAgent :=
  BaseAgent_init "0x5" 120 50 130 10 0.5 0.05 0.5 None.

(** A buyer whose range lies below a seller's. *)
Definition cheap_buyer : BaseAgent :=
  BaseAgent_init "0xb" 50 40 60 10 0.5 0.05 0.5 None.

Definition dear_seller : BaseAgent :=
  BaseAgent_init "0x5" 100 90 110 10 0.5 0.05 0.5 None.

(** A configuration outside the declared domain on every count:
    [min_price > max_price], the target outside both, no quantity. *)
Definition broken_config : BaseAgent :=
  BaseAgent_init "0x0" 500 100 50 (-3) 0.5 0.05 0.5 None.

(** Two opponent-modelling agents built by the caller. *)
Definition modeling_buyer : AgentObj :=
  Modeling (ToM.init "0xb" 50 40 100 10 0.5 ToM.default_tom_level).

Definition modeling_seller : AgentObj :=
  Modeling (ToM.init "0x5" 120 50 130 10 0.5 ToM.default_tom_level).

(** An opponent-modelling buyer that has answered six seller offers. *)
Definition observing_buyer : ToM.TheoryOfMindAgent :=
  ToM.after_offers (ToM.init "0xb" 50 40 100 10 0.5 ToM.default_tom_level)
    [100; 98; 96; 94; 92; 90].

(** A buyer that knows a market price. *)
Definition market_buyer : BaseAgent :=
  BaseAgent_init "0xb" 80 50 100 10 0.5 0.05 0.5 (Some 90).

(** A session as [create_session] stores it, for a user in the buyer role. *)
Definition example_session : SessionRow :=
  mkSessionRow "buyer" None (Some "0x1111111111111111111111111111111111111111"%string)
    85 50 100 60 0.5 8 0.05 0.5.

(** The agent of [tests/test_unified_agent.py], and a constant in the place
    of the sigmoid. *)
Definition unified_example : UCNA.UnifiedNegotiationAgent :=
  UCNA.init "0x1234567890123456789012345678901234567890"
    100 80 120 10 0.5 0.05 0.5 None None None.

Definition constant_risk (x : Q) : Q := 0.5.

(** A learning agent with two actions and three states. *)
Definition fresh_learner : AdaptiveAgent string :=
  AdaptiveAgent_init "learner" ["raise"%string; "hold"%string] 3 50 40 60 10.



(** [self.market_price = m] on an otherwise unchanged configuration. *)
Definition with_market_price (m : option Q) (a : BaseAgent) : BaseAgent :=
  mkBaseAgent (address a) (target_price a) (min_price a) (max_price a)
    (quantity a) (fairness_weight a) (concession_rate a) (aggressiveness a)
    m (agent_type a).

(** The two offer histories of [tests/test_unified_agent.py]. *)
Definition stubborn_history : list Q := [100.0; 100.5; 100.8; 101.0; 101.2].
Definition cooperative_history : list Q := [100.0; 92.0; 85.0; 78.0; 72.0].

(** * Properties *)

(** ** Comparisons and clamping *)

Lemma Qltb_true (x y : Q) : Qltb x y = true <-> x < y.
Proof.
  unfold Qltb. rewrite negb_true_iff. split; intros H.
  - apply Qnot_le_lt. intros Hle. apply Qle_bool_iff in Hle. congruence.
  - destruct (Qle_bool y x) eqn:E; [|reflexivity].
    apply Qle_bool_iff in E. exfalso. apply (Qlt_not_le _ _ H E).
Qed.

Lemma Qltb_false (x y : Q) : Qltb x y = false <-> y <= x.
Proof.
  unfold Qltb. rewrite negb_false_iff. apply Qle_bool_iff.
Qed.

Lemma clamp_in_range (a : BaseAgent) (p : Q) :
  min_price a <= max_price a ->
  min_price a <= clamp a p /\ clamp a p <= max_price a.
Proof.
  intros H. unfold clamp. split.
  - apply Q.le_max_l.
  - apply Q.max_lub; [exact H | apply Q.le_min_l].
Qed.

(** Closed comparisons of rationals are settled by evaluation. *)
Ltac qeval := vm_compute; first [reflexivity | discriminate | intro; discriminate].

(** ** BaseAgent.utility *)

(** C3.  On a configuration with [min_price <= target_price <= max_price],
    the utility of every price between [min_price] and [max_price] lies in
    [[0, 1]], and the utility of the target price is 1. *)
Theorem utility_in_unit_interval (a : BaseAgent) (p : Q) :
  valid_config a -> min_price a <= p -> p <= max_price a ->
  0 <= utility a p /\ utility a p <= 1 /\ utility a (target_price a) == 1.
Proof.
  intros [Hlo Hhi] Hp1 Hp2. unfold utility.
  set (d := Qmax 1 (Qabs (max_price a - min_price a))).
  assert (Hd1 : 1 <= d) by apply Q.le_max_l.
  assert (Hd2 : Qabs (max_price a - min_price a) <= d) by apply Q.le_max_r.
  assert (Hd0 : 0 < d) by lra.
  assert (Hn : Qabs (p - target_price a) <= d).
  { apply Qle_trans with (Qabs (max_price a - min_price a)); [|exact Hd2].
    rewrite (Qabs_pos (max_price a - min_price a)) by lra.
    apply Qabs_Qle_condition. split; lra. }
  assert (H0 : 0 <= Qabs (p - target_price a) / d).
  { apply Qle_shift_div_l; [exact Hd0|]. rewrite Qmult_0_l. apply Qabs_nonneg. }
  assert (H1 : Qabs (p - target_price a) / d <= 1).
  { apply Qle_shift_div_r; [exact Hd0|]. lra. }
  repeat split; try lra.
  assert (E : target_price a - target_price a == 0) by ring.
  rewrite E. simpl Qabs. unfold Qdiv. ring.
Qed.

Lemma utility_in_unit_interval_witness :
  0 <= utility test_buyer 62.5 /\ utility test_buyer 62.5 <= 1
  /\ utility test_buyer (target_price test_buyer) == 1.
Proof.
  apply (utility_in_unit_interval test_buyer 62.5).
  - split; qeval.
  - qeval.
  - qeval.
Defined.

(** ** Fairness metrics *)

(** C8.  The simple fairness of two equal utilities is 1, and the
    proportional fairness [ln(max(1e-6, u1)) + ln(max(1e-6, u2))] does not
    depend on the order of its arguments. *)
Theorem fairness_diagonal_and_symmetry (u u1 u2 : Q) :
  simple_fairness u u == 1
  /\ calculate_proportional_fairness u1 u2
     = (ln (Q2R (Qmax 1e-6 u1)) + ln (Q2R (Qmax 1e-6 u2)))%R
  /\ calculate_proportional_fairness u1 u2 = calculate_proportional_fairness u2 u1.
Proof.
  split; [|split].
  - unfold simple_fairness.
    assert (E : u - u == 0) by ring.
    rewrite E. simpl Qabs. ring.
  - reflexivity.
  - unfold calculate_proportional_fairness. apply Rplus_comm.
Qed.

(** ** Role derivation *)

(** C9.  The role derived at construction is [buyer] exactly when the
    target price is strictly below the midpoint of [min_price] and
    [max_price]; a target equal to the midpoint gives [seller]. *)
Theorem role_is_buyer_iff_below_midpoint (addr : string) (target lo hi : Q)
    (qty : Z) (fw cr ag : Q) (mp : option Q) :
  (agent_type (BaseAgent_init addr target lo hi qty fw cr ag mp) = buyer
   <-> target < (lo + hi) / 2)
  /\ (agent_type (BaseAgent_init addr ((lo + hi) / 2) lo hi qty fw cr ag mp)
      = seller).
Proof.
  unfold BaseAgent_init; simpl. split.
  - destruct (Qltb target ((lo + hi) / 2)) eqn:E.
    + apply Qltb_true in E. split; [intros _; exact E | reflexivity].
    + apply Qltb_false in E. split; [discriminate|].
      intros H. exfalso. apply (Qlt_not_le _ _ H E).
  - destruct (Qltb ((lo + hi) / 2) ((lo + hi) / 2)) eqn:E; [|reflexivity].
    apply Qltb_true in E. exfalso. apply (Qlt_irrefl _ E).
Qed.

(** ** Market anchoring *)

(** C10.  A market price of [0.0] is falsy: with it [BaseAgent.propose]
    returns what it returns with no market price, the opening offer is the
    target price, and a counter-offer uses the unshrunk concession factor
    [0.5 + (1 - aggressiveness) * 0.3]. *)
Theorem zero_market_price_is_absent (a : BaseAgent) (last : option Q) (o : Q) :
  BaseAgent_propose (with_market_price (Some 0.0) a) last
  = BaseAgent_propose (with_market_price None a) last
  /\ BaseAgent_propose (with_market_price (Some 0.0) a) None = target_price a
  /\ BaseAgent_propose (with_market_price (Some 0.0) a) (Some o)
     = clamp a (target_price a
                + (o - target_price a) * (0.5 + (1 - aggressiveness a) * 0.3)).
Proof.
  split; [|split].
  - destruct last; reflexivity.
  - reflexivity.
  - reflexivity.
Qed.

(** ** Behaviour clustering *)

(** C6.  The clusterer classifies the slowly moving history as
    ['stubborn'] with a score above 0.7, and the quickly moving one as
    ['cooperative'] with a score below 0.3. *)
Theorem cluster_behavior_on_test_histories :
  UCNA.cluster (UCNA.cluster_behavior stubborn_history) = stubborn
  /\ 0.7 < UCNA.cluster_score (UCNA.cluster_behavior stubborn_history)
  /\ UCNA.cluster (UCNA.cluster_behavior cooperative_history) = cooperative
  /\ UCNA.cluster_score (UCNA.cluster_behavior cooperative_history) < 0.3.
Proof.
  repeat split; vm_compute; reflexivity.
Qed.

(** ** Offers and the price range *)

(** The base strategy keeps every offer inside [[min_price, max_price]]:
    the opening offer is the target or a clamped anchor, and every
    counter-offer is clamped. *)
Lemma BaseAgent_propose_in_range (a : BaseAgent) (last : option Q) :
  valid_config a ->
  min_price a <= BaseAgent_propose a last /\ BaseAgent_propose a last <= max_price a.
Proof.
  intros [Hlo Hhi].
  assert (Hr : min_price a <= max_price a) by (eapply Qle_trans; eassumption).
  unfold BaseAgent_propose.
  destruct last as [o|].
  - apply clamp_in_range; exact Hr.
  - destruct (truthy (market_price a)).
    + apply clamp_in_range; exact Hr.
    + split; assumption.
Qed.

Lemma linspace_in_range (lo hi c : Q) :
  lo <= hi -> In c (UCNA.np_linspace lo hi 20) -> lo <= c /\ c <= hi.
Proof.
  intros H Hin. unfold UCNA.np_linspace in Hin.
  apply in_map_iff in Hin. destruct Hin as [i [<- Hi]].
  apply in_seq in Hi.
  assert (H0 : 0 <= inject_Z (Z.of_nat i)).
  { change 0 with (inject_Z 0). rewrite <- Zle_Qle. lia. }
  assert (H1 : inject_Z (Z.of_nat i) <= 19).
  { change 19 with (inject_Z 19). rewrite <- Zle_Qle. lia. }
  change (inject_Z (Z.of_nat (20 - 1))) with 19.
  set (q := inject_Z (Z.of_nat i)) in *.
  assert (E : lo + q * ((hi - lo) / 19) == lo + (q * (hi - lo)) * (1 # 19)).
  { unfold Qdiv. change (/ 19) with (1 # 19). ring. }
  rewrite E.
  assert (0 <= q * (hi - lo)) by (apply Qmult_le_0_compat; lra).
  assert (q * (hi - lo) <= 19 * (hi - lo)) by (apply Qmult_le_compat_r; lra).
  split; lra.
Qed.

(** The search loop of the optimiser only ever holds the initial price or
    one of the candidates. *)
Lemma search_keeps_range (self : UCNA.UnifiedNegotiationAgent)
    (ot rs st lo hi : Q) (cands : list Q) :
  (forall c, In c cands -> lo <= c /\ c <= hi) ->
  forall best : UCNA.Best,
    lo <= UCNA.best_price best /\ UCNA.best_price best <= hi ->
    lo <= UCNA.best_price (fold_left (UCNA.consider self ot rs st) cands best)
    /\ UCNA.best_price (fold_left (UCNA.consider self ot rs st) cands best) <= hi.
Proof.
  induction cands as [|c cands IH]; intros Hc best Hb; simpl.
  - exact Hb.
  - apply IH.
    + intros c' Hin. apply Hc. right. exact Hin.
    + unfold UCNA.consider.
      destruct (match UCNA.max_score best with
                | Some m => Qltb m _
                | None => true
                end); simpl.
      * apply Hc. left. reflexivity.
      * exact Hb.
Qed.

(** The multi-module optimiser returns a price inside the range, whatever
    the beliefs, weights, risk score and stubbornness. *)
Lemma optimize_offer_in_range (self : UCNA.UnifiedNegotiationAgent)
    (opponent_offer : option Q) (risk_score stubbornness : Q) :
  valid_config (UCNA.base self) ->
  min_price (UCNA.base self)
    <= UCNA.best_price (UCNA.optimize_offer self opponent_offer risk_score stubbornness)
  /\ UCNA.best_price (UCNA.optimize_offer self opponent_offer risk_score stubbornness)
     <= max_price (UCNA.base self).
Proof.
  intros [Hlo Hhi]. unfold UCNA.optimize_offer.
  apply search_keeps_range.
  - intros c Hin. apply linspace_in_range in Hin; [exact Hin|].
    eapply Qle_trans; eassumption.
  - simpl. split; assumption.
Qed.

Lemma update_beliefs_base (self : UCNA.UnifiedNegotiationAgent) (o : Q) :
  UCNA.base (UCNA.update_beliefs self o) = UCNA.base self.
Proof. reflexivity. Qed.

(** So does the scalar accessor of the multi-module strategy, for every
    internal state and every function in the place of the sigmoid. *)
Lemma propose_price_in_range (sigmoid : Q -> Q)
    (self : UCNA.UnifiedNegotiationAgent) (last_offer : option Q) :
  valid_config (UCNA.base self) ->
  min_price (UCNA.base self) <= fst (UCNA.propose_price sigmoid self last_offer)
  /\ fst (UCNA.propose_price sigmoid self last_offer) <= max_price (UCNA.base self).
Proof.
  intros Hv.
  cbv beta iota zeta delta [UCNA.propose_price UCNA.propose fst UCNA.price].
  destruct last_offer as [o|].
  - rewrite <- (update_beliefs_base self o).
    apply optimize_offer_in_range. rewrite update_beliefs_base. exact Hv.
  - apply optimize_offer_in_range. exact Hv.
Qed.

Lemma update_opponent_model_base (self : ToM.TheoryOfMindAgent) (o : Q)
    (mine : option Q) :
  ToM.base (ToM.update_opponent_model self o mine) = ToM.base self.
Proof. reflexivity. Qed.

(** The opponent-modelling strategy stays inside the range on its opening
    move and on every move made with a belief confidence of at least 0.3. *)
Lemma tom_propose_in_range_when_confident (self : ToM.TheoryOfMindAgent)
    (last : option Q) :
  valid_config (ToM.base self) ->
  match last with
  | None => True
  | Some o =>
      Qltb (ToM.belief_confidence
              (ToM.opponent_model
                 (ToM.update_opponent_model self o (ToM.my_last self)))) 0.3
      = false
  end ->
  min_price (ToM.base self) <= fst (ToM.propose self last)
  /\ fst (ToM.propose self last) <= max_price (ToM.base self).
Proof.
  intros Hv Hc. destruct last as [o|]; unfold ToM.propose.
  - rewrite Hc. cbv zeta. simpl fst.
    apply clamp_in_range. destruct Hv. eapply Qle_trans; eassumption.
  - simpl. exact Hv.
Qed.

(** C2.  The low-confidence branch of [TheoryOfMindAgent.propose] returns
    [target + delta * 0.5] without clamping: a fresh seller with range
    [[90, 110]] and target 100 answers an offer of 50 with 75, below its
    [min_price]; in the loop with [use_tom] this is the seller's offer of
    round 1 against a buyer whose target is 50. *)
Theorem tom_propose_leaves_price_range :
  let seller_tom := ToM.init "0x5" 100 90 110 10 0.5 ToM.default_tom_level in
  valid_config (ToM.base seller_tom)
  /\ fst (ToM.propose seller_tom (Some 50)) == 75
  /\ fst (ToM.propose seller_tom (Some 50)) < min_price (ToM.base seller_tom)
  /\ valid_config cheap_buyer /\ valid_config dear_seller
  /\ match run_negotiation_loop cheap_buyer dear_seller 1 true with
     | Return (timeline, _) =>
         map (fun rec => Qred (rr_seller_offer rec)) timeline = [75]
     | Raise _ => False
     end.
Proof.
  cbv zeta. repeat split; qeval.
Qed.

(** ** The negotiation loop *)

Lemma record_stops_triggers (rec : RoundRecord) :
  record_stops rec = true <-> triggers rec.
Proof.
  unfold record_stops, stop_condition, triggers.
  rewrite orb_true_iff, !Qle_bool_iff. reflexivity.
Qed.

(** A round leaves its two offers in [last_buyer] and [last_seller]. *)
Lemma negotiation_round_last (b s : BaseAgent) (ut : bool) (r : Z) (st : LoopState) :
  last_buyer (snd (negotiation_round b s ut r st))
    = Some (rr_buyer_offer (fst (negotiation_round b s ut r st)))
  /\ last_seller (snd (negotiation_round b s ut r st))
    = Some (rr_seller_offer (fst (negotiation_round b s ut r st))).
Proof.
  unfold negotiation_round.
  destruct (obj_propose (active_buyer st) (last_seller st)) as [bp ab].
  destruct (obj_propose (active_seller st) (Some bp)) as [sp asl].
  split; reflexivity.
Qed.

Section Loop.

Variables (b s : BaseAgent) (ut : bool) (st0 : LoopState).

Let rec_ := round_record b s ut st0.
Let after := state_after b s ut st0.

Lemma round_step (j : nat) :
  negotiation_round b s ut (Z.of_nat (S j)) (after j) = (rec_ (S j), after (S j)).
Proof.
  unfold rec_, after, round_record.
  replace (S j - 1)%nat with j by lia.
  change (state_after b s ut st0 (S j))
    with (snd (negotiation_round b s ut (Z.of_nat (S j)) (state_after b s ut st0 j))).
  apply surjective_pairing.
Qed.

(** The loop entered after [j] rounds with [n] iterations left returns at
    the first round [r] whose record meets the stop test, or at round
    [j + n] when none does. *)
Lemma rounds_from (n : nat) : forall (j r : nat) (tl : list RoundRecord),
  (j + 1 <= r <= j + n)%nat ->
  (forall k, (j < k < r)%nat -> record_stops (rec_ k) = false) ->
  (record_stops (rec_ r) = true \/ r = (j + n)%nat) ->
  negotiation_rounds b s ut n (Z.of_nat (S j)) (after j) tl
  = (Return (tl ++ map rec_ (seq (S j) (r - j)),
             finalize b s (rr_buyer_offer (rec_ r)) (rr_seller_offer (rec_ r))),
     after r).
Proof.
  induction n as [|n IH]; intros j r tl Hr Hbefore Hat.
  - lia.
  - cbn [negotiation_rounds]. rewrite round_step.
    destruct (Nat.eq_dec r (S j)) as [->|Hne].
    + replace (S j - j)%nat with 1%nat by lia. cbn [seq map].
      destruct (record_stops (rec_ (S j))) eqn:Hs.
      * reflexivity.
      * destruct Hat as [Hat|Hat]; [discriminate|].
        assert (n = 0)%nat by lia. subst n. cbn [negotiation_rounds].
        pose proof (negotiation_round_last b s ut (Z.of_nat (S j)) (after j))
          as [Hb Hsl].
        rewrite round_step in Hb, Hsl. cbn [fst snd] in Hb, Hsl.
        rewrite Hb, Hsl. reflexivity.
    + rewrite (Hbefore (S j)) by lia.
      replace (Z.of_nat (S j) + 1)%Z with (Z.of_nat (S (S j))) by lia.
      rewrite (IH (S j) r (tl ++ [rec_ (S j)])); try lia.
      * replace (r - j)%nat with (S (r - S j)) by lia.
        cbn [seq map]. rewrite <- app_assoc. reflexivity.
      * intros k Hk. apply Hbefore. lia.
      * destruct Hat as [Hat|Hat]; [left; exact Hat | right; lia].
Qed.

(** With at least one iteration left the loop returns, and its timeline
    has grown. *)
Lemma rounds_return (n : nat) : forall (r : Z) (st : LoopState)
    (tl : list RoundRecord),
  exists tl' ag st',
    negotiation_rounds b s ut (S n) r st tl = (Return (tl', ag), st')
    /\ (length tl < length tl')%nat.
Proof.
  induction n as [|n IH]; intros r st tl.
  - cbn [negotiation_rounds].
    pose proof (negotiation_round_last b s ut r st) as [Hb Hsl].
    destruct (negotiation_round b s ut r st) as [rec st'].
    cbn [fst snd] in Hb, Hsl.
    destruct (record_stops rec).
    + do 3 eexists. split; [reflexivity|]. rewrite length_app. simpl. lia.
    + rewrite Hb, Hsl.
      do 3 eexists. split; [reflexivity|]. rewrite length_app. simpl. lia.
  - change (negotiation_rounds b s ut (S (S n)) r st tl)
      with (let (rec, st') := negotiation_round b s ut r st in
            if record_stops rec
            then (Return (tl ++ [rec],
                          finalize b s (rr_buyer_offer rec) (rr_seller_offer rec)),
                  st')
            else negotiation_rounds b s ut (S n) (r + 1)%Z st' (tl ++ [rec])).
    destruct (negotiation_round b s ut r st) as [rec st'].
    destruct (record_stops rec).
    + do 3 eexists. split; [reflexivity|]. rewrite length_app. simpl. lia.
    + destruct (IH (r + 1)%Z st' (tl ++ [rec])) as (tl' & ag & st'' & E & L).
      exists tl', ag, st''. split; [exact E|].
      rewrite length_app in L. simpl in L. lia.
Qed.

End Loop.

(** A plain [BaseAgent] is not assigned to by the loop. *)
Lemma rounds_keep_plain (b s x y : BaseAgent) (ut : bool) (n : nat) :
  forall (r : Z) (st : LoopState) (tl : list RoundRecord),
    active_buyer st = Plain x -> active_seller st = Plain y ->
    active_buyer (snd (negotiation_rounds b s ut n r st tl)) = Plain x
    /\ active_seller (snd (negotiation_rounds b s ut n r st tl)) = Plain y.
Proof.
  induction n as [|n IH]; intros r st tl Hx Hy.
  - cbn [negotiation_rounds].
    destruct (last_buyer st), (last_seller st); simpl; split; assumption.
  - cbn [negotiation_rounds].
    unfold negotiation_round. rewrite Hx, Hy. cbn [obj_propose].
    match goal with
    | |- context [if record_stops ?rec then _ else _] =>
        destruct (record_stops rec)
    end.
    + simpl. split; reflexivity.
    + apply IH; reflexivity.
Qed.

(** C1 (amended).  [run_negotiation_loop] returns at the first round [r] of
    [1..max_rounds] whose offers are at most 1.0 apart or whose simple
    fairness is at least 0.9, and at round [max_rounds] when no round does.
    In both cases the timeline is the records of rounds [1..r], the final
    price is the mean of the two offers of round [r], and the utilities and
    both fairness values of the agreement are computed at that final
    price. *)
Theorem loop_stops_at_first_trigger (b s : BaseAgent) (use_tom : bool)
    (max_rounds : Z) (r : nat) :
  (1 <= r <= Z.to_nat max_rounds)%nat ->
  (forall k, (1 <= k < r)%nat -> ~ triggers (nth_round b s use_tom k)) ->
  (triggers (nth_round b s use_tom r) \/ r = Z.to_nat max_rounds) ->
  exists agreement : Agreement,
    run_negotiation_loop b s max_rounds use_tom
    = Return (map (nth_round b s use_tom) (seq 1 r), agreement)
    /\ ag_price agreement
       = (rr_buyer_offer (nth_round b s use_tom r)
          + rr_seller_offer (nth_round b s use_tom r)) / 2
    /\ ag_buyer_utility agreement = utility b (ag_price agreement)
    /\ ag_seller_utility agreement = utility s (ag_price agreement)
    /\ ag_fairness agreement
       = simple_fairness (ag_buyer_utility agreement) (ag_seller_utility agreement)
    /\ ag_proportional_fairness agreement
       = calculate_proportional_fairness
           (ag_buyer_utility agreement) (ag_seller_utility agreement)
    /\ ag_quantity agreement = quantity b.
Proof.
  intros Hr Hbefore Hat.
  exists (finalize b s (rr_buyer_offer (nth_round b s use_tom r))
            (rr_seller_offer (nth_round b s use_tom r))).
  split; [|repeat split].
  unfold run_negotiation_loop, run_negotiation_loop_obj. cbn [attrs].
  change 1%Z with (Z.of_nat 1).
  change (initial_state (Plain b) (Plain s) use_tom)
    with (state_after b s use_tom (initial_state (Plain b) (Plain s) use_tom) 0).
  rewrite (rounds_from b s use_tom (initial_state (Plain b) (Plain s) use_tom)
             (Z.to_nat max_rounds) 0 r []).
  - cbn [fst app]. rewrite Nat.sub_0_r. reflexivity.
  - lia.
  - intros k Hk.
    destruct (record_stops
                (round_record b s use_tom
                   (initial_state (Plain b) (Plain s) use_tom) k)) eqn:E;
      [|reflexivity].
    exfalso. apply (Hbefore k); [lia|]. apply record_stops_triggers. exact E.
  - destruct Hat as [Hat|Hat]; [left | right; lia].
    apply record_stops_triggers. exact Hat.
Qed.

Lemma loop_stops_at_first_trigger_witness :
  exists agreement : Agreement,
    run_negotiation_loop test_buyer test_seller 8 false
    = Return (map (nth_round test_buyer test_seller false) (seq 1 2), agreement)
    /\ ag_price agreement
       = (rr_buyer_offer (nth_round test_buyer test_seller false 2)
          + rr_seller_offer (nth_round test_buyer test_seller false 2)) / 2
    /\ ag_buyer_utility agreement = utility test_buyer (ag_price agreement)
    /\ ag_seller_utility agreement = utility test_seller (ag_price agreement)
    /\ ag_fairness agreement
       = simple_fairness (ag_buyer_utility agreement) (ag_seller_utility agreement)
    /\ ag_proportional_fairness agreement
       = calculate_proportional_fairness
           (ag_buyer_utility agreement) (ag_seller_utility agreement)
    /\ ag_quantity agreement = quantity test_buyer.
Proof.
  apply (loop_stops_at_first_trigger test_buyer test_seller false 8 2).
  - vm_compute. lia.
  - intros k Hk H. assert (k = 1)%nat by lia. subst k.
    apply record_stops_triggers in H. vm_compute in H. discriminate H.
  - left. apply record_stops_triggers. vm_compute. reflexivity.
Defined.

(** C1, as stated, fails when the round limit is exhausted: with
    [max_rounds = 1] the only round of this negotiation does not meet the
    stop test and has simple fairness 69/160, while the agreement carries
    the fairness recomputed at the final price, 463/960. *)
Lemma exhausted_loop_recomputes_fairness :
  valid_config low_buyer /\ valid_config high_seller
  /\ match run_negotiation_loop low_buyer high_seller 1 false with
     | Return (timeline, agreement) =>
         existsb record_stops timeline = false
         /\ map (fun rec => Qred (rr_fairness rec)) timeline = [69 # 160]
         /\ Qred (ag_fairness agreement) = 463 # 960
         /\ ~ ag_fairness agreement == rr_fairness (nth_round low_buyer high_seller false 1)
     | Raise _ => False
     end.
Proof.
  vm_compute. repeat split; try reflexivity; try discriminate; intro; discriminate.
Qed.

(** A bounded search finds the first index with [P], or ends at the bound. *)
Lemma first_true_or_last (P : nat -> bool) (n : nat) :
  (1 <= n)%nat ->
  exists r, (1 <= r <= n)%nat
            /\ (forall k, (1 <= k < r)%nat -> P k = false)
            /\ (P r = true \/ r = n).
Proof.
  induction n as [|n IH]; intros Hn; [lia|].
  destruct n as [|n].
  - exists 1%nat. split; [lia|]. split; [intros k Hk; lia | right; reflexivity].
  - destruct IH as (r & Hr & Hbefore & Hat); [lia|].
    destruct (P r) eqn:E.
    + exists r. split; [lia|]. split; [exact Hbefore | left; exact E].
    + destruct Hat as [Hat|Hat]; [congruence|]. subst r.
      exists (S (S n)). split; [lia|]. split.
      * intros k Hk. destruct (Nat.eq_dec k (S n)) as [->|Hne]; [exact E|].
        apply Hbefore. lia.
      * right. reflexivity.
Qed.

(** For every [max_rounds >= 1] there is a round at which the loop
    returns: the first one meeting the stop test, or the last one. *)
Lemma stopping_round_exists (b s : BaseAgent) (use_tom : bool) (max_rounds : Z) :
  (1 <= max_rounds)%Z ->
  exists r, (1 <= r <= Z.to_nat max_rounds)%nat
            /\ (forall k, (1 <= k < r)%nat -> ~ triggers (nth_round b s use_tom k))
            /\ (triggers (nth_round b s use_tom r) \/ r = Z.to_nat max_rounds).
Proof.
  intros H.
  destruct (first_true_or_last (fun k => record_stops (nth_round b s use_tom k))
              (Z.to_nat max_rounds)) as (r & Hr & Hbefore & Hat); [lia|].
  exists r. split; [exact Hr|]. split.
  - intros k Hk T. apply record_stops_triggers in T.
    rewrite (Hbefore k Hk) in T. discriminate.
  - destruct Hat as [Hat|Hat]; [left; apply record_stops_triggers; exact Hat | right; exact Hat].
Qed.

(** With the base strategy the active agents stay the two arguments, and
    the seller's last offer is the one recorded for the previous round. *)
Lemma plain_state_after (b s : BaseAgent) (k : nat) :
  let st := state_after b s false (initial_state (Plain b) (Plain s) false) k in
  active_buyer st = Plain b /\ active_seller st = Plain s
  /\ last_seller st
     = match k with
       | O => None
       | S _ => Some (rr_seller_offer (nth_round b s false k))
       end.
Proof.
  induction k as [|k IH].
  - cbn. repeat split.
  - destruct IH as (Hb & Hs & _).
    unfold nth_round, round_record.
    replace (S k - 1)%nat with k by lia.
    cbn [state_after].
    set (st := state_after b s false (initial_state (Plain b) (Plain s) false) k) in *.
    cbv zeta. unfold negotiation_round. rewrite Hb, Hs. cbn [obj_propose].
    cbn [snd fst active_buyer active_seller last_seller rr_seller_offer].
    repeat split.
Qed.

(** The record a round of the base strategy produces. *)
Lemma plain_round (b s : BaseAgent) (r : Z) (st : LoopState) :
  active_buyer st = Plain b -> active_seller st = Plain s ->
  let rec := fst (negotiation_round b s false r st) in
  rr_round rec = r
  /\ rr_buyer_offer rec = BaseAgent_propose b (last_seller st)
  /\ rr_seller_offer rec = BaseAgent_propose s (Some (rr_buyer_offer rec))
  /\ rr_buyer_util rec = utility b (rr_buyer_offer rec)
  /\ rr_seller_util rec = utility s (rr_seller_offer rec)
  /\ rr_fairness rec = simple_fairness (rr_buyer_util rec) (rr_seller_util rec)
  /\ rr_proportional_fairness rec
     = calculate_proportional_fairness (rr_buyer_util rec) (rr_seller_util rec).
Proof.
  intros Hb Hs. cbv zeta. unfold negotiation_round. rewrite Hb, Hs.
  cbn [obj_propose fst rr_round rr_buyer_offer rr_seller_offer rr_buyer_util
       rr_seller_util rr_fairness rr_proportional_fairness].
  repeat split.
Qed.

(** The records of the base strategy round by round: the buyer answers
    the seller's previous offer (none in round 1), the seller answers the
    buyer's offer of the same round, and utilities and fairness are those of
    the two offers. *)
Lemma base_round_offers (b s : BaseAgent) (k : nat) :
  let rec := nth_round b s false (S k) in
  rr_round rec = Z.of_nat (S k)
  /\ rr_buyer_offer rec
     = BaseAgent_propose b
         match k with
         | O => None
         | S _ => Some (rr_seller_offer (nth_round b s false k))
         end
  /\ rr_seller_offer rec = BaseAgent_propose s (Some (rr_buyer_offer rec))
  /\ rr_buyer_util rec = utility b (rr_buyer_offer rec)
  /\ rr_seller_util rec = utility s (rr_seller_offer rec)
  /\ rr_fairness rec = simple_fairness (rr_buyer_util rec) (rr_seller_util rec)
  /\ rr_proportional_fairness rec
     = calculate_proportional_fairness (rr_buyer_util rec) (rr_seller_util rec).
Proof.
  destruct (plain_state_after b s k) as (Hb & Hs & Hl).
  pose proof (plain_round b s (Z.of_nat (S k)) _ Hb Hs) as H.
  cbv zeta in H. rewrite Hl in H.
  assert (E : nth_round b s false (S k)
              = fst (negotiation_round b s false (Z.of_nat (S k))
                       (state_after b s false
                          (initial_state (Plain b) (Plain s) false) k))).
  { unfold nth_round, round_record.
    replace (S k - 1)%nat with k by lia. reflexivity. }
  cbv zeta. rewrite E. exact H.
Qed.

(** The negotiation of [backend/test_negotiation.py] ends in round 2 with
    a price between the two targets. *)
Example test_negotiation_outcome :
  match run_negotiation_loop test_buyer test_seller 8 false with
  | Return (timeline, agreement) =>
      map (fun rec => (rr_round rec, Qred (rr_buyer_offer rec), Qred (rr_seller_offer rec)))
          timeline
      = [(1%Z, 85, 177 # 2); (2%Z, 3491 # 40, 71983 # 800)]
      /\ 85 <= ag_price agreement /\ ag_price agreement <= 95
  | Raise _ => False
  end.
Proof.
  vm_compute. repeat split; try reflexivity; discriminate.
Qed.

(** ** Configuration checks *)

(** C4 (amended).  Neither the constructor nor the loop validates its
    arguments.  For every pair of configurations, in the declared domain or
    not, the loop returns an agreement after at least one round when
    [max_rounds >= 1]; when [max_rounds <= 0] no round runs and the code
    after the loop raises a [TypeError] on the two absent offers. *)
Theorem loop_outcome_without_validation (b s : BaseAgent) (max_rounds : Z)
    (use_tom : bool) :
  match run_negotiation_loop b s max_rounds use_tom with
  | Return (timeline, _) => (1 <= max_rounds)%Z /\ (1 <= length timeline)%nat
  | Raise e => (max_rounds <= 0)%Z /\ e = TypeError
  end.
Proof.
  unfold run_negotiation_loop, run_negotiation_loop_obj. cbn [attrs].
  destruct (Z.to_nat max_rounds) as [|n] eqn:En.
  - cbn. split; [lia | reflexivity].
  - destruct (rounds_return b s use_tom n 1%Z
                (initial_state (Plain b) (Plain s) use_tom) [])
      as (tl' & ag & st' & E & L).
    rewrite E. cbn [fst]. simpl in L. split; lia.
Qed.

(** C4, as stated, fails: a configuration with [min_price > max_price], a
    target above both and a negative quantity is constructed, and the loop
    runs a round with it and returns an agreement. *)
Lemma invalid_configuration_is_not_rejected :
  max_price broken_config < min_price broken_config
  /\ max_price broken_config < target_price broken_config
  /\ (quantity broken_config <= 0)%Z
  /\ match run_negotiation_loop broken_config test_seller 8 false with
     | Return (timeline, agreement) =>
         map rr_round timeline = [1%Z] /\ Qred (ag_price agreement) = 300
     | Raise _ => False
     end.
Proof.
  vm_compute. repeat split; try reflexivity; discriminate.
Qed.

(** ** Repeated invocations *)

(** C7.  An invocation on two plain configurations leaves both argument
    objects as they were, and a second invocation on the objects as the
    first left them returns the same timeline and agreement; this holds
    for the base strategy and for the opponent-modelling strategy selected
    by [use_tom], whose agents are created inside each call. *)
Theorem repeated_invocations_agree (b s : BaseAgent) (max_rounds : Z)
    (use_tom : bool) :
  let first := run_negotiation_loop_obj (Plain b) (Plain s) max_rounds use_tom in
  snd first = (Plain b, Plain s)
  /\ fst (run_negotiation_loop_obj (fst (snd first)) (snd (snd first))
            max_rounds use_tom)
     = fst first
  /\ fst first = run_negotiation_loop b s max_rounds use_tom.
Proof.
  cbv zeta.
  assert (H : snd (run_negotiation_loop_obj (Plain b) (Plain s) max_rounds use_tom)
              = (Plain b, Plain s)).
  { unfold run_negotiation_loop_obj. cbn [attrs].
    pose proof (rounds_keep_plain b s b s use_tom (Z.to_nat max_rounds) 1%Z
                  (initial_state (Plain b) (Plain s) use_tom) []) as K.
    destruct (negotiation_rounds b s use_tom (Z.to_nat max_rounds) 1%Z
                (initial_state (Plain b) (Plain s) use_tom) []) as [res st].
    cbn [snd] in *. destruct use_tom.
    - reflexivity.
    - destruct K as [Kb Ks]; [reflexivity | reflexivity |].
      rewrite Kb, Ks. reflexivity. }
  split; [exact H|]. rewrite H. split; reflexivity.
Qed.

(** The restriction to objects the loop does not assign to matters: an
    opponent-modelling agent built by the caller and passed with
    [use_tom = False] keeps the history of the first invocation, and the
    second invocation returns a different timeline. *)
Lemma caller_owned_modeling_agents_carry_state :
  let first := run_negotiation_loop_obj modeling_buyer modeling_seller 3 false in
  match fst first,
        fst (run_negotiation_loop_obj (fst (snd first)) (snd (snd first)) 3 false)
  with
  | Return (tl1, _), Return (tl2, _) =>
      map (fun rec => Qred (rr_seller_offer rec)) tl1 = [85; 375 # 4]
      /\ map (fun rec => Qred (rr_seller_offer rec)) tl2
         = [502 # 5; 12984 # 125; 7951704 # 78125]
  | _, _ => False
  end.
Proof.
  vm_compute. split; reflexivity.
Qed.

(** ** Least-squares fit *)

Lemma inject_Z_succ (n : nat) :
  inject_Z (Z.of_nat (S n)) == inject_Z (Z.of_nat n) + 1.
Proof. rewrite Nat2Z.inj_succ. unfold Z.succ. rewrite inject_Z_plus. reflexivity. Qed.

Lemma Qsum_cons (x : Q) (xs : list Q) : Qsum (x :: xs) = x + Qsum xs.
Proof. reflexivity. Qed.

Lemma sq_residuals_expand (a b : Q) (xs : list Q) : forall ys : list Q,
  length xs = length ys ->
  sq_residuals a b xs ys
  == Qsum_prod ys ys - 2 * a * Qsum_prod xs ys - 2 * b * Qsum ys
     + a * a * Qsum_prod xs xs + 2 * a * b * Qsum xs
     + inject_Z (Z.of_nat (length xs)) * (b * b).
Proof.
  induction xs as [|x xs IH]; intros [|y ys] Hlen; try discriminate.
  - unfold sq_residuals, Qsum_prod. simpl. ring.
  - injection Hlen as Hlen. specialize (IH ys Hlen).
    unfold sq_residuals, Qsum_prod in *.
    cbn [combine map fst snd length]. rewrite !Qsum_cons.
    rewrite inject_Z_succ. rewrite IH. ring.
Qed.

Lemma sum_squares_nonneg (u v : Q) (xs : list Q) :
  0 <= u * u * Qsum_prod xs xs + 2 * u * v * Qsum xs
       + inject_Z (Z.of_nat (length xs)) * (v * v).
Proof.
  induction xs as [|x xs IH].
  - unfold Qsum_prod. simpl. ring_simplify. apply Qle_refl.
  - unfold Qsum_prod in *.
    cbn [combine map fst snd length]. rewrite !Qsum_cons.
    rewrite inject_Z_succ.
    assert (H : 0 <= (u * x + v) * (u * x + v)).
    { destruct (Qlt_le_dec (u * x + v) 0).
      - setoid_replace ((u * x + v) * (u * x + v)) with ((- (u * x + v)) * (- (u * x + v))) by ring.
        apply Qmult_le_0_compat; lra.
      - apply Qmult_le_0_compat; assumption. }
    lra.
Qed.

(** The pair computed by [np_polyfit1] minimises the sum of squared
    residuals among all lines, whenever the normal equations have a unique
    solution. *)
Lemma polyfit_least_squares (xs ys : list Q) (a b : Q) :
  length xs = length ys ->
  ~ inject_Z (Z.of_nat (length xs)) * Qsum_prod xs xs - Qsum xs * Qsum xs == 0 ->
  sq_residuals (fst (np_polyfit1 xs ys)) (snd (np_polyfit1 xs ys)) xs ys
  <= sq_residuals a b xs ys.
Proof.
  intros Hlen Hdet.
  rewrite !sq_residuals_expand by exact Hlen.
  unfold np_polyfit1. cbn [fst snd].
  set (n := inject_Z (Z.of_nat (length xs))) in *.
  set (sx := Qsum xs) in *. set (sy := Qsum ys).
  set (sxx := Qsum_prod xs xs) in *. set (sxy := Qsum_prod xs ys).
  set (syy := Qsum_prod ys ys).
  set (det := n * sxx - sx * sx) in *.
  set (a0 := (n * sxy - sx * sy) / det).
  set (b0 := (sy * sxx - sx * sxy) / det).
  assert (N1 : sxy == a0 * sxx + b0 * sx) by (unfold a0, b0, det; field; exact Hdet).
  assert (N2 : sy == a0 * sx + n * b0) by (unfold a0, b0, det; field; exact Hdet).
  pose proof (sum_squares_nonneg (a - a0) (b - b0) xs) as P.
  fold n sx sxx in P.
  assert (E : (syy - 2 * a * sxy - 2 * b * sy + a * a * sxx + 2 * a * b * sx + n * (b * b))
              - (syy - 2 * a0 * sxy - 2 * b0 * sy + a0 * a0 * sxx + 2 * a0 * b0 * sx + n * (b0 * b0))
              == (a - a0) * (a - a0) * sxx + 2 * (a - a0) * (b - b0) * sx + n * ((b - b0) * (b - b0))).
  { rewrite N1, N2. ring. }
  lra.
Qed.

(** ** Opponent-model update *)

Lemma last_k_length {A : Type} (k : nat) (xs : list A) :
  length (last_k k xs) = Nat.min k (length xs).
Proof. unfold last_k. rewrite length_skipn. lia. Qed.

Lemma np_arange_length (n : nat) : length (np_arange n) = n.
Proof. unfold np_arange. rewrite length_map, length_seq. reflexivity. Qed.

Lemma arange_det_nonzero (n : nat) :
  (3 <= n <= 5)%nat ->
  ~ inject_Z (Z.of_nat (length (np_arange n))) * Qsum_prod (np_arange n) (np_arange n)
    - Qsum (np_arange n) * Qsum (np_arange n) == 0.
Proof.
  intros H.
  assert (C : (n = 3 \/ n = 4 \/ n = 5)%nat) by lia.
  destruct C as [C|[C|C]]; subst n; vm_compute; discriminate.
Qed.

Lemma classify_keeps_target (h : list Q) (m : ToM.OpponentModel) :
  ToM.target_price_estimate (ToM.classify_strategy h m) = ToM.target_price_estimate m.
Proof.
  unfold ToM.classify_strategy.
  destruct (2 <=? length h)%nat; [|reflexivity].
  destruct (successive_abs_diffs h); [reflexivity|].
  destruct (Qltb 0.1 _); [reflexivity|].
  destruct (Qltb _ 0.02); reflexivity.
Qed.

Lemma patience_keeps_target (a : BaseAgent) (rc : Z) (h : list Q) (m : ToM.OpponentModel) :
  ToM.target_price_estimate (ToM.estimate_patience a rc h m) = ToM.target_price_estimate m
  /\ ToM.belief_confidence (ToM.estimate_patience a rc h m) = ToM.belief_confidence m.
Proof.
  unfold ToM.estimate_patience.
  destruct (2 <=? length h)%nat; [|split; reflexivity].
  destruct (Qltb _ _); [split; reflexivity|].
  destruct (Qltb _ _); split; reflexivity.
Qed.

(** C5 (amended).  On an update that brings the observed opponent offers
    to at least 3, the new target estimate is
    [w * intercept + (1 - w) * prior], where the intercept is that of the
    least-squares line through the last up-to-5 offers against their index
    in that window, and [w = min(1, k / 10)] with [k] the number of offers
    in the window, [k = min(5, observed_count)]; with no prior estimate the
    intercept is taken as it is.  The belief confidence becomes [w]. *)
Theorem belief_target_update (self : ToM.TheoryOfMindAgent) (offer : Q)
    (mine : option Q) :
  let history := ToM.opponent_offer_history self ++ [offer] in
  let window := last_k 5 history in
  let rounds := np_arange (length window) in
  let fit := np_polyfit1 rounds window in
  let w := Qmin 1 (inject_Z (Z.of_nat (Nat.min 5 (length history))) / 10) in
  let updated := ToM.update_opponent_model self offer mine in
  (3 <= length history)%nat ->
  ToM.opponent_offer_history updated = history
  /\ (forall a b : Q,
        sq_residuals (fst fit) (snd fit) rounds window
        <= sq_residuals a b rounds window)
  /\ ToM.target_price_estimate (ToM.opponent_model updated)
     = Some match ToM.target_price_estimate (ToM.opponent_model self) with
            | Some prior => w * snd fit + (1 - w) * prior
            | None => snd fit
            end
  /\ ToM.belief_confidence (ToM.opponent_model updated) = w.
Proof.
  intros history window rounds fit w updated H3.
  assert (Hw : length window = Nat.min 5 (length history)) by apply last_k_length.
  split; [reflexivity|]. split.
  - intros a b. apply polyfit_least_squares.
    + unfold rounds. apply np_arange_length.
    + unfold rounds. apply arange_det_nonzero. lia.
  - unfold updated, ToM.update_opponent_model. cbn [ToM.opponent_model].
    fold history.
    destruct (patience_keeps_target (ToM.base self) (ToM.round_count self + 1) history
                (ToM.estimate_target history
                   (ToM.classify_strategy history (ToM.opponent_model self))))
      as [-> ->].
    unfold ToM.estimate_target.
    assert (E3 : (3 <=? length history)%nat = true) by (apply Nat.leb_le; exact H3).
    rewrite E3.
    assert (E1 : (1 <? length (ToM.fit_window history))%nat = true).
    { apply Nat.ltb_lt. unfold ToM.fit_window. fold window. lia. }
    rewrite E1. rewrite classify_keeps_target.
    unfold ToM.fit_confidence, ToM.estimated_target, ToM.fit_window.
    fold window. fold rounds. fold fit. rewrite Hw. fold w.
    destruct (ToM.target_price_estimate (ToM.opponent_model self)); split; reflexivity.
Qed.

Lemma belief_target_update_witness :
  let self := observing_buyer in
  let offer := 88 in
  let history := ToM.opponent_offer_history self ++ [offer] in
  let window := last_k 5 history in
  let rounds := np_arange (length window) in
  let fit := np_polyfit1 rounds window in
  let w := Qmin 1 (inject_Z (Z.of_nat (Nat.min 5 (length history))) / 10) in
  let updated := ToM.update_opponent_model self offer (ToM.my_last self) in
  ToM.opponent_offer_history updated = history
  /\ (forall a b : Q,
        sq_residuals (fst fit) (snd fit) rounds window
        <= sq_residuals a b rounds window)
  /\ ToM.target_price_estimate (ToM.opponent_model updated)
     = Some match ToM.target_price_estimate (ToM.opponent_model self) with
            | Some prior => w * snd fit + (1 - w) * prior
            | None => snd fit
            end
  /\ ToM.belief_confidence (ToM.opponent_model updated) = w.
Proof.
  apply (belief_target_update observing_buyer 88 (ToM.my_last observing_buyer)).
  vm_compute. lia.
Defined.

(** C5, as stated, fails once more than five offers have been observed:
    on the seventh offer the prior estimate is 99 and the fitted intercept
    96; the code blends them with weight 5/10 into 97.5, not with weight
    7/10 (nor 6/10, counting the offers before this one). *)
Lemma blend_weight_is_capped_by_window :
  let updated :=
    ToM.update_opponent_model observing_buyer 88 (ToM.my_last observing_buyer) in
  length (ToM.opponent_offer_history updated) = 7%nat
  /\ match ToM.target_price_estimate (ToM.opponent_model observing_buyer),
           ToM.target_price_estimate (ToM.opponent_model updated)
     with
     | Some prior, Some estimate =>
         let intercept :=
           ToM.estimated_target (last_k 5 (ToM.opponent_offer_history updated)) in
         prior == 99 /\ intercept == 96 /\ estimate == 97.5
         /\ ~ estimate == Qmin 1 (7 / 10) * intercept + (1 - Qmin 1 (7 / 10)) * prior
         /\ ~ estimate == Qmin 1 (6 / 10) * intercept + (1 - Qmin 1 (6 / 10)) * prior
     | _, _ => False
     end.
Proof.
  vm_compute. repeat split; try reflexivity; intro; discriminate.
Qed.

(** * Further properties *)

(** ** Utility and counter-offers of the base strategy *)

Lemma utility_denominator_pos (a : BaseAgent) :
  0 < Qmax 1 (Qabs (max_price a - min_price a)).
Proof.
  apply Qlt_le_trans with 1; [reflexivity | apply Q.le_max_l].
Qed.

Lemma Qabs_zero_iff (x : Q) : Qabs x == 0 <-> x == 0.
Proof.
  split; intros H.
  - pose proof (Qle_Qabs x) as H1. pose proof (Qle_Qabs (- x)) as H2.
    rewrite Qabs_opp in H2. lra.
  - rewrite H. reflexivity.
Qed.

(** X1.  On every configuration, valid or not, the utility of a price never
    exceeds 1, and it equals 1 exactly at the target price. *)
Theorem utility_peaks_at_target (a : BaseAgent) (p : Q) :
  utility a p <= 1 /\ (utility a p == 1 <-> p == target_price a).
Proof.
  unfold utility.
  pose proof (utility_denominator_pos a) as Hd.
  set (d := Qmax 1 (Qabs (max_price a - min_price a))) in *.
  assert (H0 : 0 <= Qabs (p - target_price a) / d).
  { apply Qle_shift_div_l; [exact Hd|]. rewrite Qmult_0_l. apply Qabs_nonneg. }
  split; [lra|]. split; intros H.
  - assert (Hz : Qabs (p - target_price a) / d == 0) by lra.
    assert (Hn : Qabs (p - target_price a) == 0).
    { assert (Hnz : ~ d == 0) by (intro E; rewrite E in Hd; apply (Qlt_irrefl 0 Hd)).
      apply Qeq_trans with (Qabs (p - target_price a) / d * d).
      - field. exact Hnz.
      - rewrite Hz. ring. }
    apply (proj1 (Qabs_zero_iff _)) in Hn. clear - Hn. apply Qle_antisym; lra.
  - assert (E : p - target_price a == 0) by (rewrite H; ring).
    rewrite E. simpl Qabs. unfold Qdiv. ring.
Qed.

Lemma clamp_between (a : BaseAgent) (x lo hi : Q) :
  valid_config a -> lo <= target_price a -> target_price a <= hi ->
  lo <= x -> x <= hi -> lo <= clamp a x /\ clamp a x <= hi.
Proof.
  intros [Hmin Hmax] Hlo Hhi Hx1 Hx2. unfold clamp.
  split.
  - apply Qle_trans with (Qmin (max_price a) x); [|apply Q.le_max_r].
    apply Q.min_glb; lra.
  - apply Q.max_lub; [lra|].
    apply Qle_trans with x; [apply Q.le_min_r | exact Hx2].
Qed.

Lemma concession_factor_unit (a : BaseAgent) (last : Q) :
  0 <= aggressiveness a -> aggressiveness a <= 1 ->
  let cf :=
    match truthy (market_price a) with
    | Some market =>
        match agent_type a with
        | buyer => if Qltb market last then (0.5 + (1 - aggressiveness a) * 0.3) * 0.9
                   else 0.5 + (1 - aggressiveness a) * 0.3
        | seller => if Qltb last market then (0.5 + (1 - aggressiveness a) * 0.3) * 0.9
                    else 0.5 + (1 - aggressiveness a) * 0.3
        end
    | None => 0.5 + (1 - aggressiveness a) * 0.3
    end in
  0 <= cf /\ cf <= 1.
Proof.
  intros H0 H1. cbv zeta.
  destruct (truthy (market_price a)); [destruct (agent_type a)|];
    try destruct (Qltb _ _); split; lra.
Qed.

Lemma propose_between_target_and_offer (a : BaseAgent) (last : Q) :
  valid_config a -> 0 <= aggressiveness a -> aggressiveness a <= 1 ->
  Qmin (target_price a) last <= BaseAgent_propose a (Some last)
  /\ BaseAgent_propose a (Some last) <= Qmax (target_price a) last.
Proof.
  intros Hv H0 H1. unfold BaseAgent_propose. cbv zeta.
  pose proof (concession_factor_unit a last H0 H1) as Hcf. cbv zeta in Hcf.
  set (cf := match truthy (market_price a) with Some _ => _ | None => _ end) in *.
  destruct Hcf as [Hc0 Hc1].
  pose proof (Q.le_min_l (target_price a) last).
  pose proof (Q.le_min_r (target_price a) last).
  pose proof (Q.le_max_l (target_price a) last).
  pose proof (Q.le_max_r (target_price a) last).
  apply clamp_between; try assumption.
  - destruct (Qlt_le_dec last (target_price a)).
    + apply Qle_trans with last; [assumption|]. nra.
    + apply Qle_trans with (target_price a); [assumption|]. nra.
  - destruct (Qlt_le_dec last (target_price a)).
    + apply Qle_trans with (target_price a); [|assumption]. nra.
    + apply Qle_trans with last; [|assumption]. nra.
Qed.

(** X2.  With an aggressiveness in [[0, 1]] a counter-offer of the base
    strategy stays in the price range and lies between the agent's own
    target and the opponent's last offer: it concedes, and never past the
    offer it answers. *)
Theorem counter_offer_between_target_and_offer (a : BaseAgent) (last : Q) :
  valid_config a -> 0 <= aggressiveness a -> aggressiveness a <= 1 ->
  (min_price a <= BaseAgent_propose a (Some last) <= max_price a)
  /\ (Qmin (target_price a) last <= BaseAgent_propose a (Some last)
                                 <= Qmax (target_price a) last).
Proof.
  intros Hv H0 H1. split.
  - apply BaseAgent_propose_in_range. exact Hv.
  - apply propose_between_target_and_offer; assumption.
Qed.

Lemma counter_offer_between_target_and_offer_witness :
  (min_price test_buyer <= BaseAgent_propose test_buyer (Some 95) <= max_price test_buyer)
  /\ (Qmin (target_price test_buyer) 95 <= BaseAgent_propose test_buyer (Some 95)
                                        <= Qmax (target_price test_buyer) 95).
Proof.
  apply (counter_offer_between_target_and_offer test_buyer 95).
  - split; qeval.
  - qeval.
  - qeval.
Defined.

Lemma clamp_compat (a : BaseAgent) (x y : Q) : x == y -> clamp a x == clamp a y.
Proof. intros E. unfold clamp. rewrite E. reflexivity. Qed.

Lemma clamp_monotone (a : BaseAgent) (x y : Q) : x <= y -> clamp a x <= clamp a y.
Proof.
  intros H. unfold clamp.
  apply Q.max_le_compat_l. apply Q.min_le_compat_l. exact H.
Qed.

(** X3.  With a market price the opening offer is the same for a buyer and a
    seller: both branches compute the target moved toward the market price
    by [(1 - aggressiveness) * 0.3] of the gap, clamped; with an
    aggressiveness in [[0, 1]] it lies between target and market price. *)
Theorem opening_anchor_ignores_role (a : BaseAgent) (market : Q) :
  valid_config a -> 0 <= aggressiveness a -> aggressiveness a <= 1 ->
  truthy (market_price a) = Some market ->
  BaseAgent_propose a None
  == clamp a (target_price a
              + (market - target_price a) * (1 - aggressiveness a) * 0.3)
  /\ Qmin (target_price a) market <= BaseAgent_propose a None
  /\ BaseAgent_propose a None <= Qmax (target_price a) market.
Proof.
  intros Hv H0 H1 Hm. unfold BaseAgent_propose. rewrite Hm.
  assert (E : match agent_type a with
              | buyer => target_price a
                         - (target_price a - market) * (1 - aggressiveness a) * 0.3
              | seller => target_price a
                          + (market - target_price a) * (1 - aggressiveness a) * 0.3
              end
              == target_price a
                 + (market - target_price a) * (1 - aggressiveness a) * 0.3).
  { destruct (agent_type a); ring. }
  cbv zeta. split; [apply clamp_compat; exact E|].
  pose proof (Q.le_min_l (target_price a) market).
  pose proof (Q.le_min_r (target_price a) market).
  pose proof (Q.le_max_l (target_price a) market).
  pose proof (Q.le_max_r (target_price a) market).
  apply clamp_between; try assumption; rewrite E.
  - destruct (Qlt_le_dec market (target_price a)).
    + apply Qle_trans with market; [assumption|]. nra.
    + apply Qle_trans with (target_price a); [assumption|]. nra.
  - destruct (Qlt_le_dec market (target_price a)).
    + apply Qle_trans with (target_price a); [|assumption]. nra.
    + apply Qle_trans with market; [|assumption]. nra.
Qed.

Lemma opening_anchor_ignores_role_witness :
  BaseAgent_propose market_buyer None
  == clamp market_buyer
       (target_price market_buyer
        + (90 - target_price market_buyer) * (1 - aggressiveness market_buyer) * 0.3)
  /\ Qmin (target_price market_buyer) 90 <= BaseAgent_propose market_buyer None
  /\ BaseAgent_propose market_buyer None <= Qmax (target_price market_buyer) 90.
Proof.
  apply (opening_anchor_ignores_role market_buyer 90).
  - split; qeval.
  - qeval.
  - qeval.
  - vm_compute. reflexivity.
Defined.

(** X4.  Without a market price (absent or 0.0) and with an aggressiveness of
    at most 1, the counter-offer of the base strategy is monotone in the
    offer it answers. *)
Theorem counter_offer_monotone_without_market (a : BaseAgent) (l1 l2 : Q) :
  truthy (market_price a) = None -> aggressiveness a <= 1 -> l1 <= l2 ->
  BaseAgent_propose a (Some l1) <= BaseAgent_propose a (Some l2).
Proof.
  intros Hm Ha Hl. unfold BaseAgent_propose. rewrite Hm. cbv zeta.
  apply clamp_monotone. nra.
Qed.

Lemma counter_offer_monotone_without_market_witness :
  BaseAgent_propose test_buyer (Some 90) <= BaseAgent_propose test_buyer (Some 95).
Proof.
  apply (counter_offer_monotone_without_market test_buyer 90 95).
  - vm_compute. reflexivity.
  - qeval.
  - qeval.
Defined.

(** ** Bounds of the proportional fairness *)

Lemma floored_log_bounds (u : Q) :
  u <= 1 ->
  (ln (Q2R epsilon) <= ln (Q2R (Qmax epsilon u)) <= 0)%R.
Proof.
  intros Hu.
  assert (He : (0 < Q2R epsilon)%R).
  { replace 0%R with (Q2R 0) by (unfold Q2R; simpl; lra).
    apply Qlt_Rlt. reflexivity. }
  assert (H1 : (Q2R epsilon <= Q2R (Qmax epsilon u))%R).
  { apply Qle_Rle. apply Q.le_max_l. }
  assert (H2 : (Q2R (Qmax epsilon u) <= 1)%R).
  { replace 1%R with (Q2R 1) by (unfold Q2R; simpl; lra).
    apply Qle_Rle. apply Q.max_lub; [discriminate | exact Hu]. }
  split.
  - destruct H1 as [H1|H1].
    + left. apply ln_increasing; assumption.
    + rewrite H1. right. reflexivity.
  - rewrite <- ln_1. destruct H2 as [H2|H2].
    + left. apply ln_increasing; lra.
    + rewrite H2. right. reflexivity.
Qed.

(** X5.  For utilities of at most 1 the proportional fairness lies between
    [2 * ln(1e-6)] and 0: the floor at epsilon bounds it from below, however
    small or negative a utility is. *)
Theorem proportional_fairness_bounds (u1 u2 : Q) :
  u1 <= 1 -> u2 <= 1 ->
  (2 * ln (Q2R 1e-6) <= calculate_proportional_fairness u1 u2 <= 0)%R.
Proof.
  intros H1 H2. unfold calculate_proportional_fairness. cbv zeta.
  pose proof (floored_log_bounds u1 H1) as B1.
  pose proof (floored_log_bounds u2 H2) as B2.
  change (Q2R 1e-6) with (Q2R epsilon). lra.
Qed.

Lemma proportional_fairness_bounds_witness :
  (2 * ln (Q2R 1e-6) <= calculate_proportional_fairness (-3) 0.5 <= 0)%R.
Proof.
  apply (proportional_fairness_bounds (-3) 0.5).
  - qeval.
  - qeval.
Defined.

(** ** Shape of a returned timeline *)

Lemma negotiation_round_index (b s : BaseAgent) (ut : bool) (r : Z) (st : LoopState) :
  rr_round (fst (negotiation_round b s ut r st)) = r.
Proof.
  unfold negotiation_round.
  destruct (obj_propose (active_buyer st) (last_seller st)) as [bp ab].
  destruct (obj_propose (active_seller st) (Some bp)) as [sp asl].
  reflexivity.
Qed.

Lemma run_returns_at (b s : BaseAgent) (ut : bool) (max_rounds : Z) (r : nat) :
  (1 <= r <= Z.to_nat max_rounds)%nat ->
  (forall k, (1 <= k < r)%nat -> ~ triggers (nth_round b s ut k)) ->
  (triggers (nth_round b s ut r) \/ r = Z.to_nat max_rounds) ->
  run_negotiation_loop b s max_rounds ut
  = Return (map (nth_round b s ut) (seq 1 r),
            finalize b s (rr_buyer_offer (nth_round b s ut r))
              (rr_seller_offer (nth_round b s ut r))).
Proof.
  intros Hr Hbefore Hat.
  unfold run_negotiation_loop, run_negotiation_loop_obj. cbn [attrs].
  change 1%Z with (Z.of_nat 1).
  change (initial_state (Plain b) (Plain s) ut)
    with (state_after b s ut (initial_state (Plain b) (Plain s) ut) 0).
  rewrite (rounds_from b s ut (initial_state (Plain b) (Plain s) ut)
             (Z.to_nat max_rounds) 0 r []).
  - cbn [fst app]. rewrite Nat.sub_0_r. reflexivity.
  - lia.
  - intros k Hk.
    destruct (record_stops
                (round_record b s ut (initial_state (Plain b) (Plain s) ut) k)) eqn:E;
      [|reflexivity].
    exfalso. apply (Hbefore k); [lia|]. apply record_stops_triggers. exact E.
  - destruct Hat as [Hat|Hat]; [left | right; lia].
    apply record_stops_triggers. exact Hat.
Qed.

Lemma run_raises_without_rounds (b s : BaseAgent) (ut : bool) (max_rounds : Z) :
  (max_rounds <= 0)%Z -> run_negotiation_loop b s max_rounds ut = Raise TypeError.
Proof.
  intros H. unfold run_negotiation_loop, run_negotiation_loop_obj.
  replace (Z.to_nat max_rounds) with 0%nat by lia. reflexivity.
Qed.

(** Every run with [max_rounds >= 1] returns in this form. *)
Lemma run_form (b s : BaseAgent) (ut : bool) (max_rounds : Z) :
  (1 <= max_rounds)%Z ->
  exists r, (1 <= r <= Z.to_nat max_rounds)%nat
    /\ (forall k, (1 <= k < r)%nat -> ~ triggers (nth_round b s ut k))
    /\ (triggers (nth_round b s ut r) \/ r = Z.to_nat max_rounds)
    /\ run_negotiation_loop b s max_rounds ut
       = Return (map (nth_round b s ut) (seq 1 r),
                 finalize b s (rr_buyer_offer (nth_round b s ut r))
                   (rr_seller_offer (nth_round b s ut r))).
Proof.
  intros H.
  destruct (stopping_round_exists b s ut max_rounds H) as (r & Hr & Hb & Ha).
  exists r. repeat split; try assumption; try lia.
  apply run_returns_at; assumption.
Qed.

(** X6.  Whatever [run_negotiation_loop] returns has this shape: between 1
    and [max_rounds] records, numbered 1, 2, ... in order, which are the
    records of the rounds played; no record before the last meets the stop
    test, the last one does unless the round limit was reached, and the
    agreement is the finalisation of the last record's two offers. *)
Theorem returned_timeline_shape (b s : BaseAgent) (use_tom : bool)
    (max_rounds : Z) (timeline : list RoundRecord) (agreement : Agreement) :
  run_negotiation_loop b s max_rounds use_tom = Return (timeline, agreement) ->
  let n := length timeline in
  (1 <= n <= Z.to_nat max_rounds)%nat
  /\ timeline = map (nth_round b s use_tom) (seq 1 n)
  /\ map rr_round timeline = map Z.of_nat (seq 1 n)
  /\ (forall k, (1 <= k < n)%nat -> ~ triggers (nth_round b s use_tom k))
  /\ (triggers (nth_round b s use_tom n) \/ n = Z.to_nat max_rounds)
  /\ agreement
     = finalize b s (rr_buyer_offer (nth_round b s use_tom n))
         (rr_seller_offer (nth_round b s use_tom n)).
Proof.
  intros Hrun.
  destruct (Z_lt_le_dec max_rounds 1) as [Hlt|Hge].
  - rewrite run_raises_without_rounds in Hrun by lia. discriminate.
  - destruct (run_form b s use_tom max_rounds Hge) as (r & Hr & Hb & Ha & E).
    rewrite E in Hrun. injection Hrun as Htl Hag.
    assert (Hn : length timeline = r).
    { rewrite <- Htl, length_map, length_seq. reflexivity. }
    cbv zeta. rewrite Hn.
    split; [exact Hr|]. split; [symmetry; exact Htl|]. split.
    { rewrite <- Htl, map_map. apply map_ext_in. intros k Hk.
      unfold nth_round, round_record. apply negotiation_round_index. }
    split; [exact Hb|]. split; [exact Ha|]. symmetry. exact Hag.
Qed.

Lemma returned_timeline_shape_witness :
  match run_negotiation_loop test_buyer test_seller 8 false with
  | Return (timeline, agreement) =>
      let n := length timeline in
      (1 <= n <= Z.to_nat 8)%nat
      /\ timeline = map (nth_round test_buyer test_seller false) (seq 1 n)
      /\ map rr_round timeline = map Z.of_nat (seq 1 n)
      /\ (forall k, (1 <= k < n)%nat ->
                    ~ triggers (nth_round test_buyer test_seller false k))
      /\ (triggers (nth_round test_buyer test_seller false n) \/ n = Z.to_nat 8)
      /\ agreement
         = finalize test_buyer test_seller
             (rr_buyer_offer (nth_round test_buyer test_seller false n))
             (rr_seller_offer (nth_round test_buyer test_seller false n))
  | Raise _ => False
  end.
Proof.
  destruct (run_negotiation_loop test_buyer test_seller 8 false)
    as [[timeline agreement]|e] eqn:E.
  - exact (returned_timeline_shape test_buyer test_seller false 8 timeline agreement E).
  - vm_compute in E. discriminate E.
Defined.

(** ** Bounds kept by the base strategy *)

Lemma utility_unit_in_range (a : BaseAgent) (p : Q) :
  valid_config a -> min_price a <= p -> p <= max_price a ->
  0 <= utility a p /\ utility a p <= 1.
Proof.
  intros [Hlo Hhi] Hp1 Hp2. unfold utility.
  pose proof (utility_denominator_pos a) as Hd0.
  set (d := Qmax 1 (Qabs (max_price a - min_price a))) in *.
  assert (Hd2 : Qabs (max_price a - min_price a) <= d) by apply Q.le_max_r.
  assert (Hn : Qabs (p - target_price a) <= d).
  { apply Qle_trans with (Qabs (max_price a - min_price a)); [|exact Hd2].
    rewrite (Qabs_pos (max_price a - min_price a)) by lra.
    apply Qabs_Qle_condition. split; lra. }
  assert (H0 : 0 <= Qabs (p - target_price a) / d).
  { apply Qle_shift_div_l; [exact Hd0|]. rewrite Qmult_0_l. apply Qabs_nonneg. }
  assert (H1 : Qabs (p - target_price a) / d <= 1).
  { apply Qle_shift_div_r; [exact Hd0|]. lra. }
  split; lra.
Qed.

Lemma simple_fairness_unit (u1 u2 : Q) :
  0 <= u1 -> u1 <= 1 -> 0 <= u2 -> u2 <= 1 ->
  0 <= simple_fairness u1 u2 /\ simple_fairness u1 u2 <= 1.
Proof.
  intros. unfold simple_fairness.
  pose proof (Qabs_nonneg (u1 - u2)).
  assert (Qabs (u1 - u2) <= 1) by (apply Qabs_Qle_condition; split; lra).
  split; lra.
Qed.

Lemma base_record_bounds (b s : BaseAgent) (k : nat) :
  valid_config b -> valid_config s ->
  record_in_bounds b s (nth_round b s false (S k)).
Proof.
  intros Hb Hs.
  destruct (base_round_offers b s k) as (_ & Ebo & Eso & Ebu & Esu & Ef & _).
  unfold record_in_bounds.
  set (rec := nth_round b s false (S k)) in *.
  assert (Bb : min_price b <= rr_buyer_offer rec /\ rr_buyer_offer rec <= max_price b).
  { rewrite Ebo. apply BaseAgent_propose_in_range. exact Hb. }
  assert (Bs : min_price s <= rr_seller_offer rec /\ rr_seller_offer rec <= max_price s).
  { rewrite Eso. apply BaseAgent_propose_in_range. exact Hs. }
  assert (Ub : 0 <= rr_buyer_util rec /\ rr_buyer_util rec <= 1).
  { rewrite Ebu. apply utility_unit_in_range; [exact Hb | apply Bb | apply Bb]. }
  assert (Us : 0 <= rr_seller_util rec /\ rr_seller_util rec <= 1).
  { rewrite Esu. apply utility_unit_in_range; [exact Hs | apply Bs | apply Bs]. }
  repeat split; try apply Bb; try apply Bs; try apply Ub; try apply Us;
    rewrite Ef; apply simple_fairness_unit; try apply Ub; apply Us.
Qed.

Lemma base_timeline_bounds (b s : BaseAgent) (n : nat) :
  valid_config b -> valid_config s ->
  Forall (record_in_bounds b s) (map (nth_round b s false) (seq 1 n)).
Proof.
  intros Hb Hs. apply Forall_forall. intros rec Hin.
  apply in_map_iff in Hin. destruct Hin as (k & <- & Hk).
  apply in_seq in Hk. destruct k as [|k]; [lia|].
  apply base_record_bounds; assumption.
Qed.

(** X7.  In a negotiation of two base agents with valid configurations every
    offer stays in its maker's price range, every recorded utility and
    simple fairness lies in [[0, 1]], and the final price lies between the
    smaller [min_price] and the larger [max_price]. *)
Theorem base_negotiation_stays_in_bounds (b s : BaseAgent) (max_rounds : Z)
    (timeline : list RoundRecord) (agreement : Agreement) :
  valid_config b -> valid_config s ->
  run_negotiation_loop b s max_rounds false = Return (timeline, agreement) ->
  Forall (record_in_bounds b s) timeline
  /\ Qmin (min_price b) (min_price s) <= ag_price agreement
  /\ ag_price agreement <= Qmax (max_price b) (max_price s).
Proof.
  intros Hb Hs Hrun.
  destruct (Z_lt_le_dec max_rounds 1) as [Hlt|Hge].
  { rewrite run_raises_without_rounds in Hrun by lia. discriminate. }
  destruct (run_form b s false max_rounds Hge) as (r & Hr & _ & _ & E).
  rewrite E in Hrun. injection Hrun as Htl Hag. subst timeline agreement.
  split; [apply base_timeline_bounds; assumption|].
  destruct r as [|r]; [lia|].
  destruct (base_record_bounds b s r Hb Hs) as ([B1 B2] & [S1 S2] & _).
  cbn [finalize ag_price].
  pose proof (Q.le_min_l (min_price b) (min_price s)).
  pose proof (Q.le_min_r (min_price b) (min_price s)).
  pose proof (Q.le_max_l (max_price b) (max_price s)).
  pose proof (Q.le_max_r (max_price b) (max_price s)).
  set (bo := rr_buyer_offer (nth_round b s false (S r))) in *.
  set (so := rr_seller_offer (nth_round b s false (S r))) in *.
  assert (E2 : (bo + so) / 2 == (bo + so) * (1 # 2)) by (unfold Qdiv; reflexivity).
  rewrite E2. split; lra.
Qed.

Lemma base_negotiation_stays_in_bounds_witness :
  match run_negotiation_loop low_buyer high_seller 3 false with
  | Return (timeline, agreement) =>
      Forall (record_in_bounds low_buyer high_seller) timeline
      /\ Qmin (min_price low_buyer) (min_price high_seller) <= ag_price agreement
      /\ ag_price agreement <= Qmax (max_price low_buyer) (max_price high_seller)
  | Raise _ => False
  end.
Proof.
  destruct (run_negotiation_loop low_buyer high_seller 3 false)
    as [[timeline agreement]|e] eqn:E.
  - apply (base_negotiation_stays_in_bounds low_buyer high_seller 3 timeline agreement).
    + split; qeval.
    + split; qeval.
    + exact E.
  - vm_compute in E. discriminate E.
Defined.

(** ** The agents of run_auto *)

Lemma init_role (addr : string) (t lo hi : Q) (q : Z) (fw cr ag : Q) (mp : option Q) :
  agent_type (BaseAgent_init addr t lo hi q fw cr ag mp)
  = if Qltb t ((lo + hi) / 2) then buyer else seller.
Proof. reflexivity. Qed.

(** X11.  For a session with [min_price <= max_price], [run_auto] gives both
    agents the session's price range and a counterparty with a valid
    configuration: a generated seller always has role [seller], a generated
    buyer has role [buyer] exactly when [min_price < max_price]. *)
Theorem run_auto_counterparty (s : SessionRow) (market_price : option Q) :
  s_min_price s <= s_max_price s ->
  let (buyer_agent, seller_agent) := run_auto_agents s market_price in
  min_price buyer_agent = s_min_price s /\ max_price buyer_agent = s_max_price s
  /\ min_price seller_agent = s_min_price s /\ max_price seller_agent = s_max_price s
  /\ if String.eqb (s_role s) "buyer"
     then target_price buyer_agent = s_target_price s
          /\ valid_config seller_agent
          /\ agent_type seller_agent = seller
     else target_price seller_agent = s_target_price s
          /\ valid_config buyer_agent
          /\ (agent_type buyer_agent = buyer <-> s_min_price s < s_max_price s).
Proof.
  intros H. unfold run_auto_agents. cbv zeta.
  destruct (String.eqb (s_role s) "buyer").
  - repeat split; try reflexivity.
    + simpl. lra.
    + simpl. lra.
    + rewrite init_role.
      destruct (Qltb _ _) eqn:E; [|reflexivity].
      apply Qltb_true in E. exfalso.
      assert (E2 : (s_min_price s + s_max_price s) / 2
                   == (s_min_price s + s_max_price s) * (1 # 2)) by reflexivity.
      rewrite E2 in E. lra.
  - repeat split; try reflexivity.
    + simpl. lra.
    + simpl. lra.
    + rewrite init_role. destruct (Qltb _ _) eqn:E; [|discriminate].
      intros _. apply Qltb_true in E.
      assert (E2 : (s_min_price s + s_max_price s) / 2
                   == (s_min_price s + s_max_price s) * (1 # 2)) by reflexivity.
      rewrite E2 in E. lra.
    + intros Hlt. rewrite init_role. destruct (Qltb _ _) eqn:E; [reflexivity|].
      apply Qltb_false in E. exfalso.
      assert (E2 : (s_min_price s + s_max_price s) / 2
                   == (s_min_price s + s_max_price s) * (1 # 2)) by reflexivity.
      rewrite E2 in E. lra.
Qed.

Lemma run_auto_counterparty_witness :
  let (buyer_agent, seller_agent) := run_auto_agents example_session None in
  min_price buyer_agent = s_min_price example_session
  /\ max_price buyer_agent = s_max_price example_session
  /\ min_price seller_agent = s_min_price example_session
  /\ max_price seller_agent = s_max_price example_session
  /\ if String.eqb (s_role example_session) "buyer"
     then target_price buyer_agent = s_target_price example_session
          /\ valid_config seller_agent
          /\ agent_type seller_agent = seller
     else target_price seller_agent = s_target_price example_session
          /\ valid_config buyer_agent
          /\ (agent_type buyer_agent = buyer
              <-> s_min_price example_session < s_max_price example_session).
Proof.
  apply (run_auto_counterparty example_session None). qeval.
Defined.

Lemma run_auto_agents_valid (s : SessionRow) (market_price : option Q) :
  s_min_price s <= s_target_price s -> s_target_price s <= s_max_price s ->
  valid_config (fst (run_auto_agents s market_price))
  /\ valid_config (snd (run_auto_agents s market_price))
  /\ min_price (fst (run_auto_agents s market_price)) = s_min_price s
  /\ max_price (fst (run_auto_agents s market_price)) = s_max_price s
  /\ min_price (snd (run_auto_agents s market_price)) = s_min_price s
  /\ max_price (snd (run_auto_agents s market_price)) = s_max_price s.
Proof.
  intros H1 H2. unfold run_auto_agents. cbv zeta.
  destruct (String.eqb (s_role s) "buyer"); cbn [fst snd];
    repeat split; simpl; lra.
Qed.

(** X12.  For a session whose target lies in its price range and whose
    [max_rounds] is at least 1, the negotiation of [run_auto] returns an
    agreement after at most [max_rounds] rounds; every offer and the final
    price lie in the session's range, and the final utilities and fairness
    lie in [[0, 1]]. *)
Theorem run_auto_negotiation_in_bounds (s : SessionRow) (market_price : option Q) :
  s_min_price s <= s_target_price s -> s_target_price s <= s_max_price s ->
  (1 <= s_max_rounds s)%Z ->
  exists timeline agreement,
    run_auto_negotiation s market_price = Return (timeline, agreement)
    /\ (1 <= length timeline <= Z.to_nat (s_max_rounds s))%nat
    /\ Forall (fun rec =>
                 (s_min_price s <= rr_buyer_offer rec <= s_max_price s)
                 /\ (s_min_price s <= rr_seller_offer rec <= s_max_price s)
                 /\ (0 <= rr_fairness rec <= 1)) timeline
    /\ (s_min_price s <= ag_price agreement <= s_max_price s)
    /\ (0 <= ag_buyer_utility agreement <= 1)
    /\ (0 <= ag_seller_utility agreement <= 1)
    /\ (0 <= ag_fairness agreement <= 1).
Proof.
  intros H1 H2 Hr.
  destruct (run_auto_agents_valid s market_price H1 H2)
    as (Vb & Vs & Eb1 & Eb2 & Es1 & Es2).
  unfold run_auto_negotiation.
  destruct (run_auto_agents s market_price) as [b sl]. cbn [fst snd] in *.
  destruct (run_form b sl false (s_max_rounds s) Hr) as (r & Hrr & _ & _ & E).
  rewrite E. do 2 eexists. split; [reflexivity|].
  split; [rewrite length_map, length_seq; exact Hrr|].
  split.
  { pose proof (base_timeline_bounds b sl r Vb Vs) as F.
    eapply Forall_impl; [|exact F].
    intros rec (B & S & _ & _ & Fr).
    rewrite Eb1, Eb2 in B. rewrite Es1, Es2 in S. repeat split; tauto. }
  destruct r as [|r]; [lia|].
  destruct (base_record_bounds b sl r Vb Vs) as ([B1 B2] & [S1 S2] & _).
  rewrite Eb1, Eb2 in *. rewrite Es1, Es2 in *.
  set (bo := rr_buyer_offer (nth_round b sl false (S r))) in *.
  set (so := rr_seller_offer (nth_round b sl false (S r))) in *.
  assert (E2 : (bo + so) / 2 == (bo + so) * (1 # 2)) by reflexivity.
  assert (P : s_min_price s <= (bo + so) / 2 /\ (bo + so) / 2 <= s_max_price s).
  { rewrite E2. split; lra. }
  assert (Ub : 0 <= utility b ((bo + so) / 2) /\ utility b ((bo + so) / 2) <= 1).
  { apply utility_unit_in_range; [exact Vb | rewrite Eb1; apply P | rewrite Eb2; apply P]. }
  assert (Us : 0 <= utility sl ((bo + so) / 2) /\ utility sl ((bo + so) / 2) <= 1).
  { apply utility_unit_in_range; [exact Vs | rewrite Es1; apply P | rewrite Es2; apply P]. }
  cbn [finalize ag_price ag_buyer_utility ag_seller_utility ag_fairness].
  pose proof (simple_fairness_unit _ _ (proj1 Ub) (proj2 Ub) (proj1 Us) (proj2 Us)).
  repeat split; try apply P; try apply Ub; try apply Us; tauto.
Qed.

Lemma run_auto_negotiation_in_bounds_witness :
  exists timeline agreement,
    run_auto_negotiation example_session None = Return (timeline, agreement)
    /\ (1 <= length timeline <= Z.to_nat (s_max_rounds example_session))%nat
    /\ Forall (fun rec =>
                 (s_min_price example_session <= rr_buyer_offer rec
                                              <= s_max_price example_session)
                 /\ (s_min_price example_session <= rr_seller_offer rec
                                                 <= s_max_price example_session)
                 /\ (0 <= rr_fairness rec <= 1)) timeline
    /\ (s_min_price example_session <= ag_price agreement
                                    <= s_max_price example_session)
    /\ (0 <= ag_buyer_utility agreement <= 1)
    /\ (0 <= ag_seller_utility agreement <= 1)
    /\ (0 <= ag_fairness agreement <= 1).
Proof.
  apply (run_auto_negotiation_in_bounds example_session None).
  - qeval.
  - qeval.
  - vm_compute. discriminate.
Defined.

(** ** Attributes the loop does not read *)

Section Simulation.

Variables (b s b' s' : BaseAgent) (ut : bool).
Variable R : LoopState -> LoopState -> Prop.
Variable P : RoundRecord -> RoundRecord -> Prop.

Hypothesis step : forall r st st', R st st' ->
  P (fst (negotiation_round b s ut r st)) (fst (negotiation_round b' s' ut r st'))
  /\ R (snd (negotiation_round b s ut r st)) (snd (negotiation_round b' s' ut r st')).
Hypothesis same_stop : forall rec rec', P rec rec' ->
  record_stops rec = record_stops rec'
  /\ rr_buyer_offer rec = rr_buyer_offer rec'
  /\ rr_seller_offer rec = rr_seller_offer rec'.
Hypothesis same_last : forall st st', R st st' ->
  last_buyer st = last_buyer st' /\ last_seller st = last_seller st'.
Hypothesis same_final : forall x y, finalize b s x y = finalize b' s' x y.

Lemma rounds_sim (n : nat) : forall r st st' tl tl',
  R st st' -> Forall2 P tl tl' ->
  match fst (negotiation_rounds b s ut n r st tl),
        fst (negotiation_rounds b' s' ut n r st' tl')
  with
  | Return (t, a), Return (t', a') => Forall2 P t t' /\ a = a'
  | Raise e, Raise e' => e = e'
  | _, _ => False
  end.
Proof.
  induction n as [|n IH]; intros r st st' tl tl' HR Htl.
  - cbn [negotiation_rounds].
    destruct (same_last st st' HR) as [<- <-].
    destruct (last_buyer st), (last_seller st); cbn [fst]; try reflexivity.
    split; [exact Htl | apply same_final].
  - cbn [negotiation_rounds].
    destruct (step r st st' HR) as [HP HR'].
    destruct (negotiation_round b s ut r st) as [rec st1].
    destruct (negotiation_round b' s' ut r st') as [rec' st1'].
    cbn [fst snd] in HP, HR'.
    destruct (same_stop rec rec' HP) as (<- & <- & <-).
    assert (Htl' : Forall2 P (tl ++ [rec]) (tl' ++ [rec'])).
    { apply Forall2_app; [exact Htl | constructor; [exact HP | constructor]]. }
    destruct (record_stops rec).
    + cbn [fst]. split; [exact Htl' | apply same_final].
    + apply IH; assumption.
Qed.

End Simulation.

Lemma Forall2_eq_eq {A : Type} (l l' : list A) : Forall2 eq l l' -> l = l'.
Proof. induction 1; [reflexivity | subst; reflexivity]. Qed.

(** X9.  The configured [concession_rate] is never read: changing it on
    either agent changes nothing in what [run_negotiation_loop] returns,
    offers, explanations and agreement included, with or without
    [use_tom]. *)
Theorem concession_rate_has_no_effect (b s : BaseAgent) (cb cs : Q)
    (max_rounds : Z) (use_tom : bool) :
  run_negotiation_loop (with_concession_rate cb b) (with_concession_rate cs s)
    max_rounds use_tom
  = run_negotiation_loop b s max_rounds use_tom.
Proof.
  unfold run_negotiation_loop, run_negotiation_loop_obj. cbn [attrs].
  set (R := fun st st' : LoopState =>
              last_buyer st = last_buyer st' /\ last_seller st = last_seller st'
              /\ ((active_buyer st = active_buyer st'
                   /\ active_seller st = active_seller st')
                  \/ (active_buyer st = Plain (with_concession_rate cb b)
                      /\ active_buyer st' = Plain b
                      /\ active_seller st = Plain (with_concession_rate cs s)
                      /\ active_seller st' = Plain s))).
  pose proof (rounds_sim (with_concession_rate cb b) (with_concession_rate cs s)
                b s use_tom R eq) as Sim.
  assert (HR0 : R (initial_state (Plain (with_concession_rate cb b))
                     (Plain (with_concession_rate cs s)) use_tom)
                  (initial_state (Plain b) (Plain s) use_tom)).
  { unfold R, initial_state. cbn. split; [reflexivity|]. split; [reflexivity|].
    destruct use_tom; [left | right]; repeat split; reflexivity. }
  specialize (Sim).
  match goal with
  | |- fst (let (_, _) := ?x in _) = fst (let (_, _) := ?y in _) =>
      assert (E : fst x = fst y)
  end.
  { match type of Sim with
    | ?H1 -> ?H2 -> ?H3 -> ?H4 -> _ =>
        assert (S1 : H1); [|assert (S2 : H2); [|assert (S3 : H3); [|assert (S4 : H4)]]]
    end.
    - intros r st st' (Hlb & Hls & Hact).
      unfold negotiation_round.
      destruct Hact as [[Eb Es]|(Eb & Eb' & Es & Es')].
      + rewrite Eb, Es, Hls.
        destruct (obj_propose (active_buyer st') (last_seller st')) as [bp ab].
        destruct (obj_propose (active_seller st') (Some bp)) as [sp asl].
        cbn [fst snd]. split; [reflexivity|].
        unfold R. cbn. repeat split. left. split; reflexivity.
      + rewrite Eb, Eb', Es, Es', Hls. cbn [obj_propose fst snd].
        split; [reflexivity|].
        unfold R. cbn. repeat split. right. repeat split.
    - intros rec rec' <-. repeat split.
    - intros st st' (Hlb & Hls & _). split; assumption.
    - intros x y. reflexivity.
    - specialize (Sim S1 S2 S3 S4 (Z.to_nat max_rounds) 1%Z _ _ [] [] HR0
                    (Forall2_nil _)).
      destruct (fst (negotiation_rounds _ _ _ _ _
                       (initial_state (Plain (with_concession_rate cb b)) _ _) _))
        as [[t a]|e];
        destruct (fst (negotiation_rounds b s _ _ _ _ _)) as [[t' a']|e'];
        try contradiction.
      + destruct Sim as [Ht ->]. apply Forall2_eq_eq in Ht. subst. reflexivity.
      + subst. reflexivity. }
  destruct (negotiation_rounds (with_concession_rate cb b) _ _ _ _ _ _).
  destruct (negotiation_rounds b s _ _ _ _ _).
  exact E.
Qed.

Lemma Forall2_map_eq {A B : Type} (f : A -> B) (l l' : list A) :
  Forall2 (fun x y => f x = f y) l l' -> map f l = map f l'.
Proof. induction 1; [reflexivity | cbn; congruence]. Qed.

Lemma figures_fix_stop (rec rec' : RoundRecord) :
  record_figures rec = record_figures rec' ->
  record_stops rec = record_stops rec'
  /\ rr_buyer_offer rec = rr_buyer_offer rec'
  /\ rr_seller_offer rec = rr_seller_offer rec'.
Proof.
  unfold record_figures, record_stops. intros E.
  injection E as _ Eb Es _ _ Ef _ _ _. rewrite Eb, Es, Ef. repeat split.
Qed.

(** X10.  With [use_tom] the loop negotiates through agents built from six
    attributes only, so the configured [aggressiveness] and [market_price]
    influence no offer, utility, fairness, insight or agreement; they only
    reach the explanations and the recorded market price. *)
Theorem opponent_modelling_ignores_style (b s : BaseAgent) (gb gs : Q)
    (mb ms : option Q) (max_rounds : Z) :
  match run_negotiation_loop (with_style gb mb b) (with_style gs ms s) max_rounds true,
        run_negotiation_loop b s max_rounds true
  with
  | Return (t, a), Return (t', a') =>
      map record_figures t = map record_figures t' /\ a = a'
  | Raise e, Raise e' => e = e'
  | _, _ => False
  end.
Proof.
  unfold run_negotiation_loop, run_negotiation_loop_obj. cbn [attrs].
  pose proof (rounds_sim (with_style gb mb b) (with_style gs ms s) b s true
                eq (fun rec rec' => record_figures rec = record_figures rec')) as Sim.
  assert (S1 : forall r st st', st = st' ->
            record_figures (fst (negotiation_round (with_style gb mb b)
                                   (with_style gs ms s) true r st))
            = record_figures (fst (negotiation_round b s true r st'))
            /\ snd (negotiation_round (with_style gb mb b) (with_style gs ms s) true r st)
               = snd (negotiation_round b s true r st')).
  { intros r st st' <-. unfold negotiation_round.
    destruct (obj_propose (active_buyer st) (last_seller st)) as [bp ab].
    destruct (obj_propose (active_seller st) (Some bp)) as [sp asl].
    split; reflexivity. }
  assert (S3 : forall st st' : LoopState, st = st' ->
            last_buyer st = last_buyer st' /\ last_seller st = last_seller st').
  { intros st st' <-. split; reflexivity. }
  assert (S4 : forall x y, finalize (with_style gb mb b) (with_style gs ms s) x y
                           = finalize b s x y) by reflexivity.
  specialize (Sim S1 figures_fix_stop S3 S4 (Z.to_nat max_rounds) 1%Z
                (initial_state (Plain b) (Plain s) true)
                (initial_state (Plain b) (Plain s) true) [] []
                eq_refl (Forall2_nil _)).
  change (initial_state (Plain (with_style gb mb b)) (Plain (with_style gs ms s)) true)
    with (initial_state (Plain b) (Plain s) true).
  destruct (negotiation_rounds (with_style gb mb b) _ _ _ _ _ _) as [res1 st1].
  destruct (negotiation_rounds b s _ _ _ _ _) as [res2 st2].
  cbn [fst] in *.
  destruct res1 as [[t a]|e], res2 as [[t' a']|e']; try contradiction.
  - destruct Sim as [Ht Ha]. split; [apply Forall2_map_eq; exact Ht | exact Ha].
  - exact Sim.
Qed.

(** ** run_tom_negotiation_loop *)

Lemma tom_propose_base (t : ToM.TheoryOfMindAgent) (o : option Q) :
  ToM.base (snd (ToM.propose t o)) = ToM.base t.
Proof.
  unfold ToM.propose. destruct o as [o|]; [|reflexivity].
  destruct (Qltb _ 0.3); reflexivity.
Qed.






(** ** The two opponent-modelling loops *)

Lemma same_prices_utility (a a' : BaseAgent) (p : Q) :
  same_prices a a' -> utility a p = utility a' p.
Proof. intros (E1 & E2 & E3). unfold utility. rewrite E1, E2, E3. reflexivity. Qed.

Section TwoLoops.

Variables (b s : BaseAgent) (max_rounds : Z).

Lemma paired_step (r : Z) (st : LoopState) (ts : TomLoopState) :
  paired b s st ts ->
  shared_figures (fst (negotiation_round b s true r st))
  = tom_round_figures (fst (tom_round r ts))
  /\ paired b s (snd (negotiation_round b s true r st)) (snd (tom_round r ts)).
Proof.
  intros (Hb & Hs & Hlb & Hls & Pb & Ps & Hq).
  unfold negotiation_round, tom_round. rewrite Hb, Hs, Hls. cbn [obj_propose].
  pose proof (tom_propose_base (tl_buyer ts) (tl_last_seller ts)) as Bb.
  destruct (ToM.propose (tl_buyer ts) (tl_last_seller ts)) as [bp tb].
  pose proof (tom_propose_base (tl_seller ts) (Some bp)) as Bs.
  destruct (ToM.propose (tl_seller ts) (Some bp)) as [sp tsl].
  cbn [fst snd] in *.
  assert (Pb' : same_prices b (ToM.base tb)) by (rewrite Bb; exact Pb).
  assert (Ps' : same_prices s (ToM.base tsl)) by (rewrite Bs; exact Ps).
  split.
  - unfold shared_figures, tom_round_figures.
    cbn [rr_round rr_buyer_offer rr_seller_offer rr_buyer_util rr_seller_util
         rr_fairness rr_buyer_tom_insights rr_seller_tom_insights
         tr_round tr_buyer_offer tr_seller_offer tr_buyer_util tr_seller_util
         tr_fairness tr_buyer_tom_insights tr_seller_tom_insights obj_summary].
    rewrite (same_prices_utility b _ bp Pb'), (same_prices_utility s _ sp Ps').
    reflexivity.
  - unfold paired. cbn. repeat split; try apply Pb'; try apply Ps'.
    rewrite Bb. exact Hq.
Qed.

Lemma two_loops_sim (n : nat) : forall r st ts tl ttl,
  paired b s st ts ->
  Forall2 (fun x y => shared_figures x = tom_round_figures y) tl ttl ->
  match fst (negotiation_rounds b s true n r st tl),
        fst (tom_rounds max_rounds n r ts ttl)
  with
  | Return (t, a), Return (t', a') =>
      Forall2 (fun x y => shared_figures x = tom_round_figures y) t t'
      /\ ag_price a = ta_price a' /\ ag_quantity a = ta_quantity a'
  | Raise e, Raise e' => e = e'
  | _, _ => False
  end.
Proof.
  induction n as [|n IH]; intros r st ts tl ttl HP Htl.
  - cbn [negotiation_rounds tom_rounds].
    destruct HP as (_ & _ & Hlb & Hls & _ & _ & Hq).
    rewrite Hlb, Hls.
    destruct (tl_last_buyer ts), (tl_last_seller ts); cbn [fst]; try reflexivity.
    repeat split; [exact Htl | exact Hq].
  - cbn [negotiation_rounds tom_rounds].
    destruct (paired_step r st ts HP) as [HF HP'].
    destruct (negotiation_round b s true r st) as [rec st1].
    destruct (tom_round r ts) as [trec ts1].
    cbn [fst snd] in HF, HP'.
    assert (Htl' : Forall2 (fun x y => shared_figures x = tom_round_figures y)
                     (tl ++ [rec]) (ttl ++ [trec])).
    { apply Forall2_app; [exact Htl | constructor; [exact HF | constructor]]. }
    unfold shared_figures, tom_round_figures in HF.
    injection HF as _ Eb Es _ _ Ef _ _.
    unfold record_stops. rewrite Eb, Es, Ef.
    destruct (stop_condition _ _ _).
    + cbn [fst]. split; [exact Htl'|]. cbn. split; [reflexivity|].
      destruct HP' as (_ & _ & _ & _ & _ & _ & Hq). exact Hq.
    + apply IH; assumption.
Qed.

End TwoLoops.

Lemma Forall2_map_eq2 {A B C : Type} (f : A -> C) (g : B -> C) (l : list A)
    (l' : list B) :
  Forall2 (fun x y => f x = g y) l l' -> map f l = map g l'.
Proof. induction 1; [reflexivity | cbn; congruence]. Qed.

(** X14.  [run_negotiation_loop] with [use_tom] and
    [run_tom_negotiation_loop] on agents freshly built from the same six
    attributes play the same negotiation: the same rounds with the same
    offers, utilities, fairness and insights, the same final price and
    quantity, and the same [TypeError] when [max_rounds <= 0]. *)
Theorem tom_loops_agree (b s : BaseAgent) (max_rounds : Z) :
  let fresh a :=
    ToM.init (address a) (target_price a) (min_price a) (max_price a)
      (quantity a) (fairness_weight a) ToM.default_tom_level in
  match run_negotiation_loop b s max_rounds true,
        fst (run_tom_negotiation_loop (fresh b) (fresh s) max_rounds)
  with
  | Return (t, a), Return (t', a') =>
      map shared_figures t = map tom_round_figures t'
      /\ ag_price a = ta_price a' /\ ag_quantity a = ta_quantity a'
  | Raise e, Raise e' => e = e'
  | _, _ => False
  end.
Proof.
  cbv zeta.
  unfold run_negotiation_loop, run_negotiation_loop_obj, run_tom_negotiation_loop.
  cbn [attrs].
  pose proof (two_loops_sim b s max_rounds (Z.to_nat max_rounds) 1%Z
                (initial_state (Plain b) (Plain s) true)
                (mkTomLoopState
                   (ToM.init (address b) (target_price b) (min_price b)
                      (max_price b) (quantity b) (fairness_weight b)
                      ToM.default_tom_level)
                   (ToM.init (address s) (target_price s) (min_price s)
                      (max_price s) (quantity s) (fairness_weight s)
                      ToM.default_tom_level)
                   None None) [] []) as Sim.
  match type of Sim with
  | ?H1 -> ?H2 -> _ => assert (S1 : H1); [|specialize (Sim S1 (Forall2_nil _))]
  end.
  { unfold paired, same_prices. cbn. repeat split. }
  destruct (negotiation_rounds b s true _ _ _ _) as [res1 st1].
  cbn [fst] in *.
  destruct res1 as [[t a]|e];
    destruct (fst (tom_rounds _ _ _ _ _)) as [[t' a']|e']; try contradiction.
  - destruct Sim as (Ht & Hp & Hq).
    split; [apply Forall2_map_eq2; exact Ht | split; assumption].
  - exact Sim.
Qed.

(** ** Confidence of the opponent model *)

Lemma classify_keeps_confidence (h : list Q) (m : ToM.OpponentModel) :
  ToM.belief_confidence (ToM.classify_strategy h m) = ToM.belief_confidence m.
Proof.
  unfold ToM.classify_strategy.
  destruct (2 <=? length h)%nat; [|reflexivity].
  destruct (successive_abs_diffs h); [reflexivity|].
  destruct (Qltb 0.1 _); [reflexivity|].
  destruct (Qltb _ 0.02); reflexivity.
Qed.

Lemma update_confidence (t : ToM.TheoryOfMindAgent) (o : Q) (mine : option Q) :
  ToM.belief_confidence (ToM.opponent_model (ToM.update_opponent_model t o mine))
  = if (3 <=? length (ToM.opponent_offer_history t ++ [o]))%nat
    then Qmin 1 (inject_Z (Z.of_nat
                   (Nat.min 5 (length (ToM.opponent_offer_history t ++ [o])))) / 10)
    else ToM.belief_confidence (ToM.opponent_model t).
Proof.
  unfold ToM.update_opponent_model. cbn [ToM.opponent_model].
  set (h := ToM.opponent_offer_history t ++ [o]).
  rewrite (proj2 (patience_keeps_target _ _ _ _)).
  unfold ToM.estimate_target.
  destruct (3 <=? length h)%nat eqn:E3.
  - apply Nat.leb_le in E3.
    assert (Hw : length (ToM.fit_window h) = Nat.min 5 (length h))
      by apply last_k_length.
    assert (E1 : (1 <? length (ToM.fit_window h))%nat = true)
      by (apply Nat.ltb_lt; lia).
    rewrite E1. unfold ToM.fit_confidence. rewrite Hw.
    destruct (ToM.target_price_estimate _); reflexivity.
  - apply classify_keeps_confidence.
Qed.

Lemma propose_observes (t : ToM.TheoryOfMindAgent) (o : Q) :
  let t' := snd (ToM.propose t (Some o)) in
  ToM.opponent_offer_history t' = ToM.opponent_offer_history t ++ [o]
  /\ ToM.round_count t' = (ToM.round_count t + 1)%Z
  /\ ToM.base t' = ToM.base t
  /\ ToM.opponent_model t'
     = ToM.opponent_model (ToM.update_opponent_model t o (ToM.my_last t)).
Proof.
  cbv zeta. unfold ToM.propose.
  destruct (Qltb _ 0.3); cbn; repeat split.
Qed.

Lemma after_offers_snoc (t : ToM.TheoryOfMindAgent) (offers : list Q) (o : Q) :
  ToM.after_offers t (offers ++ [o])
  = snd (ToM.propose (ToM.after_offers t offers) (Some o)).
Proof. unfold ToM.after_offers. rewrite fold_left_app. reflexivity. Qed.

Lemma after_offers_state (addr : string) (target lo hi : Q) (q : Z) (fw : Q)
    (lvl : Z) (offers : list Q) :
  let agent := ToM.after_offers (ToM.init addr target lo hi q fw lvl) offers in
  ToM.opponent_offer_history agent = offers
  /\ ToM.round_count agent = Z.of_nat (length offers)
  /\ ToM.base agent = ToM.base (ToM.init addr target lo hi q fw lvl)
  /\ ToM.belief_confidence (ToM.opponent_model agent)
     = confidence_after (length offers).
Proof.
  induction offers as [|o offers IH] using rev_ind.
  - cbn. repeat split.
  - cbv zeta in *. rewrite after_offers_snoc.
    set (prev := ToM.after_offers (ToM.init addr target lo hi q fw lvl) offers) in *.
    destruct IH as (Hh & Hr & Hb & Hc).
    destruct (propose_observes prev o) as (Eh & Er & Eb & Em). cbv zeta in *.
    rewrite Eh, Er, Eb, Em, update_confidence, Hh, Hr, Hb, Hc.
    rewrite length_app. cbn [length].
    repeat split; try reflexivity; [lia|].
    unfold confidence_after.
    destruct (3 <=? length offers + 1)%nat eqn:E3.
    + apply Nat.leb_le in E3.
      replace (length offers + 1 <? 3)%nat with false
        by (symmetry; apply Nat.ltb_ge; lia).
      reflexivity.
    + apply Nat.leb_gt in E3.
      replace (length offers + 1 <? 3)%nat with true
        by (symmetry; apply Nat.ltb_lt; lia).
      replace (length offers <? 3)%nat with true
        by (symmetry; apply Nat.ltb_lt; lia).
      reflexivity.
Qed.

Lemma confidence_after_threshold (n : nat) :
  Qltb (confidence_after n) 0.3 = (n <? 3)%nat.
Proof.
  unfold confidence_after. destruct (n <? 3)%nat eqn:E; [reflexivity|].
  apply Nat.ltb_ge in E.
  assert (C : (Nat.min 5 n = 3 \/ Nat.min 5 n = 4 \/ Nat.min 5 n = 5)%nat) by lia.
  destruct C as [C|[C|C]]; rewrite C; reflexivity.
Qed.

(** X15.  An opponent-modelling agent that has answered [n] offers since its
    construction holds exactly those offers, has counted [n] rounds, and has
    confidence 0.0 for [n < 3] and [min(5, n) / 10] after.  Its reply to the
    next offer is the unclamped midpoint [target + (offer - target) * 0.5]
    when [n < 2], and lies in [[min_price, max_price]] from then on. *)
Theorem tom_fallback_only_in_first_two_replies (addr : string)
    (target lo hi : Q) (q : Z) (fw : Q) (lvl : Z) (offers : list Q) (o : Q) :
  lo <= target -> target <= hi ->
  let agent := ToM.after_offers (ToM.init addr target lo hi q fw lvl) offers in
  ToM.opponent_offer_history agent = offers
  /\ ToM.round_count agent = Z.of_nat (length offers)
  /\ ToM.belief_confidence (ToM.opponent_model agent)
     = confidence_after (length offers)
  /\ if (length offers <? 2)%nat
     then fst (ToM.propose agent (Some o)) = target + (o - target) * 0.5
     else lo <= fst (ToM.propose agent (Some o))
          /\ fst (ToM.propose agent (Some o)) <= hi.
Proof.
  intros Hlo Hhi agent.
  destruct (after_offers_state addr target lo hi q fw lvl offers)
    as (Hh & Hr & Hb & Hc). fold agent in Hh, Hr, Hb, Hc.
  split; [exact Hh|]. split; [exact Hr|]. split; [exact Hc|].
  assert (Econf : ToM.belief_confidence
                    (ToM.opponent_model
                       (ToM.update_opponent_model agent o (ToM.my_last agent)))
                  = confidence_after (length offers + 1)).
  { destruct (after_offers_state addr target lo hi q fw lvl (offers ++ [o]))
      as (_ & _ & _ & Hc').
    rewrite after_offers_snoc in Hc'. fold agent in Hc'.
    destruct (propose_observes agent o) as (_ & _ & _ & Em). cbv zeta in Em.
    rewrite Em in Hc'. rewrite length_app in Hc'. exact Hc'. }
  destruct (length offers <? 2)%nat eqn:E2.
  - apply Nat.ltb_lt in E2.
    unfold ToM.propose. rewrite Econf, confidence_after_threshold.
    replace (length offers + 1 <? 3)%nat with true
      by (symmetry; apply Nat.ltb_lt; lia).
    cbn [fst]. rewrite update_opponent_model_base, Hb. reflexivity.
  - apply Nat.ltb_ge in E2.
    assert (V : valid_config (ToM.base agent)).
    { rewrite Hb. split; assumption. }
    pose proof (tom_propose_in_range_when_confident agent (Some o) V) as P.
    cbv beta iota in P. rewrite Hb in P. apply P.
    rewrite Econf, confidence_after_threshold.
    apply Nat.ltb_ge. lia.
Qed.

Lemma tom_fallback_only_in_first_two_replies_witness :
  let agent := ToM.after_offers (ToM.init "0xb" 50 40 100 10 0.5 2) [100; 98] in
  ToM.opponent_offer_history agent = [100; 98]
  /\ ToM.round_count agent = Z.of_nat (length [100; 98])
  /\ ToM.belief_confidence (ToM.opponent_model agent)
     = confidence_after (length [100; 98])
  /\ if (length [100; 98] <? 2)%nat
     then fst (ToM.propose agent (Some 96)) = 50 + (96 - 50) * 0.5
     else 40 <= fst (ToM.propose agent (Some 96))
          /\ fst (ToM.propose agent (Some 96)) <= 100.
Proof.
  apply (tom_fallback_only_in_first_two_replies "0xb" 50 40 100 10 0.5 2 [100; 98] 96).
  - qeval.
  - qeval.
Defined.

(** ** The fitted target *)

(** X16.  For three to five offers that move by the same step each round the
    fitted line has that step as slope, and the estimated target, its
    intercept, is the first offer of the window: the estimate looks back to
    where the window began, not ahead. *)
Theorem steady_offers_estimate_first_offer (c d : Q) (n : nat) :
  (3 <= n <= 5)%nat ->
  ToM.estimated_target (steady_offers c d n) == c
  /\ fst (np_polyfit1 (np_arange n) (steady_offers c d n)) == d.
Proof.
  intros H.
  assert (C : (n = 3 \/ n = 4 \/ n = 5)%nat) by lia.
  unfold ToM.estimated_target, steady_offers.
  destruct C as [C|[C|C]]; subst n;
    unfold np_polyfit1, np_arange, Qsum_prod, Qsum;
    cbn [length map seq combine fold_right fst snd Z.of_nat Pos.of_succ_nat
         Pos.succ inject_Z];
    split; field.
Qed.

Lemma steady_offers_estimate_first_offer_witness :
  ToM.estimated_target (steady_offers 100 (-2) 4) == 100
  /\ fst (np_polyfit1 (np_arange 4) (steady_offers 100 (-2) 4)) == -2.
Proof.
  apply (steady_offers_estimate_first_offer 100 (-2) 4). lia.
Defined.

(** ** Acceptance prediction *)

Lemma predict_cases (offer target : Q) :
  (offer < target * 0.95
   /\ UCNA.predict_acceptance offer target
      = UCNA.mkAcceptanceResult UCNA.reject 0.2 (target * 0.95) (target * 1.05))
  \/ (target * 0.95 <= offer /\ offer <= target * 1.05
      /\ UCNA.predict_acceptance offer target
         = UCNA.mkAcceptanceResult UCNA.likely_accept 0.8 (target * 0.95) (target * 1.05))
  \/ (target * 0.95 <= offer /\ target * 1.05 < offer
      /\ UCNA.predict_acceptance offer target
         = UCNA.mkAcceptanceResult UCNA.overpay_accept 0.95 (target * 0.95) (target * 1.05)).
Proof.
  unfold UCNA.predict_acceptance. cbv zeta.
  destruct (Qltb offer (target * 0.95)) eqn:E1.
  - left. apply Qltb_true in E1. split; [exact E1 | reflexivity].
  - apply Qltb_false in E1. right.
    assert (L : Qle_bool (target * 0.95) offer = true) by (apply Qle_bool_iff; exact E1).
    rewrite L. cbn [andb].
    destruct (Qle_bool offer (target * 1.05)) eqn:E2.
    + left. apply Qle_bool_iff in E2. repeat split; assumption.
    + right. split; [exact E1|]. split; [|reflexivity].
      apply Qnot_le_lt. intros C. apply Qle_bool_iff in C. congruence.
Qed.

(** X17.  For a fixed target the predicted acceptance probability never
    decreases when the offer increases, also for a zero or negative target,
    where the fair band is empty or reversed. *)
Theorem acceptance_probability_monotone (offer1 offer2 target : Q) :
  offer1 <= offer2 ->
  UCNA.acceptance_probability (UCNA.predict_acceptance offer1 target)
  <= UCNA.acceptance_probability (UCNA.predict_acceptance offer2 target).
Proof.
  intros H.
  destruct (predict_cases offer1 target) as [(A1 & ->)|[(A1 & B1 & ->)|(A1 & B1 & ->)]];
  destruct (predict_cases offer2 target) as [(A2 & ->)|[(A2 & B2 & ->)|(A2 & B2 & ->)]];
    cbn [UCNA.acceptance_probability]; try discriminate; exfalso; lra.
Qed.

Lemma acceptance_probability_monotone_witness :
  UCNA.acceptance_probability (UCNA.predict_acceptance 90 100)
  <= UCNA.acceptance_probability (UCNA.predict_acceptance 100 100).
Proof.
  apply (acceptance_probability_monotone 90 100 100). qeval.
Defined.


(** ** Belief updates of the multi-module agent *)

Lemma update_beliefs_target (self : UCNA.UnifiedNegotiationAgent) (o : Q) :
  UCNA.belief_target_price (UCNA.beliefs (UCNA.update_beliefs self o))
  = Some match UCNA.belief_target_price (UCNA.beliefs self) with
         | None => o
         | Some old => 0.7 * old + 0.3 * o
         end.
Proof. reflexivity. Qed.

Lemma update_beliefs_history (self : UCNA.UnifiedNegotiationAgent) (o : Q) :
  UCNA.opponent_offer_history (UCNA.update_beliefs self o)
  = UCNA.opponent_offer_history self ++ [o]
  /\ UCNA.round_count (UCNA.update_beliefs self o) = (UCNA.round_count self + 1)%Z.
Proof. split; reflexivity. Qed.

Lemma observed_beliefs (lo hi : Q) (offers : list Q) :
  forall self : UCNA.UnifiedNegotiationAgent,
    Forall (fun o => lo <= o /\ o <= hi) offers ->
    belief_within lo hi self ->
    belief_within lo hi (fold_left UCNA.update_beliefs offers self)
    /\ (offers <> [] ->
        UCNA.belief_target_price
          (UCNA.beliefs (fold_left UCNA.update_beliefs offers self)) <> None)
    /\ UCNA.opponent_offer_history (fold_left UCNA.update_beliefs offers self)
       = UCNA.opponent_offer_history self ++ offers
    /\ UCNA.round_count (fold_left UCNA.update_beliefs offers self)
       = (UCNA.round_count self + Z.of_nat (length offers))%Z.
Proof.
  induction offers as [|o offers IH]; intros self Hin Hb.
  - cbn. rewrite app_nil_r. repeat split; try assumption; try lia.
    intros C. contradiction.
  - cbn [fold_left]. inversion Hin as [|? ? Ho Hrest]; subst.
    destruct (IH (UCNA.update_beliefs self o) Hrest) as (B & N & Hh & Hr).
    + unfold belief_within. rewrite update_beliefs_target.
      unfold belief_within in Hb.
      destruct (UCNA.belief_target_price (UCNA.beliefs self)); lra.
    + split; [exact B|]. split.
      * intros _. destruct offers as [|o' offers'].
        -- cbn [fold_left]. rewrite update_beliefs_target. discriminate.
        -- apply N. discriminate.
      * rewrite Hh, Hr.
        destruct (update_beliefs_history self o) as [-> ->].
        rewrite <- app_assoc. cbn [app length]. split; [reflexivity | lia].
Qed.

(** X18.  Starting without a target belief, after any non-empty sequence of
    [update_beliefs] calls the belief exists and lies between the smallest
    and the largest offer observed; the history has grown by exactly those
    offers and the round count by their number. *)
Theorem belief_estimate_stays_between_offers (self : UCNA.UnifiedNegotiationAgent)
    (lo hi : Q) (o : Q) (offers : list Q) :
  UCNA.belief_target_price (UCNA.beliefs self) = None ->
  Forall (fun x => lo <= x /\ x <= hi) (o :: offers) ->
  let after := fold_left UCNA.update_beliefs (o :: offers) self in
  (exists e, UCNA.belief_target_price (UCNA.beliefs after) = Some e
             /\ lo <= e /\ e <= hi)
  /\ UCNA.opponent_offer_history after
     = UCNA.opponent_offer_history self ++ o :: offers
  /\ UCNA.round_count after
     = (UCNA.round_count self + Z.of_nat (length (o :: offers)))%Z.
Proof.
  intros Hnone Hin after.
  destruct (observed_beliefs lo hi (o :: offers) self Hin) as (B & N & Hh & Hr).
  { unfold belief_within. rewrite Hnone. exact I. }
  fold after in B, N, Hh, Hr.
  split; [|split; assumption].
  unfold belief_within in B.
  destruct (UCNA.belief_target_price (UCNA.beliefs after)) as [e|] eqn:E.
  - exists e. split; [reflexivity | exact B].
  - exfalso. apply N; [discriminate | reflexivity].
Qed.

Lemma belief_estimate_stays_between_offers_witness :
  let after := fold_left UCNA.update_beliefs (95 :: [93; 91]) unified_example in
  (exists e, UCNA.belief_target_price (UCNA.beliefs after) = Some e
             /\ 91 <= e /\ e <= 95)
  /\ UCNA.opponent_offer_history after
     = UCNA.opponent_offer_history unified_example ++ 95 :: [93; 91]
  /\ UCNA.round_count after
     = (UCNA.round_count unified_example + Z.of_nat (length (95 :: [93; 91])))%Z.
Proof.
  apply (belief_estimate_stays_between_offers unified_example 91 95 95 [93; 91]).
  - reflexivity.
  - repeat constructor; qeval.
Defined.

(** ** The optimiser *)

Section Search.

Variables (self : UCNA.UnifiedNegotiationAgent) (ot rs st : Q).

Let f := objective self ot rs st.

Lemma consider_objective (best : UCNA.Best) (c : Q) :
  UCNA.best_price (UCNA.consider self ot rs st best c)
  = (if match UCNA.max_score best with
        | None => true
        | Some m => Qltb m (f c)
        end
     then c else UCNA.best_price best)
  /\ UCNA.max_score (UCNA.consider self ot rs st best c)
     = (if match UCNA.max_score best with
           | None => true
           | Some m => Qltb m (f c)
           end
        then Some (f c) else UCNA.max_score best).
Proof.
  unfold UCNA.consider, f, objective. cbv zeta.
  destruct (UCNA.max_score best) as [m|] eqn:E; [destruct (Qltb m _)|];
    split; try reflexivity. exact E.
Qed.

Lemma consider_keeps_first_maximum (done : list Q) (best : UCNA.Best) (c : Q) :
  first_maximum f done best ->
  first_maximum f (done ++ [c]) (UCNA.consider self ot rs st best c).
Proof.
  intros Inv. destruct (consider_objective best c) as [Ep Em].
  right. destruct Inv as [[-> Hnone]|(i & Hi & Hm & Hall & Hbefore)].
  - rewrite Hnone in Ep, Em. exists 0%nat. rewrite Ep, Em. cbn.
    repeat split.
    + intros c' [<-|[]]. apply Qle_refl.
    + intros j c' Hj. lia.
  - rewrite Hm in Ep, Em.
    destruct (Qltb (f (UCNA.best_price best)) (f c)) eqn:E.
    + apply Qltb_true in E. exists (length done). rewrite Ep, Em.
      split; [rewrite nth_error_app2 by lia; rewrite Nat.sub_diag; reflexivity|].
      split; [reflexivity|]. split.
      * intros c' Hin. apply in_app_or in Hin. destruct Hin as [Hin|[<-|[]]].
        -- apply Qle_trans with (f (UCNA.best_price best));
             [apply Hall; exact Hin | apply Qlt_le_weak; exact E].
        -- apply Qle_refl.
      * intros j c' Hj Hn. rewrite nth_error_app1 in Hn by exact Hj.
        apply Qle_lt_trans with (f (UCNA.best_price best)); [|exact E].
        apply Hall. apply nth_error_In with j. exact Hn.
    + apply Qltb_false in E. exists i. rewrite Ep, Em.
      assert (Hlt : (i < length done)%nat).
      { apply nth_error_Some. rewrite Hi. discriminate. }
      split; [rewrite nth_error_app1 by exact Hlt; exact Hi|].
      split; [reflexivity|]. split.
      * intros c' Hin. apply in_app_or in Hin. destruct Hin as [Hin|[<-|[]]].
        -- apply Hall. exact Hin.
        -- exact E.
      * intros j c' Hj Hn. rewrite nth_error_app1 in Hn by lia.
        apply (Hbefore j c' Hj Hn).
Qed.

Lemma search_first_maximum (cands : list Q) : forall (done : list Q) (best : UCNA.Best),
  first_maximum f done best ->
  first_maximum f (done ++ cands)
    (fold_left (UCNA.consider self ot rs st) cands best).
Proof.
  induction cands as [|c cands IH]; intros done best Inv.
  - rewrite app_nil_r. exact Inv.
  - cbn [fold_left].
    replace (done ++ c :: cands) with ((done ++ [c]) ++ cands)
      by (rewrite <- app_assoc; reflexivity).
    apply IH. apply consider_keeps_first_maximum. exact Inv.
Qed.

End Search.

(** X20.  [optimize_offer] returns one of its 20 candidate prices, never the
    initial [target_price] as such, together with that candidate's score;
    no candidate scores higher, and every candidate before it scores
    strictly lower: ties go to the lowest price. *)
Theorem optimize_offer_first_maximum (self : UCNA.UnifiedNegotiationAgent)
    (opponent_offer : option Q) (risk_score stubbornness : Q) :
  let candidates :=
    UCNA.np_linspace (min_price (UCNA.base self)) (max_price (UCNA.base self)) 20 in
  let score :=
    objective self (UCNA.assumed_opponent_target self opponent_offer)
      risk_score stubbornness in
  let best := UCNA.optimize_offer self opponent_offer risk_score stubbornness in
  exists i,
    nth_error candidates i = Some (UCNA.best_price best)
    /\ UCNA.max_score best = Some (score (UCNA.best_price best))
    /\ (forall c, In c candidates -> score c <= score (UCNA.best_price best))
    /\ (forall j c, (j < i)%nat -> nth_error candidates j = Some c ->
                    score c < score (UCNA.best_price best)).
Proof.
  intros candidates score best.
  pose proof (search_first_maximum self
                (UCNA.assumed_opponent_target self opponent_offer)
                risk_score stubbornness candidates []
                (UCNA.mkBest (target_price (UCNA.base self)) None None)) as H.
  destruct H as [[E _]|H].
  - left. split; reflexivity.
  - discriminate E.
  - exact H.
Qed.

Lemma objective_shift (self : UCNA.UnifiedNegotiationAgent) (ot r1 s1 r2 s2 c : Q) :
  objective self ot r1 s1 c
  == objective self ot r2 s2 c
     + (UCNA.w_risk (UCNA.opt_weights self) * (r2 - r1)
        + UCNA.w_stubbornness (UCNA.opt_weights self) * (s2 - s1)).
Proof. unfold objective. cbv zeta. ring. Qed.

Lemma search_ignores_penalties (self : UCNA.UnifiedNegotiationAgent)
    (ot r1 s1 r2 s2 : Q) (cands : list Q) : forall best1 best2 : UCNA.Best,
  UCNA.best_price best1 = UCNA.best_price best2 ->
  match UCNA.max_score best1, UCNA.max_score best2 with
  | None, None => True
  | Some m1, Some m2 =>
      m1 == m2 + (UCNA.w_risk (UCNA.opt_weights self) * (r2 - r1)
                  + UCNA.w_stubbornness (UCNA.opt_weights self) * (s2 - s1))
  | _, _ => False
  end ->
  UCNA.best_price (fold_left (UCNA.consider self ot r1 s1) cands best1)
  = UCNA.best_price (fold_left (UCNA.consider self ot r2 s2) cands best2).
Proof.
  induction cands as [|c cands IH]; intros best1 best2 Hp Hm.
  - exact Hp.
  - cbn [fold_left].
    destruct (consider_objective self ot r1 s1 best1 c) as [Ep1 Em1].
    destruct (consider_objective self ot r2 s2 best2 c) as [Ep2 Em2].
    pose proof (objective_shift self ot r1 s1 r2 s2 c) as Sh.
    apply IH.
    + rewrite Ep1, Ep2.
      destruct (UCNA.max_score best1) as [m1|], (UCNA.max_score best2) as [m2|];
        try contradiction; [|reflexivity].
      destruct (Qltb m1 _) eqn:E1, (Qltb m2 _) eqn:E2; try reflexivity; try exact Hp;
        exfalso.
      * apply Qltb_true in E1. apply Qltb_false in E2. lra.
      * apply Qltb_false in E1. apply Qltb_true in E2. lra.
    + rewrite Em1, Em2.
      destruct (UCNA.max_score best1) as [m1|], (UCNA.max_score best2) as [m2|];
        try contradiction; [|exact Sh].
      destruct (Qltb m1 _) eqn:E1, (Qltb m2 _) eqn:E2; try exact Sh; try exact Hm;
        exfalso.
      * apply Qltb_true in E1. apply Qltb_false in E2. lra.
      * apply Qltb_false in E1. apply Qltb_true in E2. lra.
Qed.

(** X21.  The risk and stubbornness penalties are the same for every
    candidate, so the price [optimize_offer] chooses does not depend on the
    risk score or on the stubbornness. *)
Theorem optimizer_price_ignores_penalties (self : UCNA.UnifiedNegotiationAgent)
    (opponent_offer : option Q) (r1 s1 r2 s2 : Q) :
  UCNA.best_price (UCNA.optimize_offer self opponent_offer r1 s1)
  = UCNA.best_price (UCNA.optimize_offer self opponent_offer r2 s2).
Proof.
  unfold UCNA.optimize_offer. apply search_ignores_penalties; [reflexivity | exact I].
Qed.

(** ** Scale invariance of the clusterer *)

Lemma Qltb_compat (x x' y y' : Q) : x == x' -> y == y' -> Qltb x y = Qltb x' y'.
Proof.
  intros Ex Ey.
  destruct (Qltb x y) eqn:E1, (Qltb x' y') eqn:E2; try reflexivity; exfalso.
  - apply Qltb_true in E1. apply Qltb_false in E2. rewrite Ex, Ey in E1.
    apply (Qlt_not_le _ _ E1 E2).
  - apply Qltb_false in E1. apply Qltb_true in E2. rewrite Ex, Ey in E1.
    apply (Qlt_not_le _ _ E2 E1).
Qed.

Lemma Qsum_compat (l l' : list Q) : Forall2 Qeq l l' -> Qsum l == Qsum l'.
Proof.
  induction 1 as [|x y l l' Hxy _ IH]; [reflexivity|].
  cbn [Qsum fold_right]. fold (Qsum l) (Qsum l'). rewrite Hxy, IH. reflexivity.
Qed.

Lemma np_mean_compat (l l' : list Q) : Forall2 Qeq l l' -> np_mean l == np_mean l'.
Proof.
  intros H. unfold np_mean.
  rewrite (Qsum_compat l l' H), (Forall2_length H). reflexivity.
Qed.

Lemma pcts_scale (c : Q) (h : list Q) :
  0 < c ->
  Forall2 Qeq (UCNA.concession_pcts (map (Qmult c) h)) (UCNA.concession_pcts h).
Proof.
  intros Hc. induction h as [|x h IH]; [constructor|].
  destruct h as [|y h]; [constructor|].
  cbn [map UCNA.concession_pcts] in *.
  assert (Ex : Qltb 0 (c * x) = Qltb 0 x).
  { destruct (Qltb 0 x) eqn:E.
    - apply Qltb_true in E. apply Qltb_true. nra.
    - apply Qltb_false in E. apply Qltb_false. nra. }
  rewrite Ex. destruct (Qltb 0 x) eqn:E; [|exact IH].
  apply Qltb_true in E. constructor; [|exact IH].
  assert (Ea : Qabs (c * y - c * x) == c * Qabs (y - x)).
  { setoid_replace (c * y - c * x) with (c * (y - x)) by ring.
    rewrite Qabs_Qmult. rewrite (Qabs_pos c) by lra. reflexivity. }
  rewrite Ea. field. split; lra.
Qed.

(** X19.  The behaviour clusterer works on percentage changes: multiplying
    every offer of a history by the same positive factor changes neither
    the cluster nor its score, and leaves the average concession
    percentage equal. *)
Theorem cluster_behavior_scale_invariant (c : Q) (offer_history : list Q) :
  0 < c ->
  UCNA.cluster (UCNA.cluster_behavior (map (Qmult c) offer_history))
  = UCNA.cluster (UCNA.cluster_behavior offer_history)
  /\ UCNA.cluster_score (UCNA.cluster_behavior (map (Qmult c) offer_history))
     = UCNA.cluster_score (UCNA.cluster_behavior offer_history)
  /\ UCNA.avg_concession_pct (UCNA.cluster_behavior (map (Qmult c) offer_history))
     == UCNA.avg_concession_pct (UCNA.cluster_behavior offer_history).
Proof.
  intros Hc. unfold UCNA.cluster_behavior. rewrite length_map.
  destruct (length offer_history <? 2)%nat; [repeat split; reflexivity|].
  pose proof (pcts_scale c offer_history Hc) as F.
  destruct (UCNA.concession_pcts (map (Qmult c) offer_history)) as [|p ps];
    destruct (UCNA.concession_pcts offer_history) as [|p' ps'];
    try (inversion F; fail); [repeat split; reflexivity|].
  pose proof (np_mean_compat _ _ F) as M.
  rewrite (Qltb_compat _ _ 2.0 2.0 M (Qeq_refl _)).
  rewrite (Qltb_compat _ _ 7.0 7.0 M (Qeq_refl _)).
  destruct (Qltb (np_mean (p' :: ps')) 2.0);
    [|destruct (Qltb (np_mean (p' :: ps')) 7.0)];
    repeat split; try reflexivity; exact M.
Qed.

Lemma cluster_behavior_scale_invariant_witness :
  UCNA.cluster (UCNA.cluster_behavior (map (Qmult 250) cooperative_history))
  = UCNA.cluster (UCNA.cluster_behavior cooperative_history)
  /\ UCNA.cluster_score (UCNA.cluster_behavior (map (Qmult 250) cooperative_history))
     = UCNA.cluster_score (UCNA.cluster_behavior cooperative_history)
  /\ UCNA.avg_concession_pct
       (UCNA.cluster_behavior (map (Qmult 250) cooperative_history))
     == UCNA.avg_concession_pct (UCNA.cluster_behavior cooperative_history).
Proof.
  apply (cluster_behavior_scale_invariant 250 cooperative_history). qeval.
Defined.

(** ** Wash trades and reputation *)

Section Distinct.

Variable A : Type.
Variable A_eq_dec : forall x y : A, {x = y} + {x <> y}.

Lemma nodup_length_le (l : list A) : (length (nodup A_eq_dec l) <= length l)%nat.
Proof.
  induction l as [|a l IH]; [constructor|].
  cbn [nodup]. destruct (in_dec A_eq_dec a l); cbn [length]; lia.
Qed.

Lemma nodup_length_eq (l : list A) :
  length (nodup A_eq_dec l) = length l <-> NoDup l.
Proof.
  split.
  - induction l as [|a l IH]; intros H; [constructor|].
    cbn [nodup] in H. destruct (in_dec A_eq_dec a l) as [Hin|Hnin].
    + pose proof (nodup_length_le l). cbn [length] in H. lia.
    + cbn [length] in H. constructor; [exact Hnin | apply IH; lia].
  - intros H. rewrite nodup_fixed_point by exact H. reflexivity.
Qed.

(** X23.  [WashTradeDetector.suspicious] answers [True] exactly when there
    are at least four entries and the last four are not pairwise
    distinct; in particular it answers [False] on fewer than four. *)
Theorem suspicious_iff_repeat_in_last_four (recent_pairs : list A) :
  WashTradeDetector_suspicious A A_eq_dec recent_pairs = true
  <-> (4 <= length recent_pairs)%nat /\ ~ NoDup (last_k 4 recent_pairs).
Proof.
  unfold WashTradeDetector_suspicious.
  destruct (length recent_pairs <? 4)%nat eqn:E.
  - apply Nat.ltb_lt in E. split; [discriminate | intros [H _]; lia].
  - apply Nat.ltb_ge in E.
    assert (L : length (last_k 4 recent_pairs) = 4%nat)
      by (rewrite last_k_length; lia).
    pose proof (nodup_length_le (last_k 4 recent_pairs)) as Hle.
    rewrite Nat.ltb_lt. split.
    + intros H. split; [exact E|]. intros N.
      apply nodup_length_eq in N. lia.
    + intros [_ N].
      destruct (Nat.eq_dec (length (nodup A_eq_dec (last_k 4 recent_pairs))) 4)
        as [Heq|Hne]; [|lia].
      exfalso. apply N. apply nodup_length_eq. lia.
Qed.

End Distinct.

Lemma lookup_store_same (scores : Scores) (addr : string) (v : Q) :
  scores_lookup (scores_store scores addr v) addr = Some v.
Proof.
  induction scores as [|[k w] rest IH]; cbn.
  - rewrite String.eqb_refl. reflexivity.
  - destruct (String.eqb k addr) eqn:E; cbn; rewrite E; [reflexivity | exact IH].
Qed.

Lemma lookup_store_other (scores : Scores) (addr other : string) (v : Q) :
  other <> addr ->
  scores_lookup (scores_store scores addr v) other = scores_lookup scores other.
Proof.
  intros Hne. induction scores as [|[k w] rest IH]; cbn.
  - destruct (String.eqb addr other) eqn:E; [|reflexivity].
    apply String.eqb_eq in E. congruence.
  - destruct (String.eqb k addr) eqn:E; cbn.
    + apply String.eqb_eq in E. subst k.
      destruct (String.eqb addr other) eqn:E2; [|reflexivity].
      apply String.eqb_eq in E2. congruence.
    + destruct (String.eqb k other); [reflexivity | exact IH].
Qed.

(** X24.  After [update(addr, delta)], [get(addr)] is the previous value
    (0.5 for an unknown address) plus [delta], clamped to [[0, 1]], and
    [get] of any other address is unchanged. *)
Theorem reputation_update_then_get (self : Scores) (addr other : string) (delta : Q) :
  other <> addr ->
  Reputation_get (Reputation_update self addr delta) addr
  = Qmax 0.0 (Qmin 1.0 (Reputation_get self addr + delta))
  /\ Reputation_get (Reputation_update self addr delta) other
     = Reputation_get self other.
Proof.
  intros Hne. unfold Reputation_get at 1 3, Reputation_update.
  rewrite lookup_store_same, lookup_store_other by exact Hne.
  split; reflexivity.
Qed.

Lemma reputation_update_then_get_witness :
  Reputation_get (Reputation_update Reputation_init "0xa" 0.8) "0xa"
  = Qmax 0.0 (Qmin 1.0 (Reputation_get Reputation_init "0xa" + 0.8))
  /\ Reputation_get (Reputation_update Reputation_init "0xa" 0.8) "0xb"
     = Reputation_get Reputation_init "0xb".
Proof.
  apply (reputation_update_then_get Reputation_init "0xa" "0xb" 0.8). discriminate.
Defined.

Lemma store_keeps_unit (scores : Scores) (addr : string) (v : Q) :
  0 <= v -> v <= 1 ->
  Forall (fun kv => 0 <= snd kv /\ snd kv <= 1) scores ->
  Forall (fun kv => 0 <= snd kv /\ snd kv <= 1) (scores_store scores addr v).
Proof.
  intros H0 H1. induction 1 as [|[k w] rest Hkw Hrest IH]; cbn.
  - constructor; [cbn; split; assumption | constructor].
  - destruct (String.eqb k addr).
    + constructor; [cbn; split; assumption | exact Hrest].
    + constructor; [exact Hkw | exact IH].
Qed.

Lemma unit_clamp (x : Q) : 0 <= Qmax 0.0 (Qmin 1.0 x) /\ Qmax 0.0 (Qmin 1.0 x) <= 1.
Proof.
  split.
  - apply Qle_trans with 0.0; [discriminate | apply Q.le_max_l].
  - apply Q.max_lub; [discriminate|].
    apply Qle_trans with 1.0; [apply Q.le_min_l | discriminate].
Qed.

Lemma get_unit (scores : Scores) (addr : string) :
  Forall (fun kv => 0 <= snd kv /\ snd kv <= 1) scores ->
  0 <= Reputation_get scores addr /\ Reputation_get scores addr <= 1.
Proof.
  unfold Reputation_get. induction 1 as [|[k w] rest Hkw Hrest IH]; cbn.
  - split; discriminate.
  - destruct (String.eqb k addr); [exact Hkw | exact IH].
Qed.

(** X25.  After any sequence of updates of a new [Reputation], the score of
    every address, updated or not, lies in [[0, 1]]. *)
Theorem reputation_scores_stay_in_unit_interval (updates : list (string * Q))
    (addr : string) :
  0 <= Reputation_get (reputation_after updates) addr
  /\ Reputation_get (reputation_after updates) addr <= 1.
Proof.
  apply get_unit. unfold reputation_after.
  assert (G : forall scores,
             Forall (fun kv => 0 <= snd kv /\ snd kv <= 1) scores ->
             Forall (fun kv => 0 <= snd kv /\ snd kv <= 1)
               (fold_left (fun scores u => Reputation_update scores (fst u) (snd u))
                  updates scores)).
  { induction updates as [|u updates IH]; intros scores H; [exact H|].
    cbn [fold_left]. apply IH. unfold Reputation_update.
    apply store_keeps_unit; [apply unit_clamp | apply unit_clamp | exact H]. }
  apply G. constructor.
Qed.

(** ** Offers between the two targets *)

Lemma between_targets_step (a : BaseAgent) (last lo hi : Q) :
  valid_config a -> 0 <= aggressiveness a -> aggressiveness a <= 1 ->
  lo <= target_price a -> target_price a <= hi -> lo <= last -> last <= hi ->
  lo <= BaseAgent_propose a (Some last) /\ BaseAgent_propose a (Some last) <= hi.
Proof.
  intros Hv H0 H1 Hlo Hhi Hl1 Hl2.
  destruct (propose_between_target_and_offer a last Hv H0 H1) as [A B].
  split.
  - apply Qle_trans with (Qmin (target_price a) last); [|exact A].
    apply Q.min_glb; assumption.
  - apply Qle_trans with (Qmax (target_price a) last); [exact B|].
    apply Q.max_lub; assumption.
Qed.

Lemma base_offers_between (b s : BaseAgent) (k : nat) :
  valid_config b -> valid_config s ->
  0 <= aggressiveness b -> aggressiveness b <= 1 ->
  0 <= aggressiveness s -> aggressiveness s <= 1 ->
  truthy (market_price b) = None ->
  target_price b <= target_price s ->
  (target_price b <= rr_buyer_offer (nth_round b s false (S k))
   /\ rr_buyer_offer (nth_round b s false (S k)) <= target_price s)
  /\ (target_price b <= rr_seller_offer (nth_round b s false (S k))
      /\ rr_seller_offer (nth_round b s false (S k)) <= target_price s).
Proof.
  intros Vb Vs B0 B1 S0 S1 Hm Ht.
  induction k as [|k IH].
  - destruct (base_round_offers b s 0) as (_ & Ebo & Eso & _).
    assert (E : rr_buyer_offer (nth_round b s false 1) = target_price b).
    { rewrite Ebo. unfold BaseAgent_propose. rewrite Hm. reflexivity. }
    split.
    + rewrite E. split; [apply Qle_refl | exact Ht].
    + rewrite Eso, E.
      apply between_targets_step; try assumption; apply Qle_refl.
  - destruct (base_round_offers b s (S k)) as (_ & Ebo & Eso & _).
    destruct IH as [_ [Hs1 Hs2]].
    assert (Bo : target_price b <= rr_buyer_offer (nth_round b s false (S (S k)))
                 /\ rr_buyer_offer (nth_round b s false (S (S k))) <= target_price s).
    { rewrite Ebo. apply between_targets_step; try assumption; apply Qle_refl. }
    split; [exact Bo|].
    rewrite Eso.
    apply between_targets_step; try assumption; try apply Qle_refl; apply Bo.
Qed.

(** X8.  When the buyer's target is at most the seller's, both
    aggressiveness values lie in [[0, 1]] and the buyer has no market price,
    every offer of a base negotiation, and so the agreed price, lies between
    the two targets. *)
Theorem base_agreement_between_targets (b s : BaseAgent) (max_rounds : Z)
    (timeline : list RoundRecord) (agreement : Agreement) :
  valid_config b -> valid_config s ->
  0 <= aggressiveness b -> aggressiveness b <= 1 ->
  0 <= aggressiveness s -> aggressiveness s <= 1 ->
  truthy (market_price b) = None ->
  target_price b <= target_price s ->
  run_negotiation_loop b s max_rounds false = Return (timeline, agreement) ->
  Forall (fun rec =>
            (target_price b <= rr_buyer_offer rec <= target_price s)
            /\ (target_price b <= rr_seller_offer rec <= target_price s)) timeline
  /\ target_price b <= ag_price agreement <= target_price s.
Proof.
  intros Vb Vs B0 B1 S0 S1 Hm Ht Hrun.
  destruct (Z_lt_le_dec max_rounds 1) as [Hlt|Hge].
  { rewrite run_raises_without_rounds in Hrun by lia. discriminate. }
  destruct (run_form b s false max_rounds Hge) as (r & Hr & _ & _ & E).
  rewrite E in Hrun. injection Hrun as Htl Hag. subst timeline agreement.
  split.
  - apply Forall_forall. intros rec Hin.
    apply in_map_iff in Hin. destruct Hin as (k & <- & Hk).
    apply in_seq in Hk. destruct k as [|k]; [lia|].
    apply base_offers_between; assumption.
  - destruct r as [|r]; [lia|].
    destruct (base_offers_between b s r Vb Vs B0 B1 S0 S1 Hm Ht) as [[A1 A2] [C1 C2]].
    cbn [finalize ag_price].
    set (bo := rr_buyer_offer (nth_round b s false (S r))) in *.
    set (so := rr_seller_offer (nth_round b s false (S r))) in *.
    assert (E2 : (bo + so) / 2 == (bo + so) * (1 # 2)) by reflexivity.
    rewrite E2. split; lra.
Qed.

Lemma base_agreement_between_targets_witness :
  match run_negotiation_loop test_buyer test_seller 8 false with
  | Return (timeline, agreement) =>
      Forall (fun rec =>
                (target_price test_buyer <= rr_buyer_offer rec <= target_price test_seller)
                /\ (target_price test_buyer <= rr_seller_offer rec
                                            <= target_price test_seller)) timeline
      /\ target_price test_buyer <= ag_price agreement <= target_price test_seller
  | Raise _ => False
  end.
Proof.
  destruct (run_negotiation_loop test_buyer test_seller 8 false)
    as [[timeline agreement]|e] eqn:E.
  - apply (base_agreement_between_targets test_buyer test_seller 8 timeline agreement).
    + split; qeval.
    + split; qeval.
    + qeval.
    + qeval.
    + qeval.
    + qeval.
    + vm_compute. reflexivity.
    + qeval.
    + exact E.
  - vm_compute in E. discriminate E.
Defined.

(** ** Stored offers and the rebuilt timeline *)

Lemma rounds_member_app (d : RoundsData) (k : Z) (v : TimelineRow) :
  rounds_member (d ++ [(k, v)]) k = true.
Proof.
  induction d as [|[k' w] rest IH]; cbn.
  - rewrite Z.eqb_refl. reflexivity.
  - destruct (k' =? k)%Z; [reflexivity | exact IH].
Qed.

Lemma rounds_member_keys (d : RoundsData) (k : Z) :
  rounds_member d k = false <-> ~ In k (map fst d).
Proof.
  induction d as [|[k' w] rest IH]; cbn.
  - split; [intros _ [] | reflexivity].
  - destruct (k' =? k)%Z eqn:E.
    + apply Z.eqb_eq in E. split; [discriminate | intros H; exfalso; apply H; left; exact E].
    + apply Z.eqb_neq in E. rewrite IH. split.
      * intros H [C|C]; [contradiction | exact (H C)].
      * intros H C. apply H. right. exact C.
Qed.

Lemma rounds_modify_last (d : RoundsData) (k : Z) (v : TimelineRow)
    (f : TimelineRow -> TimelineRow) :
  ~ In k (map fst d) ->
  rounds_modify (d ++ [(k, v)]) k f = d ++ [(k, f v)].
Proof.
  induction d as [|[k' w] rest IH]; cbn; intros H.
  - rewrite Z.eqb_refl. reflexivity.
  - destruct (k' =? k)%Z eqn:E.
    + apply Z.eqb_eq in E. exfalso. apply H. left. exact E.
    + rewrite IH; [reflexivity|]. intros C. apply H. right. exact C.
Qed.

Lemma group_round (quantity : Z) (d : RoundsData) (rd : RoundRecord) (sf : bool) :
  ~ In (rr_round rd) (map fst d) ->
  fold_left group_offer
    (if sf then [seller_row quantity rd; buyer_row quantity rd]
     else [buyer_row quantity rd; seller_row quantity rd]) d
  = d ++ [(rr_round rd, shown rd)].
Proof.
  intros H. apply rounds_member_keys in H.
  destruct sf; cbn [fold_left]; unfold group_offer at 2;
    cbn [o_round o_made_by buyer_row seller_row String.eqb Ascii.eqb Bool.eqb];
    rewrite H; apply rounds_member_keys in H;
    rewrite (rounds_modify_last _ _ _ _ H);
    unfold group_offer;
    cbn [o_round o_made_by buyer_row seller_row String.eqb Ascii.eqb Bool.eqb];
    rewrite rounds_member_app, (rounds_modify_last _ _ _ _ H);
    reflexivity.
Qed.

Lemma group_rounds (quantity : Z) (seller_first : RoundRecord -> bool)
    (timeline : list RoundRecord) : forall d : RoundsData,
  NoDup (map fst d ++ map rr_round timeline) ->
  fold_left group_offer (offers_by_round quantity seller_first timeline) d
  = d ++ map (fun rd => (rr_round rd, shown rd)) timeline.
Proof.
  induction timeline as [|rd timeline IH]; intros d H.
  - cbn. rewrite app_nil_r. reflexivity.
  - unfold offers_by_round. cbn [flat_map]. rewrite fold_left_app.
    fold (offers_by_round quantity seller_first timeline).
    cbn [map] in H.
    rewrite group_round.
    + rewrite IH.
      * rewrite <- app_assoc. reflexivity.
      * rewrite map_app. cbn [map fst]. rewrite <- app_assoc. exact H.
    + apply NoDup_remove_2 in H. intros C. apply H. apply in_or_app. left. exact C.
Qed.

Lemma round_numbers_distinct (n : nat) : forall a : nat,
  NoDup (map Z.of_nat (seq a n)).
Proof.
  induction n as [|n IH]; intros a; cbn [seq map]; constructor.
  - intros C. apply in_map_iff in C. destruct C as (x & E & Hin).
    apply in_seq in Hin. lia.
  - apply IH.
Qed.

Lemma returned_rounds_distinct (b s : BaseAgent) (ut : bool) (max_rounds : Z)
    (timeline : list RoundRecord) (agreement : Agreement) :
  run_negotiation_loop b s max_rounds ut = Return (timeline, agreement) ->
  NoDup (map rr_round timeline).
Proof.
  intros Hrun.
  destruct (Z_lt_le_dec max_rounds 1) as [Hlt|Hge].
  { rewrite run_raises_without_rounds in Hrun by lia. discriminate. }
  destruct (run_form b s ut max_rounds Hge) as (r & _ & _ & _ & E).
  rewrite E in Hrun. injection Hrun as <- _.
  rewrite map_map.
  rewrite (map_ext _ Z.of_nat).
  - apply round_numbers_distinct.
  - intros k. unfold nth_round, round_record. apply negotiation_round_index.
Qed.

(** X26.  Storing the timeline of [run_auto] as offer rows and regrouping the
    rows by round, as [get_timeline] does, gives back every round with its
    two offers, utilities, fairness values and explanations, whichever of
    the two rows of a round the query yields first. *)
Theorem get_timeline_recovers_run_auto (s : SessionRow) (market_price : option Q)
    (seller_first : RoundRecord -> bool) (timeline : list RoundRecord)
    (agreement : Agreement) :
  run_auto_negotiation s market_price = Return (timeline, agreement) ->
  get_timeline (offers_by_round (s_quantity s) seller_first timeline)
  = map shown timeline
  /\ offers_by_round (s_quantity s) (fun _ => false) timeline
     = stored_offers (s_quantity s) timeline.
Proof.
  intros Hrun. split; [|reflexivity].
  unfold run_auto_negotiation in Hrun.
  destruct (run_auto_agents s market_price) as [b sl].
  apply returned_rounds_distinct in Hrun.
  unfold get_timeline. rewrite group_rounds by exact Hrun.
  cbn [app]. rewrite map_map. reflexivity.
Qed.

Lemma get_timeline_recovers_run_auto_witness :
  match run_auto_negotiation example_session None with
  | Return (timeline, agreement) =>
      get_timeline
        (offers_by_round (s_quantity example_session)
           (fun rd => Z.even (rr_round rd)) timeline)
      = map shown timeline
      /\ offers_by_round (s_quantity example_session) (fun _ => false) timeline
         = stored_offers (s_quantity example_session) timeline
  | Raise _ => False
  end.
Proof.
  destruct (run_auto_negotiation example_session None)
    as [[timeline agreement]|e] eqn:E.
  - exact (get_timeline_recovers_run_auto example_session None
             (fun rd => Z.even (rr_round rd)) timeline agreement E).
  - vm_compute in E. discriminate E.
Defined.

(** ** Q-learning updates *)

Section AdaptiveProperties.

Variable Action : Type.
Variable Action_eq_dec : forall x y : Action, {x = y} + {x <> y}.

Lemma np_index_lt (n : nat) (i : Z) (k : nat) : np_index n i = Some k -> (k < n)%nat.
Proof.
  unfold np_index.
  destruct ((0 <=? i) && (i <? Z.of_nat n))%Z eqn:E1.
  - intros [= <-]. apply andb_true_iff in E1. destruct E1 as [A B].
    apply Z.leb_le in A. apply Z.ltb_lt in B. lia.
  - destruct ((- Z.of_nat n <=? i) && (i <? 0))%Z eqn:E2; [|discriminate].
    intros [= <-]. apply andb_true_iff in E2. destruct E2 as [A B].
    apply Z.leb_le in A. apply Z.ltb_lt in B. lia.
Qed.

Lemma np_max_within (lo hi : Q) (row : list Q) (m : Q) :
  Forall (fun q => lo <= q /\ q <= hi) row -> np_max row = Some m ->
  lo <= m /\ m <= hi.
Proof.
  destruct row as [|x rest]; [discriminate|].
  intros H [= <-]. inversion H as [|? ? Hx Hrest]; subst. clear H.
  revert x Hx. induction Hrest as [|y rest Hy _ IH]; intros x Hx; cbn [fold_left].
  - exact Hx.
  - apply IH. split.
    + apply Qle_trans with x; [apply Hx | apply Q.le_max_l].
    + apply Q.max_lub; [apply Hx | apply Hy].
Qed.

Lemma list_set_Forall {A : Type} (P : A -> Prop) (l : list A) (i : nat) (v : A) :
  Forall P l -> P v -> Forall P (list_set l i v).
Proof.
  intros H Hv. revert i. induction H as [|x rest Hx Hrest IH]; intros i; cbn.
  - constructor.
  - destruct i; constructor; try assumption. apply IH.
Qed.

Lemma list_set_length {A : Type} (l : list A) (i : nat) (v : A) :
  length (list_set l i v) = length l.
Proof.
  revert i. induction l as [|x rest IH]; intros i; [reflexivity|].
  destruct i; cbn; [reflexivity | rewrite IH; reflexivity].
Qed.

Lemma nth_Forall {A : Type} (P : A -> Prop) (l : list A) (i : nat) (d : A) :
  Forall P l -> P d -> P (nth i l d).
Proof.
  intros H Hd. revert i. induction H as [|x rest Hx _ IH]; intros [|i]; cbn;
    try assumption. apply IH.
Qed.

Lemma update_keeps_bounds (self self' : AdaptiveAgent Action) (state : Z) (action : Action)
    (reward : Q) (next_state : Z) (lo hi : Q) :
  0 <= aa_alpha self -> aa_alpha self <= 1 -> 0 <= aa_gamma self ->
  lo <= reward + aa_gamma self * lo -> reward + aa_gamma self * hi <= hi ->
  table_within lo hi (aa_q_table self) ->
  AdaptiveAgent_update Action_eq_dec self state action reward next_state = inr self' ->
  table_within lo hi (aa_q_table self')
  /\ map (@length Q) (aa_q_table self') = map (@length Q) (aa_q_table self)
  /\ aa_alpha self' = aa_alpha self /\ aa_gamma self' = aa_gamma self
  /\ aa_actions self' = aa_actions self.
Proof.
  intros A0 A1 G0 Hlo Hhi Hin. unfold AdaptiveAgent_update. cbv zeta.
  destruct (list_index Action_eq_dec action (aa_actions self)) as [a_idx|]; [|discriminate].
  destruct (np_index (length (aa_q_table self)) next_state) as [ns|]; [|discriminate].
  destruct (np_max (nth ns (aa_q_table self) [])) as [best|] eqn:Emax; [|discriminate].
  destruct (np_index (length (aa_q_table self)) state) as [st|] eqn:Est; [|discriminate].
  destruct (nth_error (nth st (aa_q_table self) []) a_idx) as [old|] eqn:Eold;
    [|discriminate].
  intros [= <-]. cbn [aa_q_table aa_alpha aa_gamma aa_actions].
  assert (Hrow : forall i, Forall (fun q => lo <= q /\ q <= hi) (nth i (aa_q_table self) []))
    by (intros i; apply nth_Forall; [exact Hin | constructor]).
  assert (Hbest : lo <= best /\ best <= hi)
    by (apply (np_max_within lo hi _ _ (Hrow ns) Emax)).
  assert (Hold : lo <= old /\ old <= hi).
  { pose proof (Hrow st) as F. rewrite Forall_forall in F. apply F.
    apply nth_error_In with a_idx. exact Eold. }
  split; [|split; [|repeat split]].
  - apply list_set_Forall; [exact Hin|].
    apply list_set_Forall; [apply Hrow|].
    set (al := aa_alpha self) in *. set (g := aa_gamma self) in *.
    assert (T1 : lo <= reward + g * best) by nra.
    assert (T2 : reward + g * best <= hi) by nra.
    split; nra.
  - apply np_index_lt in Est. clear - Est.
    revert st Est. induction (aa_q_table self) as [|row rest IH]; intros st Hst;
      [reflexivity|].
    destruct st as [|st]; cbn.
    + rewrite list_set_length. reflexivity.
    + cbn in Hst. f_equal. apply IH. lia.
Qed.

Lemma list_index_spec (action : Action) (actions : list Action) :
  match list_index Action_eq_dec action actions with
  | Some i => (i < length actions)%nat /\ In action actions
  | None => ~ In action actions
  end.
Proof.
  induction actions as [|a rest IH]; cbn; [tauto|].
  destruct (Action_eq_dec a action) as [->|Hne].
  - split; [lia | left; reflexivity].
  - destruct (list_index Action_eq_dec action rest) as [i|].
    + destruct IH as [L I]. split; [lia | right; exact I].
    + intros [C|C]; [contradiction | exact (IH C)].
Qed.

Lemma np_index_spec (n : nat) (i : Z) :
  match np_index n i with
  | Some k => (k < n)%nat /\ (- Z.of_nat n <= i < Z.of_nat n)%Z
  | None => ~ (- Z.of_nat n <= i < Z.of_nat n)%Z
  end.
Proof.
  unfold np_index.
  destruct ((0 <=? i) && (i <? Z.of_nat n))%Z eqn:E1.
  - apply andb_true_iff in E1. destruct E1 as [A B].
    apply Z.leb_le in A. apply Z.ltb_lt in B. lia.
  - destruct ((- Z.of_nat n <=? i) && (i <? 0))%Z eqn:E2.
    + apply andb_true_iff in E2. destruct E2 as [A B].
      apply Z.leb_le in A. apply Z.ltb_lt in B. lia.
    + apply andb_false_iff in E1. apply andb_false_iff in E2.
      rewrite !Z.leb_gt, !Z.ltb_ge in *. lia.
Qed.

Lemma nth_row_length (table : list (list Q)) (w n k : nat) :
  map (@length Q) table = repeat w n -> (k < n)%nat -> length (nth k table []) = w.
Proof.
  revert n k. induction table as [|row rest IH]; intros n k H Hk.
  - destruct n; [lia | discriminate].
  - destruct n as [|n]; [discriminate|]. cbn in H. injection H as Hrow Hrest.
    destruct k as [|k]; cbn; [exact Hrow|]. apply (IH n); [exact Hrest | lia].
Qed.

(** X27.  On a table with [n] rows as wide as the list of actions, [update]
    succeeds exactly when the action is known and both states index a row,
    negative indices counting from the end; an unknown action raises a
    [ValueError] before any state is looked at, and a state outside
    [[-n, n)] raises an [IndexError]. *)
Theorem update_succeeds_iff (self : AdaptiveAgent Action) (n : nat) (state : Z)
    (action : Action) (reward : Q) (next_state : Z) :
  map (@length Q) (aa_q_table self) = repeat (length (aa_actions self)) n ->
  match AdaptiveAgent_update Action_eq_dec self state action reward next_state with
  | inr _ =>
      In action (aa_actions self)
      /\ (- Z.of_nat n <= state < Z.of_nat n)%Z
      /\ (- Z.of_nat n <= next_state < Z.of_nat n)%Z
  | inl ValueError => ~ In action (aa_actions self)
  | inl IndexError =>
      In action (aa_actions self)
      /\ ~ ((- Z.of_nat n <= state < Z.of_nat n)%Z
            /\ (- Z.of_nat n <= next_state < Z.of_nat n)%Z)
  end.
Proof.
  intros Hshape.
  assert (Hn : length (aa_q_table self) = n).
  { rewrite <- (length_map (@length Q)), Hshape, repeat_length. reflexivity. }
  unfold AdaptiveAgent_update. cbv zeta. rewrite Hn.
  pose proof (list_index_spec action (aa_actions self)) as Ha.
  destruct (list_index Action_eq_dec action (aa_actions self)) as [a_idx|]; [|exact Ha].
  destruct Ha as [Hlt Hin].
  pose proof (np_index_spec n next_state) as Hns.
  destruct (np_index n next_state) as [ns|]; [|split; [exact Hin | tauto]].
  destruct Hns as [Hns1 Hns2].
  pose proof (nth_row_length _ _ _ ns Hshape Hns1) as Wn.
  destruct (nth ns (aa_q_table self) []) as [|x rest] eqn:Erow.
  { cbn in Wn. lia. }
  cbn [np_max].
  pose proof (np_index_spec n state) as Hst.
  destruct (np_index n state) as [st|]; [|split; [exact Hin | tauto]].
  destruct Hst as [Hst1 Hst2].
  pose proof (nth_row_length _ _ _ st Hshape Hst1) as Ws.
  destruct (nth_error (nth st (aa_q_table self) []) a_idx) eqn:Eold.
  - repeat split; try assumption; lia.
  - apply nth_error_None in Eold. lia.
Qed.

(** X28.  After any sequence of successful updates of a new agent with
    rewards in [[lo, hi]], [lo <= 0 <= hi], every Q-value lies in
    [[10 * lo, 10 * hi]], the bound [1 / (1 - gamma)] times the rewards, and
    the table keeps its shape. *)
Theorem q_values_stay_bounded (agent_id : string) (actions : list Action)
    (state_space_size : nat) (target_price min_price max_price : Q) (quantity : Z)
    (steps : list (Z * Action * Q * Z)) (lo hi : Q) (trained : AdaptiveAgent Action) :
  lo <= 0 -> 0 <= hi ->
  Forall (fun step => lo <= snd (fst step) /\ snd (fst step) <= hi) steps ->
  AdaptiveAgent_updates Action_eq_dec
    (AdaptiveAgent_init agent_id actions state_space_size target_price min_price
       max_price quantity) steps
  = inr trained ->
  table_within (10 * lo) (10 * hi) (aa_q_table trained)
  /\ map (@length Q) (aa_q_table trained)
     = repeat (length actions) state_space_size.
Proof.
  intros Hlo Hhi Hsteps.
  set (init := AdaptiveAgent_init agent_id actions state_space_size target_price
                 min_price max_price quantity).
  assert (G : forall self,
             aa_alpha self = 0.5 -> aa_gamma self = 0.9 ->
             table_within (10 * lo) (10 * hi) (aa_q_table self) ->
             AdaptiveAgent_updates Action_eq_dec self steps = inr trained ->
             table_within (10 * lo) (10 * hi) (aa_q_table trained)
             /\ map (@length Q) (aa_q_table trained)
                = map (@length Q) (aa_q_table self)).
  { induction Hsteps as [|[[[state action] reward] next_state] rest Hr _ IH];
      intros self Ea Eg Hin Hrun.
    - cbn in Hrun. injection Hrun as <-. split; [exact Hin | reflexivity].
    - cbn [AdaptiveAgent_updates] in Hrun. cbn [fst snd] in Hr.
      destruct (AdaptiveAgent_update Action_eq_dec self state action reward next_state)
        as [e|self'] eqn:Eu; [discriminate|].
      destruct (update_keeps_bounds self self' state action reward next_state
                  (10 * lo) (10 * hi)) as (B & S & Ea' & Eg' & _);
        try assumption; try (rewrite Ea; discriminate);
        try (rewrite Eg; discriminate); try (rewrite Eg; lra).
      destruct (IH self') as [B' S']; try assumption; try congruence.
      split; [exact B' | congruence]. }
  intros Hrun. destruct (G init) as [B S]; try reflexivity; try exact Hrun.
  - unfold init, AdaptiveAgent_init, table_within. cbn [aa_q_table].
    apply Forall_forall. intros row Hrow. apply repeat_spec in Hrow. subst row.
    apply Forall_forall. intros q Hq. apply repeat_spec in Hq. subst q.
    split; lra.
  - split; [exact B|]. rewrite S. unfold init, AdaptiveAgent_init. cbn [aa_q_table].
    rewrite map_repeat, repeat_length. reflexivity.
Qed.

End AdaptiveProperties.

(** ** The multi-module proposal *)

(** X22.  For a valid configuration and any internal state, the proposal of
    the multi-module agent is a price in [[min_price, max_price]], the
    optimiser's choice, and the same whatever function computes the risk
    score; the call appends that price to the agent's own history, the
    opponent's offer (if any) to the opponent history, and reports the
    beliefs it leaves in the agent. *)
Theorem unified_propose_bookkeeping (sigmoid sigmoid' : Q -> Q)
    (self : UCNA.UnifiedNegotiationAgent) (last_offer : option Q) :
  valid_config (UCNA.base self) ->
  let result := fst (UCNA.propose sigmoid self last_offer) in
  let after := snd (UCNA.propose sigmoid self last_offer) in
  (min_price (UCNA.base self) <= UCNA.price result <= max_price (UCNA.base self))
  /\ UCNA.price result = UCNA.best_price (UCNA.optimization result)
  /\ UCNA.price result = UCNA.price (fst (UCNA.propose sigmoid' self last_offer))
  /\ UCNA.my_offer_history after = UCNA.my_offer_history self ++ [UCNA.price result]
  /\ UCNA.opponent_offer_history after
     = UCNA.opponent_offer_history self
       ++ match last_offer with Some o => [o] | None => [] end
  /\ UCNA.proposal_beliefs result = UCNA.beliefs after
  /\ UCNA.base after = UCNA.base self.
Proof.
  intros Hv.
  cbv beta iota zeta delta [UCNA.propose fst snd UCNA.price UCNA.optimization
                              UCNA.proposal_beliefs UCNA.my_offer_history
                              UCNA.opponent_offer_history UCNA.beliefs UCNA.base].
  destruct last_offer as [o|].
  - fold (UCNA.update_beliefs self o).
    split; [|split; [reflexivity|split; [|repeat split]]].
    + pose proof (optimize_offer_in_range (UCNA.update_beliefs self o) (Some o)
                    (UCNA.risk_score
                       (UCNA.evaluate_risk sigmoid self
                          (Qabs (target_price (UCNA.base self)
                                 * inject_Z (quantity (UCNA.base self)))) 30.0 10))
                    (UCNA.belief_stubbornness (UCNA.beliefs (UCNA.update_beliefs self o))))
        as P.
      rewrite update_beliefs_base in P. apply P. exact Hv.
    + unfold UCNA.optimize_offer.
      apply search_ignores_penalties; [reflexivity | exact I].
  - split; [|split; [reflexivity|split; [|repeat split]]].
    + apply optimize_offer_in_range. exact Hv.
    + unfold UCNA.optimize_offer.
      apply search_ignores_penalties; [reflexivity | exact I].
    + rewrite app_nil_r. reflexivity.
Qed.

(** ** Witnesses for the learning agent and the multi-module agent *)

Lemma unified_propose_bookkeeping_witness :
  let result := fst (UCNA.propose constant_risk unified_example (Some 110)) in
  let after := snd (UCNA.propose constant_risk unified_example (Some 110)) in
  (min_price (UCNA.base unified_example) <= UCNA.price result
                                         <= max_price (UCNA.base unified_example))
  /\ UCNA.price result = UCNA.best_price (UCNA.optimization result)
  /\ UCNA.price result
     = UCNA.price (fst (UCNA.propose (fun x => x) unified_example (Some 110)))
  /\ UCNA.my_offer_history after
     = UCNA.my_offer_history unified_example ++ [UCNA.price result]
  /\ UCNA.opponent_offer_history after
     = UCNA.opponent_offer_history unified_example ++ [110]
  /\ UCNA.proposal_beliefs result = UCNA.beliefs after
  /\ UCNA.base after = UCNA.base unified_example.
Proof.
  apply (unified_propose_bookkeeping constant_risk (fun x => x) unified_example
           (Some 110)).
  split; qeval.
Defined.


Lemma update_succeeds_iff_witness :
  match AdaptiveAgent_update string_dec fresh_learner (-1) "hold"%string 1 2 with
  | inr _ =>
      In "hold"%string (aa_actions fresh_learner)
      /\ (- Z.of_nat 3 <= -1 < Z.of_nat 3)%Z
      /\ (- Z.of_nat 3 <= 2 < Z.of_nat 3)%Z
  | inl ValueError => ~ In "hold"%string (aa_actions fresh_learner)
  | inl IndexError =>
      In "hold"%string (aa_actions fresh_learner)
      /\ ~ ((- Z.of_nat 3 <= -1 < Z.of_nat 3)%Z
            /\ (- Z.of_nat 3 <= 2 < Z.of_nat 3)%Z)
  end.
Proof.
  apply (update_succeeds_iff string string_dec fresh_learner 3 (-1) "hold"%string 1 2).
  reflexivity.
Defined.

Lemma q_values_stay_bounded_witness :
  match AdaptiveAgent_updates string_dec fresh_learner
          [(0%Z, "raise"%string, 1, 1%Z); ((-1)%Z, "hold"%string, 0.5, 0%Z)]
  with
  | inr trained =>
      table_within (10 * 0) (10 * 1) (aa_q_table trained)
      /\ map (@length Q) (aa_q_table trained) = repeat (length ["raise"%string; "hold"%string]) 3
  | inl _ => False
  end.
Proof.
  destruct (AdaptiveAgent_updates string_dec fresh_learner
              [(0%Z, "raise"%string, 1, 1%Z); ((-1)%Z, "hold"%string, 0.5, 0%Z)])
    as [e|trained] eqn:E.
  - vm_compute in E. discriminate E.
  - apply (q_values_stay_bounded string string_dec "learner"%string
             ["raise"%string; "hold"%string] 3 50 40 60 10
             [(0%Z, "raise"%string, 1, 1%Z); ((-1)%Z, "hold"%string, 0.5, 0%Z)]
             0 1 trained).
    + qeval.
    + qeval.
    + repeat constructor; qeval.
    + exact E.
Defined.

(** ** Finalizing a stored negotiation *)

Lemma run_auto_last_record (s : SessionRow) (market_price : option Q)
    (timeline : list RoundRecord) (agreement : Agreement) :
  run_auto_negotiation s market_price = Return (timeline, agreement) ->
  exists earlier rec,
    timeline = earlier ++ [rec]
    /\ ag_price agreement = (rr_buyer_offer rec + rr_seller_offer rec) / 2.
Proof.
  unfold run_auto_negotiation.
  destruct (run_auto_agents s market_price) as [b sl]. intros Hrun.
  destruct (Z_lt_le_dec (s_max_rounds s) 1) as [Hlt|Hge].
  { rewrite run_raises_without_rounds in Hrun by lia. discriminate. }
  destruct (run_form b sl false (s_max_rounds s) Hge) as (r & Hr & _ & _ & E).
  rewrite E in Hrun. injection Hrun as <- <-.
  destruct r as [|r]; [lia|].
  exists (map (nth_round b sl false) (seq 1 r)), (nth_round b sl false (S r)).
  split; [|reflexivity].
  rewrite seq_S, map_app. reflexivity.
Qed.

(** X29.  After [run_auto], for the two newest rows in either order,
    [finalize_agreement] succeeds with the price of the loop's agreement,
    but with the fairness values and the utilities recorded in the last
    round (each agent's utility at its own offer), not those the loop
    recomputed at the agreed price; the hash is taken over the truncated
    price.  Without a session or without offers the status codes 404 and
    400 raised in the body are caught by its own handler and surface
    as 500. *)
Theorem finalize_agreement_after_run_auto (s : SessionRow) (market_price : option Q)
    (timeline : list RoundRecord) (agreement : Agreement) (seller_first : bool) :
  run_auto_negotiation s market_price = Return (timeline, agreement) ->
  exists earlier rec,
    timeline = earlier ++ [rec]
    /\ match finalize_agreement (Some s) (latest_rows (s_quantity s) seller_first rec) with
       | inr result =>
           f_price result == ag_price agreement
           /\ h_price (f_hash_arguments result) = py_int (f_price result)
           /\ f_final_fairness result = Some (rr_fairness rec)
           /\ f_final_proportional_fairness result
              = Some (rr_proportional_fairness rec)
           /\ f_buyer_utility result = Some (rr_buyer_util rec)
           /\ f_seller_utility result = Some (rr_seller_util rec)
       | inl _ => False
       end
    /\ finalize_agreement (Some s) [] = inl 500%Z
    /\ finalize_agreement None (latest_rows (s_quantity s) seller_first rec) = inl 500%Z.
Proof.
  intros Hrun.
  destruct (run_auto_last_record s market_price timeline agreement Hrun)
    as (earlier & rec & Htl & Hp).
  exists earlier, rec. split; [exact Htl|]. split; [|split; reflexivity].
  rewrite Hp. destruct seller_first; cbn; repeat split. field.
Qed.

Lemma finalize_agreement_after_run_auto_witness :
  match run_auto_negotiation example_session None with
  | Return (timeline, agreement) =>
      exists earlier rec,
        timeline = earlier ++ [rec]
        /\ match finalize_agreement (Some example_session)
                   (latest_rows (s_quantity example_session) true rec) with
           | inr result =>
               f_price result == ag_price agreement
               /\ h_price (f_hash_arguments result) = py_int (f_price result)
               /\ f_final_fairness result = Some (rr_fairness rec)
               /\ f_final_proportional_fairness result
                  = Some (rr_proportional_fairness rec)
               /\ f_buyer_utility result = Some (rr_buyer_util rec)
               /\ f_seller_utility result = Some (rr_seller_util rec)
           | inl _ => False
           end
        /\ finalize_agreement (Some example_session) [] = inl 500%Z
        /\ finalize_agreement None
             (latest_rows (s_quantity example_session) true rec) = inl 500%Z
  | Raise _ => False
  end.
Proof.
  destruct (run_auto_negotiation example_session None)
    as [[timeline agreement]|e] eqn:E.
  - exact (finalize_agreement_after_run_auto example_session None
             timeline agreement true E).
  - vm_compute in E. discriminate E.
Defined.
